(** * obsidian-djvu-reader: the view controller, the locator codec, the
      citation builder and the in-frame highlighter, embedded in Rocq.

    Sources: [src/views/DjvuView.ts] (class [DjvuView] and the script it
    writes into the viewer frame) and the plugin class [DjVuReaderPlugin]
    ([getFilePage], [setFilePage]).

    Part I holds the embedding, Part II the properties. *)

From Stdlib Require Import Lia NArith ZArith String Ascii.
From stdpp Require Import base option list numbers gmap.

Local Open Scope N_scope.

Ltac Zify.zify_post_hook ::= Z.to_euclidean_division_equations.

(** * Part I. The embedding *)

(** ** ECMAScript strings and the built-ins the plugin calls

    A JavaScript string is a finite sequence of UTF-16 code units. The
    built-ins below follow ECMA-262 (and, for [btoa]/[atob], the HTML
    standard's forgiving base64); a call that throws returns [None]. *)

Module JS.

Definition jsstring := list N.

(** A string literal of the source, written with Rocq's ASCII strings. *)
Definition lit (s : string) : jsstring :=
  map N_of_ascii (list_ascii_of_string s).

Definition between (lo hi c : N) : bool := (lo <=? c) && (c <=? hi).

Definition is_digit (c : N) : bool := between 48 57 c.
Definition is_upper (c : N) : bool := between 65 90 c.
Definition is_lower (c : N) : bool := between 97 122 c.
Definition is_alnum (c : N) : bool := is_digit c || is_upper c || is_lower c.

Definition mem (c : N) (s : jsstring) : bool := existsb (N.eqb c) s.

(** [WhiteSpace] and [LineTerminator]: what [\s], [trim] and [trimEnd] strip. *)
Definition is_ws (c : N) : bool :=
  between 9 13 c || (c =? 32) || (c =? 160) || (c =? 5760) ||
  between 8192 8202 c || (c =? 8232) || (c =? 8233) || (c =? 8239) ||
  (c =? 8287) || (c =? 12288) || (c =? 65279).

(** *** Surrogates and UTF-8 *)

Definition is_high (c : N) : bool := between 55296 56319 c.
Definition is_low (c : N) : bool := between 56320 57343 c.

(** [UTF16SurrogatePairToCodePoint]. *)
Definition pair_cp (hi lo : N) : N := 65536 + (hi - 55296) * 1024 + (lo - 56320).

(** A string without unpaired surrogates, that is, a sequence of Unicode
    scalar values in UTF-16. *)
Fixpoint well_formed (s : jsstring) : bool :=
  match s with
  | [] => true
  | c :: r =>
      if is_high c then
        match r with
        | d :: r' => is_low d && well_formed r'
        | [] => false
        end
      else negb (is_low c) && (c <? 65536) && well_formed r
  end.

Definition utf8 (cp : N) : list N :=
  if cp <? 128 then [cp]
  else if cp <? 2048 then [192 + cp / 64; 128 + cp mod 64]
  else if cp <? 65536 then
    [224 + cp / 4096; 128 + (cp / 64) mod 64; 128 + cp mod 64]
  else [240 + cp / 262144; 128 + (cp / 4096) mod 64;
        128 + (cp / 64) mod 64; 128 + cp mod 64].

(** [UTF16EncodeCodePoint]. *)
Definition utf16 (cp : N) : jsstring :=
  if cp <? 65536 then [cp]
  else [55296 + (cp - 65536) / 1024; 56320 + (cp - 65536) mod 1024].

(** *** Percent escapes *)

Definition hex_digit (n : N) : N := if n <? 10 then 48 + n else 55 + n.

Definition hex_value (c : N) : option N :=
  if is_digit c then Some (c - 48)
  else if between 65 70 c then Some (c - 55)
  else if between 97 102 c then Some (c - 87)
  else None.

Definition percent (b : N) : jsstring := [37; hex_digit (b / 16); hex_digit (b mod 16)].

(** [uriUnreserved]: letters, digits and [-_.!~*'()]. *)
Definition uriUnreserved (c : N) : bool := is_alnum c || mem c (lit "-_.!~*'()").

(** [encodeURIComponent]: [Encode] with the unreserved set; an unpaired
    surrogate throws a URIError. *)
Fixpoint encodeURIComponent (s : jsstring) : option jsstring :=
  match s with
  | [] => Some []
  | c :: r =>
      if uriUnreserved c then cons c <$> encodeURIComponent r
      else if is_low c then None
      else if is_high c then
        match r with
        | d :: r' =>
            if is_low d
            then app (concat (map percent (utf8 (pair_cp c d)))) <$> encodeURIComponent r'
            else None
        | [] => None
        end
      else app (concat (map percent (utf8 c))) <$> encodeURIComponent r
  end.

(** [decodeURIComponent], in two passes. First every [%XX] becomes an octet
    (a [%] without two hexadecimal digits after it throws); other code
    units are kept. *)
Inductive token := Raw (c : N) | Octet (b : N).

Fixpoint percent_tokens (s : jsstring) : option (list token) :=
  match s with
  | [] => Some []
  | c :: r =>
      if c =? 37 then
        match r with
        | h :: l :: r' =>
            match hex_value h, hex_value l with
            | Some x, Some y => cons (Octet (16 * x + y)) <$> percent_tokens r'
            | _, _ => None
            end
        | _ => None
        end
      else cons (Raw c) <$> percent_tokens r
  end.

Definition is_cont (b : N) : bool := between 128 191 b.

(** Then the octets are read as UTF-8: a lead octet takes its continuation
    octets, which must be escapes too, and the sequence must be the
    shortest encoding of a scalar value; anything else throws. *)
Fixpoint utf8_tokens (ts : list token) : option jsstring :=
  match ts with
  | [] => Some []
  | Raw c :: r => cons c <$> utf8_tokens r
  | Octet b :: r =>
      if b <? 128 then cons b <$> utf8_tokens r
      else if between 192 223 b then
        match r with
        | Octet b1 :: r1 =>
            let cp := (b - 192) * 64 + (b1 - 128) in
            if is_cont b1 && (128 <=? cp)
            then cons cp <$> utf8_tokens r1 else None
        | _ => None
        end
      else if between 224 239 b then
        match r with
        | Octet b1 :: Octet b2 :: r2 =>
            let cp := (b - 224) * 4096 + (b1 - 128) * 64 + (b2 - 128) in
            if is_cont b1 && is_cont b2 && (2048 <=? cp) && negb (between 55296 57343 cp)
            then cons cp <$> utf8_tokens r2 else None
        | _ => None
        end
      else if between 240 247 b then
        match r with
        | Octet b1 :: Octet b2 :: Octet b3 :: r3 =>
            let cp := (b - 240) * 262144 + (b1 - 128) * 4096 + (b2 - 128) * 64 + (b3 - 128) in
            if is_cont b1 && is_cont b2 && is_cont b3 && (65536 <=? cp) && (cp <=? 1114111)
            then app (utf16 cp) <$> utf8_tokens r3 else None
        | _ => None
        end
      else None
  end.

Definition decodeURIComponent (s : jsstring) : option jsstring :=
  percent_tokens s ≫= utf8_tokens.

(** [escape]: letters, digits and [@*_+-./] stay, a code unit below 256
    becomes [%XX], any other [%uXXXX]. It never throws. *)
Definition escape_kept (c : N) : bool := is_alnum c || mem c (lit "@*_+-./").

Definition escape_unit (c : N) : jsstring :=
  if escape_kept c then [c]
  else if c <? 256 then percent c
  else [37; 117; hex_digit (c / 4096); hex_digit ((c / 256) mod 16);
        hex_digit ((c / 16) mod 16); hex_digit (c mod 16)].

Definition escape (s : jsstring) : jsstring := concat (map escape_unit s).

(** [unescape]: [%uXXXX] and [%XX] become the code unit they name; a [%]
    followed by anything else is kept. It never throws. *)
Definition hex2 (h l : N) : option N :=
  x ← hex_value h; y ← hex_value l; Some (16 * x + y).

Definition hex4 (a b c d : N) : option N :=
  x ← hex2 a b; y ← hex2 c d; Some (256 * x + y).

Fixpoint unescape (s : jsstring) : jsstring :=
  match s with
  | [] => []
  | c :: r =>
      if c =? 37 then
        match r with
        | u :: r1 =>
            let two :=
              match r1 with
              | a :: r2 =>
                  match hex2 u a with
                  | Some v => v :: unescape r2
                  | None => c :: unescape r
                  end
              | [] => c :: unescape r
              end in
            if u =? 117 then
              match r1 with
              | a :: b :: x :: y :: r6 =>
                  match hex4 a b x y with
                  | Some v => v :: unescape r6
                  | None => two
                  end
              | _ => two
              end
            else two
        | [] => c :: unescape r
        end
      else c :: unescape r
  end.

(** *** Base64 *)

Definition b64_char (n : N) : N :=
  if n <? 26 then 65 + n
  else if n <? 52 then 71 + n
  else if n <? 62 then n - 4
  else if n =? 62 then 43 else 47.

Definition b64_value (c : N) : option N :=
  if is_upper c then Some (c - 65)
  else if is_lower c then Some (c - 71)
  else if is_digit c then Some (c + 4)
  else if c =? 43 then Some 62
  else if c =? 47 then Some 63
  else None.

Fixpoint b64_encode (bs : list N) : jsstring :=
  match bs with
  | [] => []
  | [a] => [b64_char (a / 4); b64_char ((a mod 4) * 16); 61; 61]
  | [a; b] =>
      [b64_char (a / 4); b64_char ((a mod 4) * 16 + b / 16);
       b64_char ((b mod 16) * 4); 61]
  | a :: b :: c :: r =>
      [b64_char (a / 4); b64_char ((a mod 4) * 16 + b / 16);
       b64_char ((b mod 16) * 4 + c / 64); b64_char (c mod 64)] ++ b64_encode r
  end.

(** [btoa] throws on a code unit above 255. *)
Definition btoa (s : jsstring) : option jsstring :=
  if forallb (fun c => c <? 256) s then Some (b64_encode s) else None.

(** [atob] is the forgiving base64 decode: ASCII whitespace is dropped, one
    or two closing [=] are dropped when the length is a multiple of four, a
    length of 1 modulo 4 or a character outside the alphabet throws, and
    left-over bits are discarded. *)
Definition is_ascii_ws (c : N) : bool :=
  (c =? 9) || (c =? 10) || (c =? 12) || (c =? 13) || (c =? 32).

Definition strip_padding (s : jsstring) : jsstring :=
  if (N.of_nat (length s)) mod 4 =? 0 then
    match rev s with
    | a :: r =>
        if a =? 61 then
          match r with
          | b :: r' => if b =? 61 then rev r' else rev r
          | [] => rev r
          end
        else s
    | [] => s
    end
  else s.

Fixpoint b64_decode (vs : list N) : list N :=
  match vs with
  | a :: b :: c :: d :: r =>
      [a * 4 + b / 16; (b mod 16) * 16 + c / 4; (c mod 4) * 64 + d] ++ b64_decode r
  | [a; b; c] => [a * 4 + b / 16; (b mod 16) * 16 + c / 4]
  | [a; b] => [a * 4 + b / 16]
  | _ => []
  end.

Definition atob (s : jsstring) : option jsstring :=
  let d := strip_padding (filter (fun c => is_ascii_ws c = false) s) in
  if (N.of_nat (length d)) mod 4 =? 1 then None
  else b64_decode <$> mapM b64_value d.

(** *** Numbers and text *)

(** [parseInt(ds, 10)] on a run of decimal digits. Page numbers are
    modelled as naturals: the integers a JavaScript number holds exactly. *)
Definition parseInt (ds : jsstring) : N :=
  fold_left (fun acc c => 10 * acc + (c - 48)) ds 0.

(** The decimal rendering of a number by a template literal. *)
Fixpoint digits (fuel : nat) (n : N) (acc : jsstring) : jsstring :=
  let acc' := (48 + n mod 10) :: acc in
  match fuel with
  | O => acc'
  | S f => if n / 10 =? 0 then acc' else digits f (n / 10) acc'
  end.

Definition toString (n : N) : jsstring := digits (N.to_nat (N.log2 n)) n [].

Fixpoint drop_ws (s : jsstring) : jsstring :=
  match s with
  | c :: r => if is_ws c then drop_ws r else s
  | [] => []
  end.

Definition trimEnd (s : jsstring) : jsstring := rev (drop_ws (rev s)).
Definition trim (s : jsstring) : jsstring := trimEnd (drop_ws s).

(** [s.replace(/\s+/g, '')]. *)
Definition strip_ws (s : jsstring) : jsstring := filter (fun c => is_ws c = false) s.

Fixpoint starts_with (p s : jsstring) : bool :=
  match p, s with
  | [], _ => true
  | a :: p', b :: s' => (a =? b) && starts_with p' s'
  | _ :: _, [] => false
  end.

(** [hay.indexOf(needle)]: the least index at which [needle] occurs, [-1]
    when there is none. *)
Fixpoint indexOf_from (i : Z) (hay needle : jsstring) : Z :=
  if starts_with needle hay then i
  else match hay with
       | [] => (-1)%Z
       | _ :: r => indexOf_from (i + 1)%Z r needle
       end.

Definition indexOf (hay needle : jsstring) : Z := indexOf_from 0%Z hay needle.

(** [s.replace(/\r\n/g, "\n")], [s.replace(/\r/g, "\n")], [s.split("\n")]
    and [lines.join("\n")]. *)
Fixpoint replace_crlf (s : jsstring) : jsstring :=
  match s with
  | c :: r =>
      match r with
      | d :: r' => if (c =? 13) && (d =? 10) then 10 :: replace_crlf r' else c :: replace_crlf r
      | [] => [c]
      end
  | [] => []
  end.

Definition replace_cr (s : jsstring) : jsstring :=
  map (fun c => if c =? 13 then 10 else c) s.

Fixpoint split_on (sep : N) (s : jsstring) : list jsstring :=
  match s with
  | [] => [[]]
  | c :: r =>
      if c =? sep then [] :: split_on sep r
      else match split_on sep r with
           | l :: ls => (c :: l) :: ls
           | [] => [[c]]
           end
  end.

Fixpoint join (sep : jsstring) (ls : list jsstring) : jsstring :=
  match ls with
  | [] => []
  | [l] => l
  | l :: ls' => l ++ sep ++ join sep ls'
  end.

(** The two regular expressions of [setEphemeralState] have the shape
    [key(cls+)]: the leftmost place where [key] is followed by at least one
    character of the class, capturing the longest run of them. *)
Fixpoint take_while (cls : N -> bool) (s : jsstring) : jsstring :=
  match s with
  | c :: r => if cls c then c :: take_while cls r else []
  | [] => []
  end.

Definition strip_prefix (p s : jsstring) : option jsstring :=
  if starts_with p s then Some (drop (length p) s) else None.

Fixpoint match_key_run (key : jsstring) (cls : N -> bool) (s : jsstring) : option jsstring :=
  let here :=
    match strip_prefix key s with
    | Some rest => match take_while cls rest with [] => None | run => Some run end
    | None => None
    end in
  match here with
  | Some run => Some run
  | None => match s with
            | [] => None
            | _ :: r => match_key_run key cls r
            end
  end.

End JS.

Import JS.

(** [String.prototype.toLowerCase] follows the engine's Unicode tables,
    which are not part of this repository. The development is stated over
    any engine whose lower-casing acts on ASCII text as ECMA-262 says. *)
Definition lower_unit (c : N) : N := if is_upper c then c + 32 else c.

Definition is_ascii (s : jsstring) : bool := forallb (fun c => c <? 128) s.

Class JsEngine := {
  toLowerCase : jsstring -> jsstring;
  toLowerCase_ascii : forall s, is_ascii s = true -> toLowerCase s = map lower_unit s
}.

(** [a ?? b]. *)
Definition nullish {A : Type} (a b : option A) : option A :=
  match a with
  | Some x => Some x
  | None => b
  end.

(** ** The position store: [DjVuReaderPlugin] *)

(** [data.filePages], a record from file path to page number. *)
Definition getFilePage (filePath : jsstring) (filePages : gmap jsstring N) : option N :=
  nullish (filePages !! filePath) None.

(** How a promise settles. *)
Inductive settled := Fulfilled | Rejected (reason : jsstring).

(** [setFilePage] is an async function: up to its [await] it runs at the
    call, writing the entry and calling [saveData]; the promise it returns
    is given as a function of how the promise of [saveData] settles. *)
Definition setFilePage (filePath : jsstring) (page : N) (filePages : gmap jsstring N)
    : gmap jsstring N * (settled -> settled) :=
  (<[filePath := page]> filePages, λ saved, saved).

(** ** The locator codec, as [DjvuView] writes it inline *)

Definition not_amp (c : N) : bool := negb (c =? 38).

(** [subpath.match(/page=(\d+)/)] followed by [parseInt(.., 10)]. *)
Definition subpath_page (subpath : jsstring) : option N :=
  parseInt <$> match_key_run (lit "page=") is_digit subpath.

(** [subpath.match(/q=([^&]+)/)]: the captured token. *)
Definition subpath_q (subpath : jsstring) : option jsstring :=
  match_key_run (lit "q=") not_amp subpath.

(** [decodeURIComponent(escape(atob(highlight)))] inside the [try];
    [None] is the [catch] branch. *)
Definition decode_quote (highlight : jsstring) : option jsstring :=
  atob highlight ≫= λ bytes, decodeURIComponent (escape bytes).

Inductive error := URIError | InvalidCharacterError.

Inductive result (A : Type) := Ok (a : A) | Throw (e : error).
Arguments Ok {A} a.
Arguments Throw {A} e.

(** [encodeURIComponent(btoa(unescape(encodeURIComponent(text))))]. *)
Definition encode_quote (text : jsstring) : result jsstring :=
  match encodeURIComponent text with
  | None => Throw URIError
  | Some escaped =>
      match btoa (unescape escaped) with
      | None => Throw InvalidCharacterError
      | Some b64 =>
          match encodeURIComponent b64 with
          | None => Throw URIError
          | Some token => Ok token
          end
      end
  end.

(** The fragment inside the link of [showSelectionContextMenu]:
    [page=${page}&q=${encodedText}]. *)
Definition fragment (page : N) (encodedText : jsstring) : jsstring :=
  lit "page=" ++ toString page ++ lit "&q=" ++ encodedText.

(** ** The citation builder: the strings of [showSelectionContextMenu] *)

Record TFile := { path : jsstring; name : jsstring; extension : jsstring }.

(** The three clipboard strings behind the menu items [Copy],
    [Copy as quote] and [Copy link to selection]. *)
Record menu := { copy_text : jsstring; copy_quote : jsstring; copy_link : jsstring }.

Definition linkWithHighlight (f : TFile) (page : N) (encodedText : jsstring) : jsstring :=
  lit "[[" ++ path f ++ lit "#" ++ fragment page encodedText ++ lit "|" ++
  name f ++ lit " (page " ++ toString page ++ lit ")]]".

Definition quoteLines (text : jsstring) : list jsstring :=
  map (λ l, trimEnd (lit "> " ++ l)) (split_on 10 (replace_cr (replace_crlf text))).

Definition build_menu (f : TFile) (text : jsstring) (page : N) : result menu :=
  match encode_quote text with
  | Throw e => Throw e
  | Ok encodedText =>
      let link := linkWithHighlight f page encodedText in
      Ok {| copy_text := text;
            copy_quote := join [10] (quoteLines text) ++ [10; 10] ++ link;
            copy_link := link |}
  end.

(** ** The view and the page around it *)

(** A ghost mark on every page and quote that travels through the view:
    the call of [setEphemeralState] it came from, or [None] for a page read
    from the position store. The code does not look at it. *)
Record tagged (A : Type) := Tag { origin : option nat; value : A }.
Arguments Tag {A} origin value.
Arguments origin {A} t.
Arguments value {A} t.

(** The [LOAD_DJVU] message; [lm_frame] is the frame it was posted to. *)
Record load_msg := {
  lm_frame : nat;
  lm_buffer : list N;
  lm_name : jsstring;
  lm_page : option (tagged N);
  lm_highlight : option (tagged jsstring)
}.

(** What the view does to its collaborators. Nothing in the sources writes
    to the console; [ConsoleLog] is there so that logging can be spoken of. *)
Inductive effect :=
| PostLoad (m : load_msg)
| ShowNotice (text : jsstring)
| SaveData (pages : gmap jsstring N)
| MenuShown (m : menu)
| MenuHidden
| Uncaught (e : error)
| ConsoleLog (text : jsstring).

(** [contentEl]: empty, the viewer ([div.djvu-viewer] with its status line
    and the frame made by the render numbered [frame]), or the error panel. *)
Inductive contentEl :=
| Blank
| ViewerRoot (frame : nat) (status : jsstring)
| ErrorPanel (message : jsstring).

(** One call of [render] past its checks: its locals and where its body
    is suspended. [render] numbers itself with [seq]; the frame, the
    message handler and the 15 s timer it creates are named by that number. *)
Inductive stage := AwaitReady | AwaitBuffer | Settling | Finished.

Inductive buffer_state := Reading | ReadOk (buffer : list N) | ReadFailed (message : jsstring).

Record task := {
  t_seq : nat;
  t_file : TFile;
  t_page : option (tagged N);
  t_highlight : option (tagged jsstring);
  t_stage : stage;
  t_buffer : buffer_state
}.

Record world := {
  (* fields of DjvuView; [file] is FileView's *)
  file : option TFile;
  iframeEl : option nat;
  messageHandler : option nat;
  renderSeq : nat;
  initWait : option nat;
  pendingPage : option (tagged N);
  pendingHighlight : option (tagged jsstring);
  activeMenu : option menu;
  (* plugin.data.filePages *)
  filePages : gmap jsstring N;
  (* contentEl, its CSS class, the window's message listeners and timers *)
  content : contentEl;
  container_class : bool;
  listeners : list nat;
  timers : list nat;
  (* suspended calls of render *)
  tasks : list task;
  trace : list effect;
  (* ghost: calls of setEphemeralState so far *)
  clicks : nat
}.

Definition set_file (x : option TFile) (w : world) : world :=
  {| file := x; iframeEl := iframeEl w; messageHandler := messageHandler w;
     renderSeq := renderSeq w; initWait := initWait w;
     pendingPage := pendingPage w; pendingHighlight := pendingHighlight w;
     activeMenu := activeMenu w; filePages := filePages w;
     content := content w; container_class := container_class w;
     listeners := listeners w; timers := timers w; tasks := tasks w;
     trace := trace w; clicks := clicks w |}.

Definition set_iframeEl (x : option nat) (w : world) : world :=
  {| file := file w; iframeEl := x; messageHandler := messageHandler w;
     renderSeq := renderSeq w; initWait := initWait w;
     pendingPage := pendingPage w; pendingHighlight := pendingHighlight w;
     activeMenu := activeMenu w; filePages := filePages w;
     content := content w; container_class := container_class w;
     listeners := listeners w; timers := timers w; tasks := tasks w;
     trace := trace w; clicks := clicks w |}.

Definition set_messageHandler (x : option nat) (w : world) : world :=
  {| file := file w; iframeEl := iframeEl w; messageHandler := x;
     renderSeq := renderSeq w; initWait := initWait w;
     pendingPage := pendingPage w; pendingHighlight := pendingHighlight w;
     activeMenu := activeMenu w; filePages := filePages w;
     content := content w; container_class := container_class w;
     listeners := listeners w; timers := timers w; tasks := tasks w;
     trace := trace w; clicks := clicks w |}.

Definition set_renderSeq (x : nat) (w : world) : world :=
  {| file := file w; iframeEl := iframeEl w;
     messageHandler := messageHandler w; renderSeq := x;
     initWait := initWait w; pendingPage := pendingPage w;
     pendingHighlight := pendingHighlight w; activeMenu := activeMenu w;
     filePages := filePages w; content := content w;
     container_class := container_class w; listeners := listeners w;
     timers := timers w; tasks := tasks w; trace := trace w;
     clicks := clicks w |}.

Definition set_initWait (x : option nat) (w : world) : world :=
  {| file := file w; iframeEl := iframeEl w;
     messageHandler := messageHandler w; renderSeq := renderSeq w;
     initWait := x; pendingPage := pendingPage w;
     pendingHighlight := pendingHighlight w; activeMenu := activeMenu w;
     filePages := filePages w; content := content w;
     container_class := container_class w; listeners := listeners w;
     timers := timers w; tasks := tasks w; trace := trace w;
     clicks := clicks w |}.

Definition set_pendingPage (x : option (tagged N)) (w : world) : world :=
  {| file := file w; iframeEl := iframeEl w;
     messageHandler := messageHandler w; renderSeq := renderSeq w;
     initWait := initWait w; pendingPage := x;
     pendingHighlight := pendingHighlight w; activeMenu := activeMenu w;
     filePages := filePages w; content := content w;
     container_class := container_class w; listeners := listeners w;
     timers := timers w; tasks := tasks w; trace := trace w;
     clicks := clicks w |}.

Definition set_pendingHighlight (x : option (tagged jsstring)) (w : world) : world :=
  {| file := file w; iframeEl := iframeEl w;
     messageHandler := messageHandler w; renderSeq := renderSeq w;
     initWait := initWait w; pendingPage := pendingPage w;
     pendingHighlight := x; activeMenu := activeMenu w;
     filePages := filePages w; content := content w;
     container_class := container_class w; listeners := listeners w;
     timers := timers w; tasks := tasks w; trace := trace w;
     clicks := clicks w |}.

Definition set_activeMenu (x : option menu) (w : world) : world :=
  {| file := file w; iframeEl := iframeEl w;
     messageHandler := messageHandler w; renderSeq := renderSeq w;
     initWait := initWait w; pendingPage := pendingPage w;
     pendingHighlight := pendingHighlight w; activeMenu := x;
     filePages := filePages w; content := content w;
     container_class := container_class w; listeners := listeners w;
     timers := timers w; tasks := tasks w; trace := trace w;
     clicks := clicks w |}.

Definition set_filePages (x : gmap jsstring N) (w : world) : world :=
  {| file := file w; iframeEl := iframeEl w;
     messageHandler := messageHandler w; renderSeq := renderSeq w;
     initWait := initWait w; pendingPage := pendingPage w;
     pendingHighlight := pendingHighlight w; activeMenu := activeMenu w;
     filePages := x; content := content w;
     container_class := container_class w; listeners := listeners w;
     timers := timers w; tasks := tasks w; trace := trace w;
     clicks := clicks w |}.

Definition set_content (x : contentEl) (w : world) : world :=
  {| file := file w; iframeEl := iframeEl w;
     messageHandler := messageHandler w; renderSeq := renderSeq w;
     initWait := initWait w; pendingPage := pendingPage w;
     pendingHighlight := pendingHighlight w; activeMenu := activeMenu w;
     filePages := filePages w; content := x;
     container_class := container_class w; listeners := listeners w;
     timers := timers w; tasks := tasks w; trace := trace w;
     clicks := clicks w |}.

Definition set_container_class (x : bool) (w : world) : world :=
  {| file := file w; iframeEl := iframeEl w;
     messageHandler := messageHandler w; renderSeq := renderSeq w;
     initWait := initWait w; pendingPage := pendingPage w;
     pendingHighlight := pendingHighlight w; activeMenu := activeMenu w;
     filePages := filePages w; content := content w; container_class := x;
     listeners := listeners w; timers := timers w; tasks := tasks w;
     trace := trace w; clicks := clicks w |}.

Definition set_listeners (x : list nat) (w : world) : world :=
  {| file := file w; iframeEl := iframeEl w;
     messageHandler := messageHandler w; renderSeq := renderSeq w;
     initWait := initWait w; pendingPage := pendingPage w;
     pendingHighlight := pendingHighlight w; activeMenu := activeMenu w;
     filePages := filePages w; content := content w;
     container_class := container_class w; listeners := x;
     timers := timers w; tasks := tasks w; trace := trace w;
     clicks := clicks w |}.

Definition set_timers (x : list nat) (w : world) : world :=
  {| file := file w; iframeEl := iframeEl w;
     messageHandler := messageHandler w; renderSeq := renderSeq w;
     initWait := initWait w; pendingPage := pendingPage w;
     pendingHighlight := pendingHighlight w; activeMenu := activeMenu w;
     filePages := filePages w; content := content w;
     container_class := container_class w; listeners := listeners w;
     timers := x; tasks := tasks w; trace := trace w; clicks := clicks w |}.

Definition set_tasks (x : list task) (w : world) : world :=
  {| file := file w; iframeEl := iframeEl w;
     messageHandler := messageHandler w; renderSeq := renderSeq w;
     initWait := initWait w; pendingPage := pendingPage w;
     pendingHighlight := pendingHighlight w; activeMenu := activeMenu w;
     filePages := filePages w; content := content w;
     container_class := container_class w; listeners := listeners w;
     timers := timers w; tasks := x; trace := trace w; clicks := clicks w |}.

Definition set_trace (x : list effect) (w : world) : world :=
  {| file := file w; iframeEl := iframeEl w;
     messageHandler := messageHandler w; renderSeq := renderSeq w;
     initWait := initWait w; pendingPage := pendingPage w;
     pendingHighlight := pendingHighlight w; activeMenu := activeMenu w;
     filePages := filePages w; content := content w;
     container_class := container_class w; listeners := listeners w;
     timers := timers w; tasks := tasks w; trace := x; clicks := clicks w |}.

Definition set_clicks (x : nat) (w : world) : world :=
  {| file := file w; iframeEl := iframeEl w;
     messageHandler := messageHandler w; renderSeq := renderSeq w;
     initWait := initWait w; pendingPage := pendingPage w;
     pendingHighlight := pendingHighlight w; activeMenu := activeMenu w;
     filePages := filePages w; content := content w;
     container_class := container_class w; listeners := listeners w;
     timers := timers w; tasks := tasks w; trace := trace w; clicks := x |}.

Definition emit (e : effect) (w : world) : world := set_trace (trace w ++ [e]) w.

Definition set_stage (st : stage) (t : task) : task :=
  {| t_seq := t_seq t; t_file := t_file t; t_page := t_page t;
     t_highlight := t_highlight t; t_stage := st; t_buffer := t_buffer t |}.

Definition set_buffer (b : buffer_state) (t : task) : task :=
  {| t_seq := t_seq t; t_file := t_file t; t_page := t_page t;
     t_highlight := t_highlight t; t_stage := t_stage t; t_buffer := b |}.

Definition find_task (seq : nat) (w : world) : option task :=
  find (λ t, Nat.eqb (t_seq t) seq) (tasks w).

Definition update_task (seq : nat) (f : task -> task) (w : world) : world :=
  set_tasks (map (λ t, if Nat.eqb (t_seq t) seq then f t else t) (tasks w)) w.

Definition initial (pages : gmap jsstring N) : world :=
  {| file := None; iframeEl := None; messageHandler := None; renderSeq := 0%nat;
     initWait := None; pendingPage := None; pendingHighlight := None;
     activeMenu := None; filePages := pages; content := Blank;
     container_class := false; listeners := []; timers := []; tasks := [];
     trace := []; clicks := 0%nat |}.

(** ** [DjvuView]: its methods, and the continuations of [render] *)

(** Messages from the frame, by [data.type]; a field that is absent or of
    the wrong type is [None]. *)
Inductive message :=
| DJVU_READY
| DJVU_LOADED
| DJVU_ERROR (message : option jsstring)
| DJVU_CONTEXT_MENU (text : option jsstring) (page : option N)
| DJVU_PAGE_CHANGED (page : option N)
| DJVU_CLICK
| OtherMessage.

Inductive event :=
| SetEphemeralState (subpath : option jsstring)
| OnOpen
| LoadFile (f : TFile)
| UnloadFile
| Close
| Message (source : nat) (data : message)
| TimerFired (seq : nat)
| ReadResolved (seq : nat) (buffer : list N)
| ReadRejected (seq : nat) (message : jsstring)
| SettleDone (seq : nat)
| SaveSettled (s : settled).

Definition is_seq (o : option nat) (seq : nat) : bool :=
  match o with
  | Some s => Nat.eqb s seq
  | None => false
  end.

Definition without (seq : nat) (l : list nat) : list nat :=
  filter (λ s, Nat.eqb s seq = false) l.

(** A frame has a [contentWindow] only while it is in the document. *)
Definition attached (seq : nat) (w : world) : bool :=
  match content w with
  | ViewerRoot k _ => Nat.eqb k seq
  | _ => false
  end.

Inductive dom_call := RemoveEventListener (h : nat) | ClearTimeout (seq : nat) | Empty.

(** [setEphemeralState]. The two matches and the first
    [decodeURIComponent] run before anything is assigned. *)
Definition setEphemeralState (state_subpath : option jsstring) (w : world) : result world :=
  let subpath := default [] state_subpath in
  let page := subpath_page subpath in
  let qMatch := subpath_q subpath in
  let click := clicks w in
  let w := set_clicks (S click) w in
  let highlight :=
    match qMatch with
    | Some token =>
        match decodeURIComponent token with
        | Some h => Ok (Some h)
        | None => Throw URIError
        end
    | None => Ok None
    end in
  match highlight with
  | Throw e => Throw e
  | Ok highlight =>
      let w := match page with
               | Some p => set_pendingPage (Some (Tag (Some click) p)) w
               | None => w
               end in
      Ok match highlight with
         | Some h => set_pendingHighlight (Tag (Some click) <$> decode_quote h) w
         | None => w
         end
  end.

(** [cleanup], with the calls it makes on the window and the document. *)
Definition cleanup_run (w : world) : list dom_call * world :=
  let '(c1, w) :=
    match messageHandler w with
    | Some h => ([RemoveEventListener h],
                 set_messageHandler None (set_listeners (without h (listeners w)) w))
    | None => ([], w)
    end in
  let '(c2, w) :=
    match initWait w with
    | Some seq => ([ClearTimeout seq], set_initWait None (set_timers (without seq (timers w)) w))
    | None => ([], w)
    end in
  (c1 ++ c2 ++ [Empty], set_content Blank (set_iframeEl None w)).

Definition cleanup (w : world) : world := snd (cleanup_run w).

Definition onUnloadFile (w : world) : world := cleanup w.

Definition onOpen (w : world) : world := set_container_class true w.

Definition onClose (w : world) : world := set_container_class false (cleanup w).

Definition showError (message : jsstring) (w : world) : world :=
  set_content (ErrorPanel message) w.

Definition showSelectionContextMenu (text : jsstring) (page : N) (w : world) : result world :=
  match file w, iframeEl w, text with
  | Some f, Some _, _ :: _ =>
      match build_menu f text page with
      | Throw e => Throw e
      | Ok m =>
          let w := match activeMenu w with
                   | Some _ => emit MenuHidden w
                   | None => w
                   end in
          Ok (emit (MenuShown m) (set_activeMenu (Some m) w))
      end
  | _, _, _ => Ok w
  end.

Definition finish (seq : nat) (w : world) : world :=
  update_task seq (set_stage Finished) w.

(** The [catch] of [render]. *)
Definition render_catch (seq : nat) (message : jsstring) (w : world) : world :=
  let w := showError (lit "Failed to open DjVu: " ++ message) w in
  let w := emit (ShowNotice (lit "DjVu reader: " ++ message)) w in
  finish seq w.

(** [render] after [await bufferPromise]: the sequence check, then the
    50 ms wait. *)
Definition after_buffer (t : task) (w : world) : world :=
  if negb (Nat.eqb (t_seq t) (renderSeq w)) then finish (t_seq t) w
  else update_task (t_seq t) (set_stage Settling) w.

(** [render] after the 50 ms wait. *)
Definition after_settle (t : task) (buffer : list N) (w : world) : world :=
  let finalPage := nullish (pendingPage w) (t_page t) in
  let finalHighlight := nullish (nullish (pendingHighlight w) (t_highlight t)) None in
  let w := set_pendingHighlight None (set_pendingPage None w) in
  let w :=
    if attached (t_seq t) w
    then emit (PostLoad {| lm_frame := t_seq t; lm_buffer := buffer;
                           lm_name := name (t_file t); lm_page := finalPage;
                           lm_highlight := finalHighlight |}) w
    else w in
  let w := if attached (t_seq t) w then set_content (ViewerRoot (t_seq t) []) w else w in
  finish (t_seq t) w.

(** [render] after the handshake promise was resolved. A promise settles
    once: [resolve] and [reject] resume the render only while it is
    suspended on the handshake. *)
Definition after_ready (t : task) (w : world) : world :=
  match t_stage t with
  | AwaitReady =>
      match t_buffer t with
      | Reading => update_task (t_seq t) (set_stage AwaitBuffer) w
      | ReadOk _ => after_buffer t w
      | ReadFailed message => render_catch (t_seq t) message w
      end
  | _ => w
  end.

(** [render] after the handshake promise was rejected. *)
Definition after_reject (t : task) (message : jsstring) (w : world) : world :=
  match t_stage t with
  | AwaitReady => render_catch (t_seq t) message w
  | _ => w
  end.

Section Controller.
Context {engine : JsEngine}.

Definition is_djvu (f : TFile) : bool :=
  let ext := toLowerCase (extension f) in
  bool_decide (ext = lit "djvu") || bool_decide (ext = lit "djv").

(** [render] up to its first [await]. The frame is created, the handler
    registered and the read started; the rest of the body waits as a task. *)
Definition render (file_arg : option TFile) (page : option (tagged N))
    (highlight : option (tagged jsstring)) (w : world) : world :=
  match nullish file_arg (file w) with
  | None => showError (lit "No file.") w
  | Some f =>
      if negb (is_djvu f) then showError (lit "Not a DjVu file.") w
      else
        let seq := S (renderSeq w) in
        let w := set_renderSeq seq w in
        let w := cleanup w in
        let w := set_content (ViewerRoot seq (lit "Loading DjVu" ++ [8230])) w in
        let w := set_iframeEl (Some seq) w in
        let w := set_listeners (listeners w ++ [seq]) (set_messageHandler (Some seq) w) in
        let w := set_timers (timers w ++ [seq]) (set_initWait (Some seq) w) in
        set_tasks (tasks w ++ [{| t_seq := seq; t_file := f; t_page := page;
                                  t_highlight := highlight; t_stage := AwaitReady;
                                  t_buffer := Reading |}]) w
  end.

Definition onLoadFile (f : TFile) (w : world) : world :=
  let savedPage := getFilePage (path f) (filePages w) in
  let page := nullish (pendingPage w) (Tag None <$> savedPage) in
  let highlight := pendingHighlight w in
  let w := set_pendingHighlight None (set_pendingPage None w) in
  render (Some f) page highlight w.

(** The message handler that the render numbered [h] registered. *)
Definition messageHandler_of (h : nat) (source : nat) (data : message) (w : world) : world :=
  if negb (Nat.eqb source h && attached h w) then w
  else
    match find_task h w with
    | None => w
    | Some t =>
        match data with
        | DJVU_READY =>
            if is_seq (initWait w) h then
              let w := set_initWait None (set_timers (without h (timers w)) w) in
              after_ready t w
            else w
        | DJVU_ERROR m =>
            if is_seq (initWait w) h then
              let w := set_initWait None (set_timers (without h (timers w)) w) in
              let m := match m with
                       | Some (c :: s) => c :: s
                       | _ => lit "DjVu viewer error"
                       end in
              after_reject t m w
            else w
        | DJVU_CONTEXT_MENU text page =>
            match showSelectionContextMenu (trim (default [] text)) (default 1 page) w with
            | Ok w' => w'
            | Throw e => emit (Uncaught e) w
            end
        | DJVU_PAGE_CHANGED (Some p) =>
            let pages := fst (setFilePage (path (t_file t)) p (filePages w)) in
            emit (SaveData pages) (set_filePages pages w)
        | DJVU_CLICK =>
            match activeMenu w with
            | Some _ => set_activeMenu None (emit MenuHidden w)
            | None => w
            end
        | _ => w
        end
    end.

(** One turn of the event loop. *)
Definition step (e : event) (w : world) : world :=
  match e with
  | SetEphemeralState subpath =>
      match setEphemeralState subpath w with
      | Ok w' => w'
      | Throw err => emit (Uncaught err) (set_clicks (S (clicks w)) w)
      end
  | OnOpen => onOpen w
  | LoadFile f => onLoadFile f (set_file (Some f) w)
  | UnloadFile => onUnloadFile w
  | Close => onClose w
  | Message source data =>
      fold_left (λ w h, messageHandler_of h source data w) (listeners w) w
  | TimerFired seq =>
      if existsb (Nat.eqb seq) (timers w) then
        let w := set_timers (without seq (timers w)) w in
        if is_seq (initWait w) seq then
          match find_task seq w with
          | Some t =>
              after_reject t (lit "Timed out initializing DjVu viewer.") (set_initWait None w)
          | None => set_initWait None w
          end
        else w
      else w
  | ReadResolved seq buffer =>
      match find_task seq w with
      | Some t =>
          match t_buffer t with
          | Reading =>
              let w := update_task seq (set_buffer (ReadOk buffer)) w in
              match t_stage t with
              | AwaitBuffer => after_buffer t w
              | _ => w
              end
          | _ => w
          end
      | None => w
      end
  | ReadRejected seq m =>
      match find_task seq w with
      | Some t =>
          match t_buffer t with
          | Reading =>
              let w := update_task seq (set_buffer (ReadFailed m)) w in
              match t_stage t with
              | AwaitBuffer => render_catch seq m w
              | _ => w
              end
          | _ => w
          end
      | None => w
      end
  | SettleDone seq =>
      match find_task seq w with
      | Some t =>
          match t_stage t, t_buffer t with
          | Settling, ReadOk buffer => after_settle t buffer w
          | _, _ => w
          end
      | None => w
      end
  | SaveSettled _ => w
  end.

Definition run (es : list event) (w : world) : world := fold_left (λ w e, step e w) es w.

End Controller.

(** ** The codec as a pair of functions

    [decode] is what [setEphemeralState] leaves in [pendingPage] and
    [pendingHighlight] of a view in which both were null; [encode] is the
    fragment that [showSelectionContextMenu] writes into its link. *)
Record locator := { loc_page : option N; loc_quote : option jsstring }.

Definition decode (subpath : jsstring) : result locator :=
  match setEphemeralState (Some subpath) (initial ∅) with
  | Ok w => Ok {| loc_page := value <$> pendingPage w;
                  loc_quote := value <$> pendingHighlight w |}
  | Throw e => Throw e
  end.

Definition encode (page : N) (text : jsstring) : result jsstring :=
  match encode_quote text with
  | Ok token => Ok (fragment page token)
  | Throw e => Throw e
  end.

(** ** The script inside the frame *)

(** A [span] under [#app]: its text, and whether its parent is positioned
    absolutely. *)
Record span := { textContent : jsstring; parent_absolute : bool }.

(** The spans [tryHighlight] keeps: the text layer. *)
Definition text_layer (dom : list span) : list span :=
  filter (λ s, trim (textContent s) ≠ [] ∧ parent_absolute s = true) dom.

(** [map[i].start]: where each span begins in the concatenated text. *)
Fixpoint starts_from (start : Z) (spans : list span) : list Z :=
  match spans with
  | [] => []
  | s :: r => start :: starts_from (start + Z.of_nat (length (textContent s))) r
  end.

(** The [for] loop that maps the match back onto [text]. [rest] is what is
    left of [text] from index [i] on. *)
Fixpoint map_back (idx len : Z) (rest : jsstring) (i pos startChar endChar : Z) : Z * Z :=
  match rest with
  | [] => (startChar, endChar)
  | c :: r =>
      if negb (pos <=? idx + len)%Z then (startChar, endChar)
      else if is_ws c then map_back idx len r (i + 1)%Z pos startChar endChar
      else
        let startChar := if (pos =? idx)%Z then i else startChar in
        if (pos =? idx + len - 1)%Z then (startChar, (i + 1)%Z)
        else map_back idx len r (i + 1)%Z (pos + 1)%Z startChar endChar
  end.

(** The last [forEach]: for each span, whether it gets the class. *)
Fixpoint mark (starts : list Z) (total startChar endChar : Z) : list bool :=
  match starts with
  | [] => []
  | s :: r =>
      let e := match r with
               | s' :: _ => s'
               | [] => total
               end in
      ((startChar <? e)%Z && (s <? endChar)%Z) :: mark r total startChar endChar
  end.

Inductive outcome :=
| GaveUp
| NotFound
| Highlighted (classes : list bool).

Section Frame.
Context {engine : JsEngine}.

(** [s.replace(/\s+/g, '').toLowerCase()]. *)
Definition normalize (s : jsstring) : jsstring := toLowerCase (strip_ws s).

(** The body of [tryHighlight] once the text layer has spans. *)
Definition highlight_spans (spans : list span) (searchText : jsstring) : outcome :=
  let text := concat (map textContent spans) in
  let search := normalize searchText in
  let idx := indexOf (normalize text) search in
  if (idx =? -1)%Z then NotFound
  else
    let total := Z.of_nat (length text) in
    let '(startChar, endChar) :=
      map_back idx (Z.of_nat (length search)) text 0 0 0 total in
    Highlighted (mark (starts_from 0 spans) total startChar endChar).

(** [tryHighlight] and its retries. [doms n] is the document as the call
    made after [n] retries finds it; the result lists the delays of the
    timers set on the way. [fuel] bounds the unfolding. *)
Fixpoint tryHighlight (fuel : nat) (doms : nat -> list span) (searchText : jsstring)
    (attempts : nat) : option (list N * outcome) :=
  match fuel with
  | O => None
  | S fuel =>
      match text_layer (doms attempts) with
      | [] =>
          if (attempts <? 20)%nat then
            '(delays, o) ← tryHighlight fuel doms searchText (S attempts);
            Some (300 :: delays, o)
          else Some ([], GaveUp)
      | spans => Some ([], highlight_spans spans searchText)
      end
  end.

Definition highlightText (fuel : nat) (doms : nat -> list span) (searchText : jsstring)
    : option (list N * outcome) :=
  tryHighlight fuel doms searchText 0.

End Frame.

(** The frame's handler of [LOAD_DJVU]: the configuration it hands to
    [viewer.loadDocument] ([msg.page ? { pageNumber: msg.page } : {}]) and
    the text it later passes to [highlightText] ([if (msg.highlight)]). *)
Definition load_config (page : option N) : option N :=
  match page with
  | Some p => if p =? 0 then None else Some p
  | None => None
  end.

Definition load_highlight (highlight : option jsstring) : option jsstring :=
  match highlight with
  | Some (c :: s) => Some (c :: s)
  | _ => None
  end.

(** Modelled from the spec: [DjVu.Viewer.loadDocument] of the vendored
    DjVu.js, which is not under src/. It shows the page its configuration
    names and the first page when it names none. *)
Definition viewer_page (config : option N) : N := default 1 config.

(** An engine to run the model with: it lower-cases ASCII letters and
    leaves every other code unit as it is. *)
Definition ascii_engine : JsEngine :=
  {| toLowerCase := map lower_unit; toLowerCase_ascii := λ s _, eq_refl |}.

(** ** Auxiliary definitions of the proofs *)

(** What [encodeURIComponent] writes for one octet, and the tokens that
    [decodeURIComponent] reads back from it and from [escape]. *)
Definition enc_octet (b : N) : jsstring := if uriUnreserved b then [b] else percent b.

Definition enc_token (b : N) : token := if uriUnreserved b then Raw b else Octet b.

Definition esc_token (b : N) : token := if escape_kept b then Raw b else Octet b.

(** The UTF-8 octets of a string. *)
Fixpoint utf8_string (s : jsstring) : list N :=
  match s with
  | [] => []
  | c :: r =>
      if is_high c then
        match r with
        | d :: r' => utf8 (pair_cp c d) ++ utf8_string r'
        | [] => utf8 c
        end
      else utf8 c ++ utf8_string r
  end.

(** The sextets that [btoa] writes, and its padding. *)
Fixpoint b64_sextets (bs : list N) : list N :=
  match bs with
  | [] => []
  | [a] => [a / 4; (a mod 4) * 16]
  | [a; b] => [a / 4; (a mod 4) * 16 + b / 16; (b mod 16) * 4]
  | a :: b :: c :: r =>
      [a / 4; (a mod 4) * 16 + b / 16; (b mod 16) * 4 + c / 64; c mod 64] ++ b64_sextets r
  end.

Fixpoint b64_pad (bs : list N) : jsstring :=
  match bs with
  | [] => []
  | [_] => [61; 61]
  | [_; _] => [61]
  | _ :: _ :: _ :: r => b64_pad r
  end.

(** One try of a [key(cls+)] expression at the head of [s]. *)
Definition match_here (key : jsstring) (cls : N -> bool) (s : jsstring) : option jsstring :=
  match strip_prefix key s with
  | Some rest => match take_while cls rest with [] => None | run => Some run end
  | None => None
  end.

(** The locator that [setEphemeralState] makes of a matched page and a
    matched token. *)
Definition locate (page : option N) (token : option jsstring) : result locator :=
  match token with
  | Some t =>
      match decodeURIComponent t with
      | Some h => Ok {| loc_page := page; loc_quote := decode_quote h |}
      | None => Throw URIError
      end
  | None => Ok {| loc_page := page; loc_quote := None |}
  end.

(** ** The citation builder in the words of the specification

    The selection is split on any newline convention ([\r\n], [\r] or
    [\n]) in one pass; each line gets the quotation marker and loses its
    trailing whitespace. *)
Fixpoint spec_lines (s : jsstring) : list jsstring :=
  match s with
  | [] => [[]]
  | c :: r =>
      if c =? 13 then
        match r with
        | d :: r' => if d =? 10 then [] :: spec_lines r' else [] :: spec_lines r
        | [] => [] :: spec_lines r
        end
      else if c =? 10 then [] :: spec_lines r
      else match spec_lines r with
           | l :: ls => (c :: l) :: ls
           | [] => [[c]]
           end
  end.

Definition spec_quote_line (l : jsstring) : jsstring :=
  if forallb is_ws l then lit ">" else lit "> " ++ trimEnd l.

Definition spec_link (documentIdentity displayName : jsstring) (page : N) (token : jsstring)
    : jsstring :=
  lit "[[" ++ documentIdentity ++ lit "#page=" ++ toString page ++ lit "&q=" ++ token ++
  lit "|" ++ displayName ++ lit " (page " ++ toString page ++ lit ")]]".

Definition spec_quoteBlock (text link : jsstring) : jsstring :=
  join [10] (map spec_quote_line (spec_lines text)) ++ [10] ++ [10] ++ link.

(** Two worlds in which the view, its document and its suspended renders
    are the same: at most the position store and the trace differ. *)
Definition same_view (w w' : world) : Prop :=
  file w = file w' /\ iframeEl w = iframeEl w' /\ messageHandler w = messageHandler w' /\
  renderSeq w = renderSeq w' /\ initWait w = initWait w' /\
  pendingPage w = pendingPage w' /\ pendingHighlight w = pendingHighlight w' /\
  activeMenu w = activeMenu w' /\ content w = content w' /\
  container_class w = container_class w' /\ listeners w = listeners w' /\
  timers w = timers w' /\ tasks w = tasks w' /\ clicks w = clicks w'.

Definition is_save (e : effect) : Prop := exists pages, e = SaveData pages.

(** ** The fuzzy locator in the words of the specification

    Step 3: the leftmost index at which the normalized query occurs in the
    normalized buffer. Step 4: the offsets, in the original buffer, of the
    non-whitespace characters that carry the first and the last index of
    the match, found by counting non-whitespace characters; where the walk
    never gets there the start stays 0 and the end stays the length of the
    buffer. Step 5: a fragment is matched when its span [start, start+len)
    overlaps [startChar, endChar). *)
Definition spec_leftmost (hay needle : jsstring) : option nat :=
  find (λ i, starts_with needle (drop i hay)) (seq 0 (S (length hay))).

Fixpoint spec_offset (rank : Z) (text : jsstring) (i : Z) : option Z :=
  match text with
  | [] => None
  | c :: r =>
      if is_ws c then spec_offset rank r (i + 1)%Z
      else if (rank =? 0)%Z then Some i
      else spec_offset (rank - 1)%Z r (i + 1)%Z
  end.

Definition spec_span (idx len : Z) (text : jsstring) : Z * Z :=
  (default 0%Z (spec_offset idx text 0),
   default (Z.of_nat (length text)) ((λ i, i + 1)%Z <$> spec_offset (idx + len - 1)%Z text 0)).

Fixpoint spec_marks (start : Z) (spans : list span) (startChar endChar : Z) : list bool :=
  match spans with
  | [] => []
  | s :: r =>
      let stop := (start + Z.of_nat (length (textContent s)))%Z in
      ((start <? endChar)%Z && (startChar <? stop)%Z) :: spec_marks stop r startChar endChar
  end.

Definition spec_locate {engine : JsEngine} (spans : list span) (query : jsstring) : outcome :=
  let text := concat (map textContent spans) in
  let needle := normalize query in
  match spec_leftmost (normalize text) needle with
  | None => NotFound
  | Some idx =>
      let '(startChar, endChar) :=
        spec_span (Z.of_nat idx) (Z.of_nat (length needle)) text in
      Highlighted (spec_marks 0 spans startChar endChar)
  end.

(** ** Invariants of the view, and where a link's page and quote are held *)

(** What every reachable world satisfies: renders are numbered apart and
    not beyond [renderSeq]; only the current render's handler can be
    registered and only its 15 s timer pending; loads went to frames that
    existed. *)
Record consistent (w : world) : Prop := {
  c_tasks : Forall (λ t, (t_seq t <= renderSeq w)%nat) (tasks w);
  c_nodup : NoDup (map t_seq (tasks w));
  c_handler : messageHandler w = None \/ messageHandler w = Some (renderSeq w);
  c_listeners : listeners w = match messageHandler w with Some h => [h] | None => [] end;
  c_wait : initWait w = None \/ initWait w = Some (renderSeq w);
  c_timers : timers w = match initWait w with Some s => [s] | None => [] end;
  c_loads : Forall (λ e, forall m, e = PostLoad m -> (lm_frame m <= renderSeq w)%nat) (trace w)
}.

Definition has_tag {A : Type} (k : nat) (o : option (tagged A)) : bool :=
  match o with
  | Some t => match origin t with
              | Some j => Nat.eqb j k
              | None => false
              end
  | None => false
  end.

(** Does a pair of page and quote carry anything of the [k]-th call of
    [setEphemeralState]? *)
Definition carries (k : nat) (p : option (tagged N)) (h : option (tagged jsstring)) : bool :=
  has_tag k p || has_tag k h.

Definition task_live (t : task) : bool :=
  match t_stage t with
  | Finished => false
  | _ => true
  end.

Definition task_carries (k : nat) (t : task) : bool :=
  task_live t && carries k (t_page t) (t_highlight t).

Definition load_carries (k : nat) (e : effect) : bool :=
  match e with
  | PostLoad m => carries k (lm_page m) (lm_highlight m)
  | _ => false
  end.

Fixpoint count {A : Type} (f : A -> bool) (l : list A) : nat :=
  match l with
  | [] => 0
  | a :: l => (if f a then 1 else 0) + count f l
  end.

(** In how many places the [k]-th link intent sits: the pending fields,
    the renders that have not finished, the loads already posted. *)
Definition holders (k : nat) (w : world) : nat :=
  ((if carries k (pendingPage w) (pendingHighlight w) then 1 else 0) +
   count (task_carries k) (tasks w) + count (load_carries k) (trace w))%nat.

Definition is_link (e : event) : bool :=
  match e with
  | SetEphemeralState _ => true
  | _ => false
  end.

(** A page that no link gave: absent, or read from the position store. *)
Definition from_store (p : option (tagged N)) : Prop :=
  match p with
  | Some t => origin t = None
  | None => True
  end.

(** The [k]-th link intent sits in at most one place, and in none before
    the call that makes it. *)
Definition once (k : nat) (w : world) : Prop :=
  (holders k w <= 1)%nat /\ ((clicks w <= k)%nat -> holders k w = 0%nat).

(** Nothing of a link is pending, and whatever was started or loaded after
    the render numbered [n] came from the position store alone. *)
Definition link_free (n : nat) (w : world) : Prop :=
  pendingPage w = None /\ pendingHighlight w = None /\
  (forall t, t ∈ tasks w -> (n < t_seq t)%nat -> from_store (t_page t) /\ t_highlight t = None) /\
  (forall m, PostLoad m ∈ trace w -> (n < lm_frame m)%nat ->
             from_store (lm_page m) /\ lm_highlight m = None).

(** ** The other listeners of the script inside the frame *)

(** The page tracker, the function given to [setInterval(.., 1000)]:
    [if (p && p !== lastPage) { lastPage = p; post('DJVU_PAGE_CHANGED', ..) }].
    [p] is what [viewer.getPageNumber()] returned, [None] when that is not
    a number; the result is the new [lastPage] and what was posted. *)
Definition track_page (lastPage : option N) (p : option N) : option N * list message :=
  match p with
  | Some n =>
      if negb (n =? 0) && negb (bool_decide (lastPage = Some n))
      then (Some n, [DJVU_PAGE_CHANGED (Some n)])
      else (lastPage, [])
  | None => (lastPage, [])
  end.

(** The tracker over the readings of successive seconds. *)
Fixpoint track_pages (lastPage : option N) (readings : list (option N))
    : option N * list message :=
  match readings with
  | [] => (lastPage, [])
  | p :: r =>
      let '(lastPage, posted) := track_page lastPage p in
      let '(lastPage, later) := track_pages lastPage r in
      (lastPage, posted ++ later)
  end.

(** The [contextmenu] listener. [selection] is the text of
    [window.getSelection()], [None] when there is no selection object;
    [pageNumber] is [viewer.getPageNumber()]. The coordinates it sends
    along only place the menu and are left out. *)
Definition on_contextmenu (selection : option jsstring) (pageNumber : option N)
    : option message :=
  match trim (default [] selection) with
  | [] => None
  | sel => Some (DJVU_CONTEXT_MENU (Some sel) (Some (default 1 (load_config pageNumber))))
  end.

(** The [click] listener: it posts [DJVU_CLICK] and takes the highlight
    class off every element. *)
Definition on_click (classes : list bool) : list message * list bool :=
  ([DJVU_CLICK], map (λ _, false) classes).

(** How [viewer.loadDocument] settles. For a rejection [err], [message]
    is [err && err.message] when that is a non-empty string and [text] is
    [String(err)]. *)
Inductive load_outcome :=
| Loaded
| LoadFailed (message : option jsstring) (text : jsstring).

(** The listener of [LOAD_DJVU] once [loadDocument] has settled: what it
    posts, and the timer it sets (delay, and the text for [highlightText]). *)
Definition on_load_settled (highlight : option jsstring) (r : load_outcome)
    : list message * option (N * jsstring) :=
  match r with
  | Loaded =>
      ([DJVU_LOADED],
       match load_highlight highlight with
       | Some h => Some (500, h)
       | None => None
       end)
  | LoadFailed message text =>
      ([DJVU_ERROR (Some match message with
                         | Some (c :: s) => c :: s
                         | _ => text
                         end)], None)
  end.

(** ** Auxiliary definitions of the further properties *)

(** The page a [DJVU_PAGE_CHANGED] message carries, and a reading of
    [getPageNumber()] that names a page: a number other than 0. *)
Definition page_of (m : message) : option N :=
  match m with
  | DJVU_PAGE_CHANGED p => p
  | _ => None
  end.

Definition names_page (p : option N) : option N :=
  match p with
  | Some n => if n =? 0 then None else Some n
  | None => None
  end.

(** The frames the posted loads went to, in the order of posting. *)
Definition load_frames (tr : list effect) : list nat :=
  omap (λ e, match e with
             | PostLoad m => Some (lm_frame m)
             | _ => None
             end) tr.

Definition is_shown (e : effect) : bool :=
  match e with
  | MenuShown _ => true
  | _ => false
  end.

Definition is_hidden (e : effect) : bool :=
  match e with
  | MenuHidden => true
  | _ => false
  end.

(** The viewer on show is that of the current render, whose handler is
    the one registered and whose file is the file of the view. *)
Definition viewer_current (w : world) : Prop :=
  forall k st, content w = ViewerRoot k st ->
    k = renderSeq w /\ messageHandler w = Some k /\ iframeEl w = Some k /\
    exists t, find_task k w = Some t /\ file w = Some (t_file t).

(** While the view waits for a frame to report, the render of that frame
    is the one suspended on the handshake. *)
Definition wait_pending (w : world) : Prop :=
  forall s, initWait w = Some s ->
    exists t, find_task s w = Some t /\ t_stage t = AwaitReady.

(** As many menus were shown as were hidden, but for the one that is up. *)
Definition menus_balanced (w : world) : Prop :=
  count is_shown (trace w)
  = (count is_hidden (trace w) + match activeMenu w with
                                 | Some _ => 1
                                 | None => 0
                                 end)%nat.

(** Nothing of the view is left in the window or the document. *)
Definition released (w : world) : Prop :=
  listeners w = [] /\ timers w = [] /\ messageHandler w = None /\ initWait w = None /\
  iframeEl w = None /\ content w = Blank.

(** The render numbered [n] is over and has posted no load. *)
Definition closed_without_load (n : nat) (w : world) : Prop :=
  (n <= renderSeq w)%nat /\
  (forall t, t ∈ tasks w -> t_seq t = n -> t_stage t = Finished) /\
  n ∉ load_frames (trace w).

(** *** The steps of the view, one by one

    What [cleanup] leaves of a view whose listener and timer are the ones
    its fields name, and what [render] then sets up. *)
Definition cleared (w : world) : world :=
  set_content Blank (set_iframeEl None
    (set_initWait None (set_timers [] (set_messageHandler None (set_listeners [] w))))).

Definition started (f : TFile) (page : option (tagged N))
    (highlight : option (tagged jsstring)) (w : world) : world :=
  let seq := S (renderSeq w) in
  set_tasks (tasks w ++ [{| t_seq := seq; t_file := f; t_page := page;
                            t_highlight := highlight; t_stage := AwaitReady;
                            t_buffer := Reading |}])
    (set_timers [seq] (set_initWait (Some seq)
       (set_listeners [seq] (set_messageHandler (Some seq)
          (set_iframeEl (Some seq)
             (set_content (ViewerRoot seq (lit "Loading DjVu" ++ [8230]))
                (cleared (set_renderSeq seq w)))))))).

Definition unwait (w : world) : world := set_initWait None (set_timers [] w).

Definition maybe {A : Type} (f : A -> world -> world) (o : option A) (w : world) : world :=
  match o with
  | Some a => f a w
  | None => w
  end.

Definition hide_menu (w : world) : world :=
  match activeMenu w with
  | Some _ => emit MenuHidden w
  | None => w
  end.

Section Moves.
Context {engine : JsEngine}.

(** Every way in which one turn of the event loop changes a view whose
    fields are [consistent]. *)
Inductive move (w : world) : world -> Prop :=
| mv_same : move w w
| mv_link pp ph :
    move w (maybe set_pendingHighlight ph
              (maybe set_pendingPage pp (set_clicks (S (clicks w)) w)))
| mv_throw e : move w (emit (Uncaught e) (set_clicks (S (clicks w)) w))
| mv_open : move w (set_container_class true w)
| mv_refuse f :
    is_djvu f = false ->
    move w (showError (lit "Not a DjVu file.")
              (set_pendingHighlight None (set_pendingPage None (set_file (Some f) w))))
| mv_render f :
    is_djvu f = true ->
    move w (started f (nullish (pendingPage w)
                         (Tag None <$> getFilePage (path f) (filePages w)))
              (pendingHighlight w)
              (set_pendingHighlight None (set_pendingPage None (set_file (Some f) w))))
| mv_unload : move w (cleared w)
| mv_close : move w (set_container_class false (cleared w))
| mv_ready_wait t :
    find_task (renderSeq w) w = Some t -> initWait w = Some (renderSeq w) ->
    attached (renderSeq w) w = true ->
    t_stage t = AwaitReady -> t_buffer t = Reading ->
    move w (update_task (renderSeq w) (set_stage AwaitBuffer) (unwait w))
| mv_ready_go t buffer :
    find_task (renderSeq w) w = Some t -> initWait w = Some (renderSeq w) ->
    attached (renderSeq w) w = true ->
    t_stage t = AwaitReady -> t_buffer t = ReadOk buffer ->
    move w (update_task (renderSeq w) (set_stage Settling) (unwait w))
| mv_handshake_failed t message :
    find_task (renderSeq w) w = Some t -> initWait w = Some (renderSeq w) ->
    t_stage t = AwaitReady ->
    move w (render_catch (renderSeq w) message (unwait w))
| mv_unwait :
    initWait w = Some (renderSeq w) ->
    (forall t, find_task (renderSeq w) w = Some t -> t_stage t <> AwaitReady) ->
    move w (unwait w)
| mv_menu f frame m :
    file w = Some f -> iframeEl w = Some frame -> attached (renderSeq w) w = true ->
    move w (emit (MenuShown m) (set_activeMenu (Some m) (hide_menu w)))
| mv_uncaught e : move w (emit (Uncaught e) w)
| mv_save t p :
    find_task (renderSeq w) w = Some t -> attached (renderSeq w) w = true ->
    move w (emit (SaveData (<[path (t_file t) := p]> (filePages w)))
              (set_filePages (<[path (t_file t) := p]> (filePages w)) w))
| mv_click m :
    activeMenu w = Some m -> move w (set_activeMenu None (emit MenuHidden w))
| mv_buffer seq t b :
    find_task seq w = Some t -> t_buffer t = Reading -> t_stage t <> AwaitBuffer ->
    move w (update_task seq (set_buffer b) w)
| mv_read seq t buffer :
    find_task seq w = Some t -> t_buffer t = Reading -> t_stage t = AwaitBuffer ->
    seq = renderSeq w ->
    move w (update_task seq (set_stage Settling)
              (update_task seq (set_buffer (ReadOk buffer)) w))
| mv_read_stale seq t buffer :
    find_task seq w = Some t -> t_buffer t = Reading -> t_stage t = AwaitBuffer ->
    seq <> renderSeq w ->
    move w (finish seq (update_task seq (set_buffer (ReadOk buffer)) w))
| mv_read_failed seq t message :
    find_task seq w = Some t -> t_buffer t = Reading -> t_stage t = AwaitBuffer ->
    move w (render_catch seq message (update_task seq (set_buffer (ReadFailed message)) w))
| mv_load seq t buffer :
    find_task seq w = Some t -> t_stage t = Settling -> t_buffer t = ReadOk buffer ->
    attached seq w = true ->
    move w (finish seq
              (set_content (ViewerRoot seq [])
                 (emit (PostLoad {| lm_frame := seq; lm_buffer := buffer;
                                    lm_name := name (t_file t);
                                    lm_page := nullish (pendingPage w) (t_page t);
                                    lm_highlight :=
                                      nullish (nullish (pendingHighlight w) (t_highlight t))
                                        None |})
                    (set_pendingHighlight None (set_pendingPage None w)))))
| mv_settle_stale seq t :
    find_task seq w = Some t -> t_stage t = Settling -> attached seq w = false ->
    move w (finish seq (set_pendingHighlight None (set_pendingPage None w))).

End Moves.

Section Opens.
Context {engine : JsEngine}.

(** An open of [f] that is followed by [events] ends in the error panel
    with [message] and one notice, and the frame of that render gets no
    load, then or later. *)
Definition open_fails (w : world) (f : TFile) (events : list event) (message : jsstring)
    : Prop :=
  let w' := run (LoadFile f :: events) w in
  content w' = ErrorPanel (lit "Failed to open DjVu: " ++ message) /\
  trace w' = trace w ++ [ShowNotice (lit "DjVu reader: " ++ message)] /\
  forall later, S (renderSeq w) ∉ load_frames (trace (run later w')).

End Opens.

(** * Part II. The properties *)

(** ** Built-ins: escapes, UTF-8, base64, decimal numbers *)

Module JSFacts.

(** Case analysis on every comparison in sight, closing what arithmetic closes. *)
Ltac cmp :=
  repeat (match goal with
          | |- context [N.leb ?a ?b] => destruct (N.leb_spec a b)
          | |- context [N.ltb ?a ?b] => destruct (N.ltb_spec a b)
          | |- context [N.eqb ?a ?b] => destruct (N.eqb_spec a b)
          | _ : context [N.leb ?a ?b] |- _ => destruct (N.leb_spec a b)
          | _ : context [N.ltb ?a ?b] |- _ => destruct (N.ltb_spec a b)
          | _ : context [N.eqb ?a ?b] |- _ => destruct (N.eqb_spec a b)
          end; simpl in *; try lia; try congruence).

(** Decide each comparison in the goal from the hypotheses. *)
Ltac eval_cmp :=
  repeat match goal with
         | |- context [N.leb ?a ?b] =>
             first [ replace (N.leb a b) with true by (symmetry; apply N.leb_le; lia)
                   | replace (N.leb a b) with false by (symmetry; apply N.leb_gt; lia) ]
         | |- context [N.ltb ?a ?b] =>
             first [ replace (N.ltb a b) with true by (symmetry; apply N.ltb_lt; lia)
                   | replace (N.ltb a b) with false by (symmetry; apply N.ltb_ge; lia) ]
         | |- context [N.eqb ?a ?b] =>
             first [ replace (N.eqb a b) with true by (symmetry; apply N.eqb_eq; lia)
                   | replace (N.eqb a b) with false by (symmetry; apply N.eqb_neq; lia) ]
         end;
  cbn [andb orb negb].

Ltac unfold_classes :=
  unfold uriUnreserved, escape_kept, is_alnum, is_digit, is_upper, is_lower, is_cont,
    is_high, is_low, is_ascii_ws, mem, between in *; simpl in *.

Lemma hex_value_digit n : n < 16 -> hex_value (hex_digit n) = Some n.
Proof.
  intros Hn. unfold hex_value, hex_digit, is_digit, between.
  cmp; f_equal; lia.
Qed.

Lemma hex_digit_class n :
  n < 16 -> hex_digit n <> 38 /\ hex_digit n <> 117 /\ hex_digit n <> 61 /\ 48 <= hex_digit n <= 70.
Proof. intros Hn. unfold hex_digit. cmp. Qed.

Lemma hex2_percent b :
  b < 256 -> hex2 (hex_digit (b / 16)) (hex_digit (b mod 16)) = Some b.
Proof.
  intros Hb. unfold hex2.
  rewrite !hex_value_digit by lia. simpl. f_equal. lia.
Qed.

Lemma percent_tokens_percent b rest :
  b < 256 -> percent_tokens (percent b ++ rest) = cons (Octet b) <$> percent_tokens rest.
Proof.
  intros Hb. unfold percent. simpl.
  rewrite !hex_value_digit by lia.
  replace (16 * (b / 16) + b mod 16) with b by lia. reflexivity.
Qed.

Lemma unescape_percent b rest :
  b < 256 -> unescape (percent b ++ rest) = b :: unescape rest.
Proof.
  intros Hb. unfold percent.
  destruct (hex_digit_class (b / 16)) as (_ & Hu & _); [lia|].
  cbn [app unescape]. rewrite N.eqb_refl.
  destruct (N.eqb_spec (hex_digit (b / 16)) 117) as [|_]; [congruence|].
  rewrite hex2_percent by lia. reflexivity.
Qed.

Lemma unescape_plain c rest : c <> 37 -> unescape (c :: rest) = c :: unescape rest.
Proof.
  intros Hc. cbn [unescape]. destruct (N.eqb_spec c 37); [congruence|reflexivity].
Qed.

Lemma percent_tokens_plain c rest :
  c <> 37 -> percent_tokens (c :: rest) = cons (Raw c) <$> percent_tokens rest.
Proof.
  intros Hc. cbn [percent_tokens]. destruct (N.eqb_spec c 37); [congruence|reflexivity].
Qed.

(** *** What [encodeURIComponent] writes for one octet, and [escape] *)

Lemma uriUnreserved_ascii c : uriUnreserved c = true -> c < 128 /\ c <> 37 /\ c <> 38 /\ c <> 61.
Proof.
  unfold_classes. cmp.
Qed.

Lemma escape_kept_ascii c : escape_kept c = true -> c < 128 /\ c <> 37.
Proof.
  unfold_classes. cmp.
Qed.

Lemma percent_tokens_enc s :
  Forall (λ b, b < 256) s ->
  percent_tokens (concat (map enc_octet s)) = Some (map enc_token s).
Proof.
  induction 1 as [|b s Hb _ IH]; [reflexivity|].
  cbn [map concat]. unfold enc_octet at 1, enc_token at 1.
  destruct (uriUnreserved b) eqn:Hu.
  - apply uriUnreserved_ascii in Hu as (_ & H37 & _).
    cbn [app]. rewrite percent_tokens_plain, IH by done. reflexivity.
  - rewrite percent_tokens_percent, IH by done. reflexivity.
Qed.

Lemma percent_tokens_escape s :
  Forall (λ b, b < 256) s ->
  percent_tokens (escape s) = Some (map esc_token s).
Proof.
  unfold escape. induction 1 as [|b s Hb _ IH]; [reflexivity|].
  cbn [map concat]. unfold escape_unit at 1, esc_token at 1.
  destruct (escape_kept b) eqn:Hu.
  - apply escape_kept_ascii in Hu as (_ & H37).
    cbn [app]. rewrite percent_tokens_plain, IH by done. reflexivity.
  - destruct (N.ltb_spec b 256); [|lia].
    rewrite percent_tokens_percent, IH by done. reflexivity.
Qed.

Lemma unescape_enc s :
  Forall (λ b, b < 256) s -> unescape (concat (map enc_octet s)) = s.
Proof.
  induction 1 as [|b s Hb _ IH]; [reflexivity|].
  cbn [map concat]. unfold enc_octet at 1.
  destruct (uriUnreserved b) eqn:Hu.
  - apply uriUnreserved_ascii in Hu as (_ & H37 & _).
    cbn [app]. rewrite unescape_plain, IH by done. reflexivity.
  - rewrite unescape_percent, IH by done. reflexivity.
Qed.

(** *** UTF-8 *)

Lemma list_ind_pairs {A : Type} (P : list A -> Prop) :
  P [] ->
  (forall c r, P r -> (forall d r', r = d :: r' -> P r') -> P (c :: r)) ->
  forall s, P s.
Proof.
  intros Hnil Hcons s.
  enough (P s /\ (forall d r', s = d :: r' -> P r')) by tauto.
  induction s as [|c r [IH1 IH2]]; split; try done.
  - by apply Hcons.
  - intros d r' [= -> ->]. exact IH1.
Qed.

Lemma utf8_octets cp :
  cp < 1114112 -> Forall (λ b, b < 256) (utf8 cp).
Proof.
  intros Hcp. unfold utf8. cmp; repeat constructor; lia.
Qed.

Lemma utf8_high cp :
  128 <= cp -> cp < 1114112 -> Forall (λ b, 128 <= b) (utf8 cp).
Proof.
  intros H1 H2. unfold utf8. cmp; repeat constructor; lia.
Qed.

Lemma enc_octet_high b : 128 <= b -> enc_octet b = percent b.
Proof.
  intros Hb. unfold enc_octet.
  destruct (uriUnreserved b) eqn:Hu; [|done].
  apply uriUnreserved_ascii in Hu. lia.
Qed.

Lemma esc_token_high b : 128 <= b -> esc_token b = Octet b.
Proof.
  intros Hb. unfold esc_token.
  destruct (escape_kept b) eqn:Hu; [|done].
  apply escape_kept_ascii in Hu. lia.
Qed.

Lemma enc_octet_utf8 cp :
  uriUnreserved cp = false -> cp < 1114112 ->
  concat (map enc_octet (utf8 cp)) = concat (map percent (utf8 cp)).
Proof.
  intros Hu Hcp. destruct (N.ltb_spec cp 128) as [Hlt|Hge].
  - unfold utf8. destruct (N.ltb_spec cp 128); [|lia].
    cbn [map concat]. unfold enc_octet. by rewrite Hu.
  - f_equal. apply map_ext_Forall.
    eapply Forall_impl; [by apply utf8_high|].
    intros b Hb. by apply enc_octet_high.
Qed.

Lemma well_formed_cons c r :
  well_formed (c :: r) = true ->
  (is_high c = false /\ is_low c = false /\ c < 65536 /\ well_formed r = true) \/
  (is_high c = true /\ exists d r', r = d :: r' /\ is_low d = true /\ well_formed r' = true).
Proof.
  cbn [well_formed]. destruct (is_high c) eqn:Hh.
  - destruct r as [|d r']; [done|]. intros [??]%andb_true_iff. right. eauto 10.
  - intros [[?%negb_true_iff ?%N.ltb_lt]%andb_true_iff ?]%andb_true_iff. left. eauto.
Qed.

Lemma pair_cp_range c d :
  is_high c = true -> is_low d = true -> 65536 <= pair_cp c d < 1114112.
Proof.
  unfold is_high, is_low, between, pair_cp.
  intros [?%N.leb_le ?%N.leb_le]%andb_true_iff [?%N.leb_le ?%N.leb_le]%andb_true_iff. lia.
Qed.

Lemma utf16_pair c d :
  is_high c = true -> is_low d = true -> utf16 (pair_cp c d) = [c; d].
Proof.
  intros Hc Hd. pose proof (pair_cp_range c d Hc Hd) as Hr.
  unfold utf16. destruct (N.ltb_spec (pair_cp c d) 65536); [lia|].
  revert Hc Hd. unfold is_high, is_low, between, pair_cp in *.
  intros [?%N.leb_le ?%N.leb_le]%andb_true_iff [?%N.leb_le ?%N.leb_le]%andb_true_iff.
  f_equal; [|f_equal]; lia.
Qed.

Lemma surrogate_not_unreserved c : is_high c = true -> uriUnreserved c = false.
Proof.
  intros Hc. destruct (uriUnreserved c) eqn:Hu; [|done].
  apply uriUnreserved_ascii in Hu. revert Hc. unfold is_high, between.
  intros [?%N.leb_le ?%N.leb_le]%andb_true_iff. lia.
Qed.

Lemma high_not_low c : is_high c = true -> is_low c = false.
Proof. unfold is_high, is_low, between. cmp. Qed.

(** [encodeURIComponent] writes the UTF-8 octets of a well-formed string,
    one by one. *)
Lemma encodeURIComponent_utf8 s :
  well_formed s = true ->
  encodeURIComponent s = Some (concat (map enc_octet (utf8_string s))).
Proof.
  induction s as [|c r IH1 IH2] using list_ind_pairs; [done|].
  intros [(Hh & Hl & Hc & Hr)|(Hh & d & r' & -> & Hd & Hr)]%well_formed_cons.
  - cbn [encodeURIComponent utf8_string]. rewrite Hh, Hl, (IH1 Hr).
    rewrite map_app, concat_app.
    destruct (uriUnreserved c) eqn:Hu.
    + pose proof (uriUnreserved_ascii c Hu) as (? & _).
      unfold utf8. destruct (N.ltb_spec c 128); [|lia].
      cbn [map concat app]. unfold enc_octet. by rewrite Hu.
    + rewrite enc_octet_utf8 by (done || lia). done.
  - pose proof (pair_cp_range c d Hh Hd) as Hrange.
    cbn [encodeURIComponent utf8_string].
    rewrite Hh, Hd, (surrogate_not_unreserved c Hh), (high_not_low c Hh), (IH2 d r' eq_refl Hr).
    rewrite map_app, concat_app.
    assert (Hu : uriUnreserved (pair_cp c d) = false).
    { destruct (uriUnreserved (pair_cp c d)) eqn:Hu; [|done].
      apply uriUnreserved_ascii in Hu. lia. }
    rewrite enc_octet_utf8 by (done || lia). done.
Qed.

Lemma utf8_string_octets s :
  well_formed s = true -> Forall (λ b, b < 256) (utf8_string s).
Proof.
  induction s as [|c r IH1 IH2] using list_ind_pairs; [constructor|].
  intros [(Hh & Hl & Hc & Hr)|(Hh & d & r' & -> & Hd & Hr)]%well_formed_cons.
  - cbn [utf8_string]. rewrite Hh. apply Forall_app. split; [apply utf8_octets; lia|auto].
  - cbn [utf8_string]. rewrite Hh. apply Forall_app.
    pose proof (pair_cp_range c d Hh Hd).
    split; [apply utf8_octets; lia|eauto].
Qed.

(** Reading the octets of one code point back. *)
Lemma utf8_tokens_code_point cp ts :
  cp < 1114112 -> between 55296 57343 cp = false ->
  utf8_tokens (map esc_token (utf8 cp) ++ ts) = app (utf16 cp) <$> utf8_tokens ts.
Proof.
  intros Hcp Hs.
  assert (cp < 55296 \/ 57343 < cp) as Hsur.
  { revert Hs. unfold between. cmp. }
  clear Hs.
  destruct (N.ltb_spec cp 128) as [H1|H1].
  { unfold utf8, utf16. eval_cmp.
    cbn [map app]. unfold esc_token. destruct (escape_kept cp); cbn [utf8_tokens].
    - done.
    - by eval_cmp. }
  assert (Hmap : map esc_token (utf8 cp) = map Octet (utf8 cp)).
  { apply map_ext_Forall. eapply Forall_impl; [by apply utf8_high|].
    intros b Hb. by apply esc_token_high. }
  rewrite Hmap. unfold utf8.
  destruct (N.ltb_spec cp 2048); [|destruct (N.ltb_spec cp 65536)]; eval_cmp.
  - assert ((192 + cp / 64 - 192) * 64 + (128 + cp mod 64 - 128) = cp) as E by lia.
    cbn [map app utf8_tokens]. cbv zeta. rewrite E. clear E Hmap.
    assert (cp / 64 < 32 /\ cp mod 64 < 64) as B by lia. revert B.
    generalize (cp / 64) (cp mod 64). intros q0 q1 B.
    cbv [between is_cont utf16]. by eval_cmp.
  - assert ((224 + cp / 4096 - 224) * 4096 + (128 + (cp / 64) mod 64 - 128) * 64
            + (128 + cp mod 64 - 128) = cp) as E by lia.
    cbn [map app utf8_tokens]. cbv zeta. rewrite E. clear E Hmap.
    assert (cp / 4096 < 16 /\ (cp / 64) mod 64 < 64 /\ cp mod 64 < 64) as B by lia. revert B.
    generalize (cp / 4096) ((cp / 64) mod 64) (cp mod 64). intros q0 q1 q2 B.
    cbv [between is_cont utf16]. by destruct Hsur; eval_cmp.
  - assert ((240 + cp / 262144 - 240) * 262144 + (128 + (cp / 4096) mod 64 - 128) * 4096
            + (128 + (cp / 64) mod 64 - 128) * 64 + (128 + cp mod 64 - 128) = cp) as E by lia.
    cbn [map app utf8_tokens]. cbv zeta. rewrite E. clear E Hmap.
    assert (cp / 262144 < 8 /\ (cp / 4096) mod 64 < 64 /\ (cp / 64) mod 64 < 64
            /\ cp mod 64 < 64) as B by lia. revert B.
    generalize (cp / 262144) ((cp / 4096) mod 64) ((cp / 64) mod 64) (cp mod 64).
    intros q0 q1 q2 q3 B.
    cbv [between is_cont]. by eval_cmp.
Qed.

Lemma utf8_tokens_string s :
  well_formed s = true -> utf8_tokens (map esc_token (utf8_string s)) = Some s.
Proof.
  induction s as [|c r IH1 IH2] using list_ind_pairs; [done|].
  intros [(Hh & Hl & Hc & Hr)|(Hh & d & r' & -> & Hd & Hr)]%well_formed_cons.
  - cbn [utf8_string]. rewrite Hh, map_app, utf8_tokens_code_point, (IH1 Hr); [|lia|].
    + unfold utf16. by destruct (N.ltb_spec c 65536); [|lia].
    + revert Hh Hl. unfold is_high, is_low, between. cmp.
  - pose proof (pair_cp_range c d Hh Hd) as Hrange.
    cbn [utf8_string]. rewrite Hh, map_app, utf8_tokens_code_point, (IH2 d r' eq_refl Hr); [|lia|].
    + by rewrite utf16_pair.
    + unfold between. cmp.
Qed.

(** Text escaped by [escape] after its UTF-8 octets were taken comes back
    through [decodeURIComponent]. *)
Lemma decodeURIComponent_escape_utf8 s :
  well_formed s = true -> decodeURIComponent (escape (utf8_string s)) = Some s.
Proof.
  intros Hs. unfold decodeURIComponent.
  rewrite percent_tokens_escape by by apply utf8_string_octets.
  cbn. by apply utf8_tokens_string.
Qed.

End JSFacts.

Module B64Facts.
Import JSFacts.

Lemma list_ind_triples {A : Type} (P : list A -> Prop) :
  P [] -> (forall a, P [a]) -> (forall a b, P [a; b]) ->
  (forall a b c r, P r -> P (a :: b :: c :: r)) ->
  forall s, P s.
Proof.
  intros H0 H1 H2 H3 s.
  enough (P s /\ (forall a, P (a :: s)) /\ (forall a b, P (a :: b :: s))) by tauto.
  induction s as [|c r (IH0 & IH1 & IH2)]; [by auto|].
  split; [apply IH1|]. split; [intros a; apply IH2|]. intros a b. by apply H3.
Qed.

Lemma b64_encode_split bs :
  b64_encode bs = map b64_char (b64_sextets bs) ++ b64_pad bs.
Proof.
  induction bs as [|a|a b|a b c r IH] using list_ind_triples; try done.
  cbn [b64_encode b64_sextets b64_pad]. rewrite IH, map_app. done.
Qed.

Lemma b64_pad_cases bs : b64_pad bs = [] \/ b64_pad bs = [61] \/ b64_pad bs = [61; 61].
Proof.
  induction bs as [|a|a b|a b c r IH] using list_ind_triples; cbn [b64_pad]; auto.
Qed.

Lemma b64_sextets_lt bs :
  Forall (λ b, b < 256) bs -> Forall (λ v, v < 64) (b64_sextets bs).
Proof.
  induction bs as [|a|a b|a b c r IH] using list_ind_triples; intros Hbs; cbn [b64_sextets].
  - constructor.
  - inversion_clear Hbs. repeat constructor; lia.
  - inversion_clear Hbs as [|?? ? Hb]. inversion_clear Hb. repeat constructor; lia.
  - inversion_clear Hbs as [|?? ? Hb]. inversion_clear Hb as [|?? ? Hc]. inversion_clear Hc.
    repeat constructor; try lia. by apply IH.
Qed.

Lemma b64_value_char v : v < 64 -> b64_value (b64_char v) = Some v.
Proof.
  intros Hv. unfold b64_value, b64_char, is_upper, is_lower, is_digit, between.
  cmp; f_equal; lia.
Qed.

Lemma b64_char_class v :
  v < 64 -> b64_char v <> 61 /\ is_ascii_ws (b64_char v) = false /\ b64_char v < 128.
Proof.
  intros Hv. unfold b64_char, is_ascii_ws. cmp.
Qed.

Lemma mapM_b64_value vs :
  Forall (λ v, v < 64) vs -> mapM b64_value (map b64_char vs) = Some vs.
Proof.
  induction 1 as [|v vs Hv _ IH]; [done|].
  cbn [map mapM]. rewrite b64_value_char, IH by done. done.
Qed.

Lemma b64_decode_sextets bs :
  Forall (λ b, b < 256) bs -> b64_decode (b64_sextets bs) = bs.
Proof.
  induction bs as [|a|a b|a b c r IH] using list_ind_triples; intros Hbs.
  - done.
  - inversion_clear Hbs. cbn. f_equal. lia.
  - inversion_clear Hbs as [|?? ? Hb]. inversion_clear Hb. cbn.
    f_equal; [|f_equal]; lia.
  - inversion_clear Hbs as [|?? ? Hb]. inversion_clear Hb as [|?? ? Hc]. inversion_clear Hc.
    cbn [b64_sextets app b64_decode]. rewrite IH by done.
    f_equal; [|f_equal; [|f_equal]]; lia.
Qed.

Lemma b64_lengths bs :
  exists k : nat,
    length (b64_encode bs) = (4 * k)%nat /\
    (length (b64_sextets bs) = (4 * k)%nat \/
     (length (b64_sextets bs) + 2 = 4 * k)%nat \/ (length (b64_sextets bs) + 1 = 4 * k)%nat).
Proof.
  induction bs as [|a|a b|a b c r IH] using list_ind_triples.
  - exists 0%nat. cbn. lia.
  - exists 1%nat. cbn. lia.
  - exists 1%nat. cbn. lia.
  - destruct IH as (k & H1 & H2). exists (S k).
    cbn [b64_encode b64_sextets]. rewrite !length_app. cbn [length]. lia.
Qed.

Lemma filter_all {A : Type} (P : A -> Prop) `{!forall x, Decision (P x)} (l : list A) :
  Forall P l -> filter P l = l.
Proof.
  induction 1 as [|x l Hx _ IH]; [done|].
  by rewrite filter_cons_True, IH.
Qed.

Lemma filter_ws_b64 bs :
  Forall (λ b, b < 256) bs ->
  filter (λ c, is_ascii_ws c = false) (b64_encode bs) = b64_encode bs.
Proof.
  intros Hbs. apply filter_all, Forall_forall. intros c.
  rewrite b64_encode_split, elem_of_app, list_elem_of_fmap.
  intros [(v & -> & Hv)|Hpad].
  - eapply Forall_forall in Hv; [|by apply b64_sextets_lt]. by apply b64_char_class.
  - destruct (b64_pad_cases bs) as [E|[E|E]]; rewrite E in Hpad;
      repeat (apply elem_of_cons in Hpad as [->|Hpad]; [done|]); by apply elem_of_nil in Hpad.
Qed.

Lemma strip_padding_b64 bs :
  Forall (λ b, b < 256) bs ->
  strip_padding (b64_encode bs) = map b64_char (b64_sextets bs).
Proof.
  intros Hbs. unfold strip_padding.
  destruct (b64_lengths bs) as (k & Hlen & _). rewrite Hlen.
  replace (N.of_nat (4 * k) mod 4) with 0 by lia. cbn [N.eqb].
  rewrite b64_encode_split.
  assert (Hx : Forall (λ c, c <> 61) (rev (map b64_char (b64_sextets bs)))).
  { apply Forall_rev, Forall_fmap. eapply Forall_impl; [by apply b64_sextets_lt|].
    intros v Hv. by apply b64_char_class. }
  remember (rev (map b64_char (b64_sextets bs))) as rx eqn:Hrx.
  assert (Hback : rev rx = map b64_char (b64_sextets bs)) by by rewrite Hrx, rev_involutive.
  rewrite rev_app_distr, <- Hrx.
  destruct (b64_pad_cases bs) as [E|[E|E]]; rewrite E; cbn [rev app N.eqb Pos.eqb].
  - rewrite app_nil_r. destruct rx as [|y ys]; [done|].
    apply Forall_cons in Hx as [Hy _]. by destruct (N.eqb_spec y 61).
  - destruct rx as [|y ys]; [done|].
    apply Forall_cons in Hx as [Hy _]. by destruct (N.eqb_spec y 61).
  - done.
Qed.

Lemma btoa_octets bs : Forall (λ b, b < 256) bs -> btoa bs = Some (b64_encode bs).
Proof.
  intros Hbs. unfold btoa.
  replace (forallb (λ c, c <? 256) bs) with true; [done|].
  symmetry. induction Hbs as [|b bs Hb _ IH]; [done|].
  cbn [forallb]. rewrite IH. by destruct (N.ltb_spec b 256); [|lia].
Qed.

(** [atob] undoes [btoa] on every string of octets. *)
Lemma atob_btoa bs :
  Forall (λ b, b < 256) bs -> btoa bs ≫= atob = Some bs.
Proof.
  intros Hbs. rewrite btoa_octets by done. cbn.
  unfold atob. rewrite filter_ws_b64, strip_padding_b64 by done.
  rewrite length_map.
  destruct (b64_lengths bs) as (k & _ & Hlen).
  replace (N.of_nat (length (b64_sextets bs)) mod 4 =? 1) with false
    by (symmetry; apply N.eqb_neq; lia).
  rewrite mapM_b64_value by by apply b64_sextets_lt.
  cbn. by rewrite b64_decode_sextets.
Qed.

Lemma b64_encode_ascii bs :
  Forall (λ b, b < 256) bs -> Forall (λ c, c < 128) (b64_encode bs).
Proof.
  intros Hbs. rewrite b64_encode_split. apply Forall_app. split.
  - apply Forall_fmap. eapply Forall_impl; [by apply b64_sextets_lt|].
    intros v Hv. by apply b64_char_class.
  - destruct (b64_pad_cases bs) as [E|[E|E]]; rewrite E; repeat constructor; lia.
Qed.

Lemma b64_encode_nil bs : b64_encode bs = [] -> bs = [].
Proof. by destruct bs as [|a [|b [|c r]]]. Qed.

End B64Facts.

Module TextFacts.
Import JSFacts B64Facts.

(** *** ASCII text through [encodeURIComponent] and back *)

Lemma is_ascii_Forall s : is_ascii s = true <-> Forall (λ c, c < 128) s.
Proof.
  unfold is_ascii. induction s as [|c s IH]; cbn [forallb].
  - split; [constructor|done].
  - rewrite andb_true_iff, Forall_cons, IH, N.ltb_lt. done.
Qed.

Lemma ascii_well_formed s :
  Forall (λ c, c < 128) s -> well_formed s = true /\ utf8_string s = s.
Proof.
  induction 1 as [|c s Hc _ [IH1 IH2]]; [done|].
  cbn [well_formed utf8_string]. unfold is_high, is_low, between, utf8.
  eval_cmp. rewrite IH1, IH2. done.
Qed.

Lemma encodeURIComponent_ascii s :
  Forall (λ c, c < 128) s -> encodeURIComponent s = Some (concat (map enc_octet s)).
Proof.
  intros Hs. destruct (ascii_well_formed s Hs) as [Hwf Hu].
  by rewrite encodeURIComponent_utf8, Hu.
Qed.

Lemma utf8_tokens_enc_ascii s :
  Forall (λ c, c < 128) s -> utf8_tokens (map enc_token s) = Some s.
Proof.
  induction 1 as [|c s Hc _ IH]; [done|].
  cbn [map]. unfold enc_token at 1.
  destruct (uriUnreserved c); cbn [utf8_tokens]; eval_cmp; by rewrite IH.
Qed.

Lemma decodeURIComponent_enc_ascii s :
  Forall (λ c, c < 128) s -> decodeURIComponent (concat (map enc_octet s)) = Some s.
Proof.
  intros Hs. unfold decodeURIComponent.
  rewrite percent_tokens_enc by (eapply Forall_impl; [done|]; cbn; lia).
  cbn. by apply utf8_tokens_enc_ascii.
Qed.

(** What an encoded token is made of: no [&], no [=], and nothing when
    and only when the text was empty. *)
Lemma enc_octet_chars b :
  b < 256 -> enc_octet b <> [] /\ Forall (λ c, c <> 38 /\ c <> 61) (enc_octet b).
Proof.
  intros Hb. unfold enc_octet. destruct (uriUnreserved b) eqn:Hu.
  - apply uriUnreserved_ascii in Hu. split; [done|]. repeat constructor; lia.
  - unfold percent.
    destruct (hex_digit_class (b / 16)) as (? & ? & ? & ?); [lia|].
    destruct (hex_digit_class (b mod 16)) as (? & ? & ? & ?); [lia|].
    split; [done|]. repeat constructor; lia.
Qed.

Lemma enc_chars s :
  Forall (λ b, b < 256) s ->
  Forall (λ c, c <> 38 /\ c <> 61) (concat (map enc_octet s)).
Proof.
  induction 1 as [|b s Hb _ IH]; [constructor|].
  cbn [map concat]. apply Forall_app. split; [by apply enc_octet_chars|done].
Qed.

Lemma enc_nonempty s :
  Forall (λ b, b < 256) s -> s <> [] -> concat (map enc_octet s) <> [].
Proof.
  intros Hs Hne. destruct Hs as [|b s Hb _]; [done|].
  cbn [map concat]. destruct (enc_octet_chars b Hb) as [Hx _].
  by destruct (enc_octet b).
Qed.

Lemma utf8_string_nonempty s : s <> [] -> utf8_string s <> [].
Proof.
  destruct s as [|c r]; [done|]. intros _. cbn [utf8_string].
  assert (forall cp, utf8 cp <> []) as Hne by (intros cp; unfold utf8; cmp).
  destruct (is_high c); [destruct r|]; try apply Hne.
  - intros [? _]%app_eq_nil. by eapply Hne.
  - intros [? _]%app_eq_nil. by eapply Hne.
Qed.

(** *** Decimal numbers *)

Lemma digits_spec fuel n acc :
  n < 2 ^ (N.of_nat fuel + 1) ->
  exists ds, digits fuel n acc = ds ++ acc /\ ds <> [] /\
             Forall (λ c, is_digit c = true) ds /\
             forall a, fold_left (λ acc c, 10 * acc + (c - 48)) ds a = a * 10 ^ N.of_nat (length ds) + n.
Proof.
  revert n acc. induction fuel as [|fuel IH]; intros n acc Hn.
  - exists [48 + n mod 10]. cbn [digits]. change (2 ^ (N.of_nat 0 + 1)) with 2 in Hn.
    split; [done|]. split; [done|]. split.
    + repeat constructor. unfold is_digit, between. eval_cmp. done.
    + intros a. cbn. lia.
  - cbn [digits]. destruct (N.eqb_spec (n / 10) 0) as [Hz|Hz].
    + exists [48 + n mod 10]. split; [done|]. split; [done|]. split.
      * repeat constructor. unfold is_digit, between. eval_cmp. done.
      * intros a. cbn. lia.
    + destruct (IH (n / 10) ((48 + n mod 10) :: acc)) as (ds & E & Hne & Hd & Hv).
      { replace (N.of_nat (S fuel) + 1) with (N.succ (N.of_nat fuel + 1)) in Hn by lia.
        rewrite N.pow_succ_r' in Hn. lia. }
      exists (ds ++ [48 + n mod 10]). rewrite E, <- app_assoc. split; [done|].
      split; [by destruct ds|]. split.
      * apply Forall_app. split; [done|].
        repeat constructor. unfold is_digit, between. eval_cmp. done.
      * intros a. rewrite fold_left_app, Hv, length_app. cbn [fold_left length].
        replace (N.of_nat (length ds + 1)) with (N.succ (N.of_nat (length ds))) by lia.
        rewrite N.pow_succ_r'. lia.
Qed.

Lemma toString_spec n :
  toString n <> [] /\ Forall (λ c, is_digit c = true) (toString n) /\ parseInt (toString n) = n.
Proof.
  unfold toString, parseInt.
  destruct (digits_spec (N.to_nat (N.log2 n)) n []) as (ds & E & Hne & Hd & Hv).
  { rewrite N2Nat.id.
    destruct (N.eq_dec n 0) as [->|Hn]; [done|].
    replace (N.log2 n + 1) with (N.succ (N.log2 n)) by lia.
    apply N.log2_spec. lia. }
  rewrite E, app_nil_r. split; [done|]. split; [done|]. rewrite Hv. lia.
Qed.

End TextFacts.

Module RegexFacts.

Lemma starts_with_app p r : starts_with p (p ++ r) = true.
Proof. induction p as [|a p IH]; [done|]. cbn. by rewrite N.eqb_refl. Qed.

Lemma starts_with_inv p s : starts_with p s = true -> s = p ++ drop (length p) s.
Proof.
  revert s. induction p as [|a p IH]; intros [|b s]; cbn; try done.
  intros [->%N.eqb_eq Hp]%andb_true_iff. f_equal. by apply IH.
Qed.

Lemma strip_prefix_app p r : strip_prefix p (p ++ r) = Some r.
Proof. unfold strip_prefix. by rewrite starts_with_app, drop_app_length. Qed.

Lemma strip_prefix_Some p s r : strip_prefix p s = Some r -> s = p ++ r.
Proof.
  unfold strip_prefix. destruct (starts_with p s) eqn:Hp; [|done].
  intros [= <-]. by apply starts_with_inv.
Qed.

Lemma starts_with_lookup p s j x :
  starts_with p s = true -> p !! j = Some x -> s !! j = Some x.
Proof.
  intros Hp%starts_with_inv Hj. rewrite Hp. by apply lookup_app_l_Some.
Qed.

Lemma take_while_app cls ds rest :
  Forall (λ c, cls c = true) ds -> take_while cls (ds ++ rest) = ds ++ take_while cls rest.
Proof.
  induction 1 as [|c ds Hc _ IH]; [done|]. cbn. by rewrite Hc, IH.
Qed.

Lemma take_while_all cls ds : Forall (λ c, cls c = true) ds -> take_while cls ds = ds.
Proof.
  intros Hds. rewrite <- (app_nil_r ds) at 1. rewrite take_while_app by done.
  cbn. by rewrite app_nil_r.
Qed.

Lemma take_while_elem cls s c : c ∈ take_while cls s -> c ∈ s.
Proof.
  induction s as [|d s IH]; [done|]. cbn. destruct (cls d); [|by intros ?%elem_of_nil].
  intros [->|?]%elem_of_cons; [left|right; auto].
Qed.

Lemma match_key_run_unfold key cls s :
  match_key_run key cls s =
  match match_here key cls s with
  | Some run => Some run
  | None => match s with
            | [] => None
            | _ :: r => match_key_run key cls r
            end
  end.
Proof. by destruct s. Qed.

(** The run right after the key, when it ends the string or is stopped by
    a character outside the class. *)
Lemma match_here_run key cls run rest :
  run <> [] -> Forall (λ c, cls c = true) run ->
  take_while cls rest = [] ->
  match_here key cls (key ++ run ++ rest) = Some run.
Proof.
  intros Hne Hrun Hrest. unfold match_here.
  rewrite strip_prefix_app, take_while_app, Hrest, app_nil_r by done.
  by destruct run.
Qed.

Lemma match_key_run_here key cls run rest :
  run <> [] -> Forall (λ c, cls c = true) run ->
  take_while cls rest = [] ->
  match_key_run key cls (key ++ run ++ rest) = Some run.
Proof.
  intros. by rewrite match_key_run_unfold, match_here_run.
Qed.

(** No match can begin in a prefix that, together with the first [j]
    characters after it, lacks the [j]-th character of the key. *)
Lemma match_key_run_skip key cls j x pre s :
  key !! j = Some x -> x ∉ pre ++ take j s ->
  match_key_run key cls (pre ++ s) = match_key_run key cls s.
Proof.
  intros Hj. induction pre as [|c pre IH]; [done|]. intros Hx.
  rewrite match_key_run_unfold.
  assert (match_here key cls ((c :: pre) ++ s) = None) as ->.
  { unfold match_here, strip_prefix.
    destruct (starts_with key ((c :: pre) ++ s)) eqn:Hp; [|done].
    exfalso. apply Hx. pose proof (starts_with_lookup _ _ _ _ Hp Hj) as Hl.
    apply lookup_app_Some in Hl as [Hl|[Hlen Hl]].
    - apply elem_of_app. left. by eapply list_elem_of_lookup_2.
    - apply elem_of_app. right.
      apply (list_elem_of_lookup_2 _ (j - length (c :: pre))%nat).
      rewrite lookup_take_lt; [done|]. cbn [length] in *. lia. }
  cbn [app]. apply IH. intros Hin. apply Hx.
  rewrite <- app_comm_cons. by right.
Qed.

Lemma match_key_run_absent key cls x s :
  x ∈ key -> x ∉ s -> match_key_run key cls s = None.
Proof.
  intros [j Hj]%list_elem_of_lookup_1 Hx.
  rewrite <- (app_nil_r s), (match_key_run_skip key cls j x s []); [|done|].
  - rewrite match_key_run_unfold. unfold match_here, strip_prefix.
    destruct key; [done|]. done.
  - by rewrite take_nil, app_nil_r.
Qed.

(** A pair appended after [&] is only looked at when the text before it
    has no match. *)
Lemma take_while_amp cls s x :
  cls 38 = false -> take_while cls (s ++ 38 :: x) = take_while cls s.
Proof.
  intros Hc. induction s as [|c s IH]; cbn; [by rewrite Hc|].
  by rewrite IH.
Qed.

Lemma starts_with_amp key s x :
  38 ∉ key -> starts_with key (s ++ 38 :: x) = starts_with key s.
Proof.
  revert s. induction key as [|k key IH]; intros s Hk; [done|].
  apply not_elem_of_cons in Hk as [Hk1 Hk2].
  destruct s as [|c s]; cbn.
  - by destruct (N.eqb_spec k 38).
  - by rewrite IH.
Qed.

Lemma match_here_amp key cls s x :
  38 ∉ key -> cls 38 = false ->
  match_here key cls (s ++ 38 :: x) = match_here key cls s.
Proof.
  intros Hk Hc. unfold match_here, strip_prefix.
  rewrite starts_with_amp by done.
  destruct (starts_with key s) eqn:Hp; [|done].
  apply starts_with_inv in Hp.
  rewrite Hp at 1. rewrite <- app_assoc, drop_app_length.
  by rewrite take_while_amp.
Qed.

Lemma match_key_run_amp key cls s x :
  key <> [] -> 38 ∉ key -> cls 38 = false ->
  match_key_run key cls (s ++ 38 :: x) =
  match match_key_run key cls s with
  | Some run => Some run
  | None => match_key_run key cls x
  end.
Proof.
  intros Hne Hk Hc. induction s as [|c s IH].
  - cbn [app]. rewrite (match_key_run_unfold _ _ (38 :: x)), (match_key_run_unfold _ _ []).
    unfold match_here, strip_prefix. destruct key as [|k key]; [done|].
    apply not_elem_of_cons in Hk as [Hk _]. cbn [starts_with].
    by destruct (N.eqb_spec k 38).
  - rewrite (match_key_run_unfold _ _ ((c :: s) ++ _)), (match_key_run_unfold _ _ (c :: s)).
    rewrite match_here_amp by done.
    destruct (match_here key cls (c :: s)); [done|]. cbn [app]. apply IH.
Qed.

Lemma match_key_run_elem key cls s run c :
  match_key_run key cls s = Some run -> c ∈ run -> c ∈ s.
Proof.
  induction s as [|d s IH]; rewrite match_key_run_unfold.
  - unfold match_here. destruct (strip_prefix key []) as [rest|] eqn:Hp; [|done].
    apply strip_prefix_Some in Hp. symmetry in Hp. apply app_eq_nil in Hp as [_ ->]. done.
  - destruct (match_here key cls (d :: s)) as [run'|] eqn:Hh.
    + intros [= ->] Hc. unfold match_here in Hh.
      destruct (strip_prefix key (d :: s)) as [rest|] eqn:Hp; [|done].
      apply strip_prefix_Some in Hp. rewrite Hp. apply elem_of_app. right.
      apply (take_while_elem cls). by destruct (take_while cls rest); simplify_eq.
    + intros Hr Hc. right. by apply IH.
Qed.

Lemma match_key_run_nonempty key cls s : match_key_run key cls s <> Some [].
Proof.
  induction s as [|d s IH]; rewrite match_key_run_unfold; unfold match_here.
  - destruct (strip_prefix key []) as [rest|]; [|done]. by destruct (take_while cls rest).
  - destruct (strip_prefix key (d :: s)) as [rest|]; [|done].
    by destruct (take_while cls rest).
Qed.

(** No match at all is the same as: at no index does the key stand
    followed by a character of the class. *)
Lemma match_key_run_None key cls s :
  match_key_run key cls s = None <->
  forall i c, starts_with (key ++ [c]) (drop i s) = true -> cls c = false.
Proof.
  assert (Hhere : forall t, match_here key cls t = None <->
            forall c, starts_with (key ++ [c]) t = true -> cls c = false).
  { intros t. unfold match_here, strip_prefix. split.
    - intros Hn c Hp. apply starts_with_inv in Hp. rewrite <- app_assoc in Hp.
      rewrite Hp, starts_with_app, drop_app_length in Hn. cbn in Hn.
      by destruct (cls c).
    - intros Hall. destruct (starts_with key t) eqn:Hp; [|done].
      apply starts_with_inv in Hp. destruct (drop (length key) t) as [|c r]; [done|].
      cbn. destruct (cls c) eqn:Hc; [|done].
      rewrite (Hall c) in Hc; [done|]. rewrite Hp.
      change (c :: r) with ([c] ++ r). rewrite app_assoc. apply starts_with_app. }
  induction s as [|d s IH]; rewrite match_key_run_unfold.
  - destruct (match_here key cls []) eqn:Hh.
    + split; [done|]. intros Hall.
      assert (match_here key cls [] = None); [|congruence].
      apply Hhere. intros c. apply (Hall 0%nat).
    + split; [|done]. intros _ i c. rewrite drop_nil. by apply Hhere.
  - destruct (match_here key cls (d :: s)) eqn:Hh.
    + split; [done|]. intros Hall.
      assert (match_here key cls (d :: s) = None); [|congruence].
      apply Hhere. intros c. apply (Hall 0%nat).
    + rewrite IH. split.
      * intros Hall [|i] c; [by apply Hhere|]. apply (Hall i).
      * intros Hall i c. apply (Hall (S i)).
Qed.

End RegexFacts.

(** ** The locator codec *)

Module Codec.
Import JSFacts B64Facts TextFacts RegexFacts.

(** The token of a well-formed text: its UTF-8 octets in base64, with
    [+], [/] and [=] percent-escaped. *)
Lemma encode_quote_utf8 text :
  well_formed text = true ->
  encode_quote text = Ok (concat (map enc_octet (b64_encode (utf8_string text)))).
Proof.
  intros Hwf. unfold encode_quote.
  pose proof (utf8_string_octets text Hwf) as Hoct.
  rewrite encodeURIComponent_utf8, unescape_enc, btoa_octets by done.
  by rewrite encodeURIComponent_ascii by by apply b64_encode_ascii.
Qed.

Lemma decode_quote_b64 text :
  well_formed text = true ->
  decode_quote (b64_encode (utf8_string text)) = Some text.
Proof.
  intros Hwf. unfold decode_quote.
  pose proof (utf8_string_octets text Hwf) as Hoct.
  pose proof (atob_btoa _ Hoct) as Hab. rewrite btoa_octets in Hab by done.
  cbn in Hab. rewrite Hab. cbn. by apply decodeURIComponent_escape_utf8.
Qed.

Lemma decode_unfold s : decode s = locate (subpath_page s) (subpath_q s).
Proof.
  unfold decode, locate, setEphemeralState.
  change (default [] (Some s)) with s. cbv zeta.
  destruct (subpath_q s) as [t|];
    [destruct (decodeURIComponent t) as [h|]; [destruct (decode_quote h)|]|];
    by destruct (subpath_page s).
Qed.

Lemma not_amp_Forall t :
  Forall (λ c, c <> 38 /\ c <> 61) t -> Forall (λ c, not_amp c = true) t.
Proof.
  intros Ht. eapply Forall_impl; [exact Ht|].
  intros c [Hc _]. unfold not_amp. by destruct (N.eqb_spec c 38).
Qed.

Lemma digit_not_q ds : Forall (λ c, is_digit c = true) ds -> (113 ∉ ds) /\ (61 ∉ ds).
Proof.
  intros Hds. split; intros Hin; eapply Forall_forall in Hin; try exact Hds; done.
Qed.

(** The two matches on a fragment in the order the builder writes it,
    whatever stands before [page=] as long as it has no [p] and no [q]. *)
Lemma subpath_page_fragment pre ds rest :
  112 ∉ pre -> ds <> [] -> Forall (λ c, is_digit c = true) ds ->
  take_while is_digit rest = [] ->
  subpath_page (pre ++ lit "page=" ++ ds ++ rest) = Some (parseInt ds).
Proof.
  intros Hpre Hne Hds Hrest. unfold subpath_page.
  rewrite (match_key_run_skip _ _ 0%nat 112); [|done|by rewrite take_0, app_nil_r].
  by rewrite match_key_run_here.
Qed.

Lemma subpath_q_fragment pre ds t rest :
  113 ∉ pre -> Forall (λ c, is_digit c = true) ds ->
  t <> [] -> Forall (λ c, c <> 38 /\ c <> 61) t ->
  take_while not_amp rest = [] ->
  subpath_q (pre ++ lit "page=" ++ ds ++ lit "&q=" ++ t ++ rest) = Some t.
Proof.
  intros Hpre Hds Hne Ht Hrest. unfold subpath_q.
  replace (pre ++ lit "page=" ++ ds ++ lit "&q=" ++ t ++ rest)
    with ((pre ++ lit "page=" ++ ds ++ [38]) ++ lit "q=" ++ t ++ rest)
    by (rewrite <- !app_assoc; done).
  rewrite (match_key_run_skip _ _ 0%nat 113); [|done|].
  - rewrite match_key_run_here; [done..|by apply not_amp_Forall|done].
  - rewrite take_0, app_nil_r, !not_elem_of_app. split; [done|].
    destruct (digit_not_q ds Hds). split; [|split; [done|]].
    + change (lit "page=") with [112; 97; 103; 101; 61].
      repeat (apply not_elem_of_cons; split; [done|]). apply not_elem_of_nil.
    + by apply not_elem_of_cons; split; [|apply not_elem_of_nil].
Qed.

Lemma setEphemeralState_both s p t h q w :
  subpath_page s = Some p -> subpath_q s = Some t ->
  decodeURIComponent t = Some h -> decode_quote h = Some q ->
  exists w', setEphemeralState (Some s) w = Ok w' /\
             value <$> pendingPage w' = Some p /\ value <$> pendingHighlight w' = Some q.
Proof.
  intros Hp Ht Hh Hq. unfold setEphemeralState.
  change (default [] (Some s)) with s. cbv zeta. rewrite Hp, Ht, Hh, Hq.
  eexists. split; [done|]. done.
Qed.




(** *** Fragments that are not what the builder writes *)

Lemma decodeURIComponent_plain s : 37 ∉ s -> decodeURIComponent s = Some s.
Proof.
  intros Hs. unfold decodeURIComponent.
  assert (percent_tokens s = Some (map Raw s)) as ->.
  { induction s as [|c s IH]; [done|].
    apply not_elem_of_cons in Hs as [Hc Hs].
    rewrite percent_tokens_plain, IH by done. done. }
  cbn. clear Hs. induction s as [|c s IH]; [done|]. cbn. by rewrite IH.
Qed.

Lemma subpath_page_only ds :
  ds <> [] -> Forall (λ c, is_digit c = true) ds ->
  subpath_page (lit "page=" ++ ds) = Some (parseInt ds) /\
  subpath_q (lit "page=" ++ ds) = None.
Proof.
  intros Hne Hds. split.
  - pose proof (subpath_page_fragment [] ds [] (not_elem_of_nil _) Hne Hds eq_refl) as H.
    by rewrite app_nil_r in H.
  - unfold subpath_q. apply (match_key_run_absent _ _ 113); [by left|].
    destruct (digit_not_q ds Hds) as [Hq _].
    change (lit "page=") with [112; 97; 103; 101; 61].
    rewrite not_elem_of_app. split; [|done].
    repeat (apply not_elem_of_cons; split; [done|]). apply not_elem_of_nil.
Qed.

Lemma subpath_q_first t rest :
  t <> [] -> Forall (λ c, c <> 38 /\ c <> 61) t ->
  take_while not_amp rest = [] ->
  subpath_q (lit "q=" ++ t ++ rest) = Some t.
Proof.
  intros Hne Ht Hrest. unfold subpath_q.
  by rewrite match_key_run_here; [..|apply not_amp_Forall|].
Qed.

Lemma subpath_q_only t :
  t <> [] -> Forall (λ c, c <> 38 /\ c <> 61) t ->
  subpath_page (lit "q=" ++ t) = None /\ subpath_q (lit "q=" ++ t) = Some t.
Proof.
  intros Hne Ht. split.
  - unfold subpath_page.
    rewrite (match_key_run_skip _ _ 0%nat 112); [|done|].
    + rewrite (match_key_run_absent _ _ 61); [done| |].
      * change (lit "page=") with [112; 97; 103; 101; 61].
        do 4 right. left.
      * intros Hin. eapply Forall_forall in Hin; [|exact Ht]. cbn in Hin. tauto.
    + rewrite take_0, app_nil_r. change (lit "q=") with [113; 61].
      repeat (apply not_elem_of_cons; split; [done|]). apply not_elem_of_nil.
  - pose proof (subpath_q_first t [] Hne Ht eq_refl) as H. by rewrite app_nil_r in H.
Qed.

Lemma subpath_amp s x :
  subpath_page (s ++ 38 :: x) = nullish (subpath_page s) (subpath_page x) /\
  subpath_q (s ++ 38 :: x) = nullish (subpath_q s) (subpath_q x).
Proof.
  unfold subpath_page, subpath_q. split.
  - rewrite match_key_run_amp; [|done| |done].
    + by destruct (match_key_run _ _ s).
    + change (lit "page=") with [112; 97; 103; 101; 61].
      repeat (apply not_elem_of_cons; split; [done|]). apply not_elem_of_nil.
  - rewrite match_key_run_amp; [|done| |done].
    + by destruct (match_key_run _ _ s).
    + change (lit "q=") with [113; 61].
      repeat (apply not_elem_of_cons; split; [done|]). apply not_elem_of_nil.
Qed.

Lemma decode_amp s x :
  decode (s ++ 38 :: x) =
  locate (nullish (subpath_page s) (subpath_page x)) (nullish (subpath_q s) (subpath_q x)).
Proof.
  rewrite decode_unfold. by destruct (subpath_amp s x) as [-> ->].
Qed.




(** Where the first [decodeURIComponent] stands outside the [try]: a token
    with a broken percent escape makes [setEphemeralState] throw. *)
Example decode_throws_on_broken_escape : decode (lit "page=5&q=%") = Throw URIError.
Proof. reflexivity. Qed.

End Codec.

(** ** The citation builder *)

Module Citation.
Import JSFacts B64Facts TextFacts RegexFacts.

Lemma split_on_cons c r :
  split_on 10 (c :: r) =
  if c =? 10 then [] :: split_on 10 r
  else match split_on 10 r with
       | l :: ls => (c :: l) :: ls
       | [] => [[c]]
       end.
Proof. done. Qed.

Lemma replace_crlf_cons c d r :
  replace_crlf (c :: d :: r) =
  if (c =? 13) && (d =? 10) then 10 :: replace_crlf r else c :: replace_crlf (d :: r).
Proof. done. Qed.

Lemma spec_lines_cons c r :
  spec_lines (c :: r) =
  if c =? 13 then
    match r with
    | d :: r' => if d =? 10 then [] :: spec_lines r' else [] :: spec_lines r
    | [] => [] :: spec_lines r
    end
  else if c =? 10 then [] :: spec_lines r
  else match spec_lines r with
       | l :: ls => (c :: l) :: ls
       | [] => [[c]]
       end.
Proof. done. Qed.

Lemma replace_cr_cons c r :
  replace_cr (c :: r) = (if c =? 13 then 10 else c) :: replace_cr r.
Proof. done. Qed.

(** The two [replace] calls and the [split] are one pass over the text. *)
Lemma lines_refine text :
  split_on 10 (replace_cr (replace_crlf text)) = spec_lines text.
Proof.
  induction text as [|c r IH1 IH2] using list_ind_pairs; [done|].
  rewrite spec_lines_cons.
  destruct r as [|d r'].
  - change (replace_crlf [c]) with [c]. rewrite replace_cr_cons, split_on_cons.
    change (split_on 10 (replace_cr [])) with (spec_lines []).
    destruct (N.eqb_spec c 13) as [->|Hc]; [done|].
    by destruct (N.eqb_spec c 10).
  - rewrite replace_crlf_cons.
    destruct (N.eqb_spec c 13) as [->|Hc]; cbn [andb].
    + destruct (N.eqb_spec d 10) as [->|Hd].
      * rewrite replace_cr_cons, split_on_cons. cbn [N.eqb Pos.eqb].
        f_equal. by apply (IH2 10 r').
      * rewrite replace_cr_cons, split_on_cons. cbn [N.eqb Pos.eqb].
        f_equal. exact IH1.
    + rewrite replace_cr_cons, split_on_cons, IH1.
      destruct (N.eqb_spec c 13); [done|].
      by destruct (N.eqb_spec c 10).
Qed.

Lemma drop_ws_app x y :
  drop_ws (x ++ y) = if forallb is_ws x then drop_ws y else drop_ws x ++ y.
Proof.
  induction x as [|c x IH]; [done|]. cbn. by destruct (is_ws c).
Qed.

Lemma forallb_rev {A : Type} (f : A -> bool) (l : list A) : forallb f (rev l) = forallb f l.
Proof.
  induction l as [|a l IH]; [done|]. cbn. rewrite forallb_app, IH. cbn.
  destruct (f a), (forallb f l); done.
Qed.

(** Marker first, then [trimEnd]: a blank line keeps the bare marker. *)
Lemma quote_line_refine l : trimEnd (lit "> " ++ l) = spec_quote_line l.
Proof.
  unfold trimEnd, spec_quote_line. rewrite rev_app_distr, drop_ws_app, forallb_rev.
  destruct (forallb is_ws l); [done|].
  by rewrite rev_app_distr, rev_involutive.
Qed.

Lemma quoteLines_refine text : quoteLines text = map spec_quote_line (spec_lines text).
Proof.
  unfold quoteLines. rewrite lines_refine. apply map_ext. intros l. apply quote_line_refine.
Qed.

Lemma drop_ws_head x c r : drop_ws x = c :: r -> is_ws c = false.
Proof.
  induction x as [|d x IH]; [done|]. cbn. destruct (is_ws d) eqn:Hd; [done|].
  by intros [= <- _].
Qed.

Lemma trimEnd_last s c : last (trimEnd s) = Some c -> is_ws c = false.
Proof.
  unfold trimEnd. destruct (drop_ws (rev s)) as [|d r] eqn:E; [done|].
  cbn [rev]. rewrite last_snoc. intros [= <-]. by eapply drop_ws_head.
Qed.

Lemma drop_ws_nil x : drop_ws x = [] -> forallb is_ws x = true.
Proof.
  induction x as [|d x IH]; [done|]. cbn. by destruct (is_ws d).
Qed.

Lemma trimEnd_nil l : trimEnd l = [] -> forallb is_ws l = true.
Proof.
  unfold trimEnd. intros E. rewrite <- forallb_rev. apply drop_ws_nil.
  destruct (drop_ws (rev l)) as [|d r]; [done|].
  cbn [rev] in E. by destruct (rev r).
Qed.

Lemma spec_quote_line_shape l :
  (exists rest, spec_quote_line l = 62 :: rest) /\
  (forall c, last (spec_quote_line l) = Some c -> is_ws c = false).
Proof.
  unfold spec_quote_line. destruct (forallb is_ws l) eqn:Hl.
  - split; [by eexists|]. intros c [= <-]. reflexivity.
  - split; [by eexists|]. intros c.
    destruct (trimEnd l) as [|d r] eqn:E.
    + apply trimEnd_nil in E. congruence.
    + change (lit "> " ++ d :: r) with ([62; 32] ++ d :: r).
      rewrite last_app_cons, <- E. apply trimEnd_last.
Qed.



End Citation.

(** ** Closing the view, and writing positions *)

Module View.

(** C9. [cleanup] after [cleanup] is [cleanup]: the second call finds the
    handler and the wait already null, so it calls neither
    [removeEventListener] nor [clearTimeout] and only empties the content
    again. The same holds for [onUnloadFile] and [onClose], which run it. *)
Theorem cleanup_idempotent (w : world) :
  cleanup (cleanup w) = cleanup w /\
  fst (cleanup_run (cleanup w)) = [Empty] /\
  messageHandler (cleanup w) = None /\ initWait (cleanup w) = None /\
  iframeEl (cleanup w) = None /\ content (cleanup w) = Blank /\
  (forall h, RemoveEventListener h ∈ fst (cleanup_run w) <-> messageHandler w = Some h) /\
  (forall seq, ClearTimeout seq ∈ fst (cleanup_run w) <-> initWait w = Some seq) /\
  onUnloadFile (onUnloadFile w) = onUnloadFile w /\
  onClose (onClose w) = onClose w /\
  onClose (onUnloadFile w) = onClose w.
Proof.
  destruct w as [f fr mh rs iw pp ph am fp c cc ls ts tk tr ck].
  unfold onClose, onUnloadFile, cleanup, cleanup_run; cbn.
  destruct mh as [h|], iw as [seq|]; cbn; repeat split; try done.
  all: try (intros Hin; repeat (apply elem_of_cons in Hin as [Hin|Hin]; try done);
            try (by apply elem_of_nil in Hin); by simplify_eq).
  all: try (intros [= ->]; set_solver).
Qed.

Section Positions.
Context {engine : JsEngine}.

Lemma same_view_refl w : same_view w w.
Proof. by repeat split. Qed.

Lemma same_view_trans w1 w2 w3 : same_view w1 w2 -> same_view w2 w3 -> same_view w1 w3.
Proof. unfold same_view. intros H1 H2. destruct_and!. repeat split; congruence. Qed.

Lemma page_changed_handler h source page w :
  let w' := messageHandler_of h source (DJVU_PAGE_CHANGED page) w in
  same_view w w' /\ exists es, trace w' = trace w ++ es /\ Forall is_save es.
Proof.
  cbn zeta. unfold messageHandler_of.
  destruct (negb _).
  { split; [apply same_view_refl|]. exists []. by rewrite app_nil_r. }
  destruct (find_task h w) as [t|].
  2:{ split; [apply same_view_refl|]. exists []. by rewrite app_nil_r. }
  destruct page as [p|].
  2:{ split; [apply same_view_refl|]. exists []. by rewrite app_nil_r. }
  split; [by repeat split|].
  eexists [_]. split; [done|]. repeat constructor. by eexists.
Qed.


End Positions.


End View.

(** ** The highlighter in the frame *)

Module Highlighter.

Section WithEngine.
Context {engine : JsEngine}.

(** *** Retries *)

Lemma tryHighlight_fuel fuel fuel' doms q a r :
  tryHighlight fuel doms q a = Some r -> (fuel <= fuel')%nat ->
  tryHighlight fuel' doms q a = Some r.
Proof.
  revert fuel' a r. induction fuel as [|fuel IH]; intros fuel' a r; [done|].
  intros Hr Hle. destruct fuel' as [|fuel']; [lia|].
  cbn [tryHighlight] in *. destruct (text_layer (doms a)); [|done].
  destruct (a <? 20)%nat; [|done].
  destruct (tryHighlight fuel doms q (S a)) as [[delays o]|] eqn:E; [|done].
  rewrite (IH fuel' (S a) (delays, o)); [done|done|lia].
Qed.

Lemma tryHighlight_run fuel doms q a :
  (a <= 20)%nat -> (21 - a <= fuel)%nat ->
  exists delays o,
    tryHighlight fuel doms q a = Some (delays, o) /\
    Forall (λ d, d = 300) delays /\
    (a + length delays <= 20)%nat /\
    (forall k, (a <= k < a + length delays)%nat -> text_layer (doms k) = []) /\
    ((a + length delays = 20)%nat /\ text_layer (doms 20%nat) = [] /\ o = GaveUp \/
     text_layer (doms (a + length delays)%nat) <> [] /\
     o = highlight_spans (text_layer (doms (a + length delays)%nat)) q).
Proof.
  revert a. induction fuel as [|fuel IH]; intros a Ha Hfuel; [lia|].
  cbn [tryHighlight]. destruct (text_layer (doms a)) as [|s spans] eqn:Hlayer.
  - destruct (Nat.ltb_spec a 20) as [Hlt|Hge].
    + destruct (IH (S a)) as (delays & o & E & H300 & Hlen & Hempty & Hend); [lia..|].
      rewrite E. exists (300 :: delays), o. cbn [length].
      split; [done|]. split; [by constructor|]. split; [lia|]. split.
      * intros k Hk. destruct (decide (k = a)) as [->|]; [done|]. apply Hempty. lia.
      * replace (a + S (length delays))%nat with (S a + length delays)%nat by lia. done.
    + assert (a = 20%nat) as -> by lia.
      exists [], GaveUp. cbn [length]. split; [done|]. split; [constructor|].
      split; [lia|]. split; [intros k; lia|]. left. by rewrite Nat.add_0_r.
  - exists [], (highlight_spans (s :: spans) q). cbn [length].
    split; [done|]. split; [constructor|]. split; [lia|]. split; [intros k; lia|].
    right. rewrite Nat.add_0_r, Hlayer. done.
Qed.

(** C5. [highlightText] always returns (21 unfoldings are enough, more
    change nothing): it sets a timer only when a call finds no text-layer
    span, always for 300 ms, and at most 20 of them; after the twentieth
    it gives up without a word. The first call that finds spans ends the
    run with that call's result, so a query that does not occur in the
    normalized text gives not-found and no further timer. *)
Theorem highlight_retry_bounded (doms : nat -> list span) (q : jsstring) :
  exists delays o,
    (forall fuel, (21 <= fuel)%nat -> highlightText fuel doms q = Some (delays, o)) /\
    Forall (λ d, d = 300) delays /\
    (length delays <= 20)%nat /\
    (forall k, (k < length delays)%nat -> text_layer (doms k) = []) /\
    ((length delays = 20)%nat /\ text_layer (doms 20%nat) = [] /\ o = GaveUp \/
     text_layer (doms (length delays)) <> [] /\
     o = highlight_spans (text_layer (doms (length delays))) q) /\
    (text_layer (doms (length delays)) <> [] ->
     indexOf (normalize (concat (map textContent (text_layer (doms (length delays))))))
             (normalize q) = (-1)%Z ->
     o = NotFound) /\
    (text_layer (doms 0%nat) <> [] -> delays = []).
Proof.
  destruct (tryHighlight_run 21 doms q 0) as (delays & o & E & H300 & Hlen & Hempty & Hend);
    [lia..|].
  exists delays, o. cbn [Nat.add] in *.
  split; [|split; [done|split; [done|split; [|split; [done|split]]]]].
  - intros fuel Hfuel. unfold highlightText. by eapply tryHighlight_fuel.
  - intros k Hk. apply Hempty. lia.
  - intros Hne Hidx. destruct Hend as [(Hl & Hnil & _)|(_ & ->)].
    + by rewrite Hl in Hne.
    + unfold highlight_spans. by rewrite Hidx.
  - intros Hne. destruct delays as [|d delays]; [done|].
    exfalso. apply Hne, Hempty. cbn. lia.
Qed.

(** *** One attempt *)

Lemma find_fmap {A B : Type} (f : B -> bool) (g : A -> B) (l : list A) :
  find f (map g l) = g <$> find (λ a, f (g a)) l.
Proof.
  induction l as [|a l IH]; [done|]. cbn. by destruct (f (g a)).
Qed.

Lemma spec_leftmost_nil needle :
  spec_leftmost [] needle = if starts_with needle [] then Some 0%nat else None.
Proof. unfold spec_leftmost. cbn. by destruct (starts_with needle []). Qed.

Lemma spec_leftmost_cons c r needle :
  spec_leftmost (c :: r) needle =
  if starts_with needle (c :: r) then Some 0%nat else S <$> spec_leftmost r needle.
Proof.
  unfold spec_leftmost.
  change (seq 0 (S (length (c :: r)))) with (0%nat :: seq 1 (S (length r))).
  cbn [find]. change (drop 0 (c :: r)) with (c :: r).
  destruct (starts_with needle (c :: r)); [done|].
  rewrite <- seq_shift, find_fmap. done.
Qed.

(** [indexOf] is the leftmost occurrence. *)
Lemma indexOf_from_spec needle hay i :
  indexOf_from i hay needle =
  match spec_leftmost hay needle with
  | Some j => (i + Z.of_nat j)%Z
  | None => (-1)%Z
  end.
Proof.
  revert i. induction hay as [|c r IH]; intros i.
  - rewrite spec_leftmost_nil. cbn [indexOf_from].
    destruct (starts_with needle []); [f_equal; lia|done].
  - rewrite spec_leftmost_cons. cbn [indexOf_from].
    destruct (starts_with needle (c :: r)); [lia|].
    rewrite IH. destruct (spec_leftmost r needle); cbn; lia.
Qed.

Lemma spec_leftmost_empty hay : spec_leftmost hay [] = Some 0%nat.
Proof. by destruct hay. Qed.

Lemma spec_offset_negative rank text i : (rank < 0)%Z -> spec_offset rank text i = None.
Proof.
  revert rank i. induction text as [|c r IH]; intros rank i Hr; [done|].
  cbn. destruct (is_ws c); [by apply IH|].
  destruct (Z.eqb_spec rank 0); [lia|]. apply IH. lia.
Qed.

(** The loop, from any of its states in which the end is still ahead. *)
Lemma map_back_spec idx len total rest i pos sc :
  (1 <= len)%Z -> (pos <= idx + len - 1)%Z ->
  map_back idx len rest i pos sc total =
  (if (pos <=? idx)%Z then default sc (spec_offset (idx - pos) rest i) else sc,
   default total ((λ i, i + 1)%Z <$> spec_offset (idx + len - 1 - pos) rest i)).
Proof.
  intros Hlen. revert i pos sc. induction rest as [|c r IH]; intros i pos sc Hpos.
  { cbn. by destruct (pos <=? idx)%Z. }
  cbn [map_back spec_offset].
  destruct (Z.leb_spec pos (idx + len)) as [_|]; [|lia]. cbn [negb].
  destruct (is_ws c); [by apply IH|].
  destruct (Z.eqb_spec pos (idx + len - 1)) as [Hend|Hend].
  - replace (idx + len - 1 - pos)%Z with 0%Z by lia. cbn.
    destruct (Z.eqb_spec pos idx) as [->|Hne].
    + rewrite Z.sub_diag, Z.leb_refl. done.
    + destruct (Z.leb_spec pos idx); [lia|done].
  - destruct (Z.eqb_spec (idx + len - 1 - pos) 0) as [|_]; [lia|].
    rewrite IH by lia.
    replace (idx + len - 1 - (pos + 1))%Z with (idx + len - 1 - pos - 1)%Z by lia.
    f_equal.
    destruct (Z.eqb_spec pos idx) as [->|Hne].
    + rewrite Z.sub_diag, Z.leb_refl. cbn.
      by destruct (Z.leb_spec (idx + 1) idx); [lia|].
    + destruct (Z.eqb_spec (idx - pos) 0) as [|_]; [lia|].
      replace (idx - (pos + 1))%Z with (idx - pos - 1)%Z by lia.
      destruct (Z.leb_spec pos idx), (Z.leb_spec (pos + 1) idx); try lia; done.
Qed.

(** The loop for an empty query, which [indexOf] finds at 0. *)
Lemma map_back_empty total rest i sc :
  map_back 0 0 rest i 0 sc total = (default sc (spec_offset 0 rest i), total).
Proof.
  revert i sc. induction rest as [|c r IH]; intros i sc; [done|].
  cbn [map_back spec_offset]. cbn [Z.leb Z.add Z.compare negb].
  destruct (is_ws c); [by apply IH|]. cbn.
  by destruct r.
Qed.

Lemma map_back_refine idx len text :
  (0 <= len)%Z -> (len = 0 -> idx = 0)%Z -> (0 <= idx)%Z ->
  map_back idx len text 0 0 0 (Z.of_nat (length text)) = spec_span idx len text.
Proof.
  intros Hlen Hzero Hidx. unfold spec_span.
  destruct (Z.eq_dec len 0%Z) as [->|Hne].
  - rewrite (Hzero eq_refl), map_back_empty. f_equal.
    by rewrite spec_offset_negative.
  - rewrite map_back_spec by lia.
    destruct (Z.leb_spec 0 idx); [|lia]. by rewrite !Z.sub_0_r.
Qed.

Lemma mark_refine start spans startChar endChar :
  mark (starts_from start spans)
       (start + Z.of_nat (length (concat (map textContent spans))))%Z startChar endChar
  = spec_marks start spans startChar endChar.
Proof.
  revert start. induction spans as [|s r IH]; intros start; [done|].
  cbn [map concat starts_from mark spec_marks]. rewrite length_app, Nat2Z.inj_add.
  f_equal.
  - destruct r as [|s' r']; cbn [map concat starts_from length]; [|apply andb_comm].
    rewrite Z.add_0_r. apply andb_comm.
  - rewrite <- IH. f_equal. lia.
Qed.

Lemma highlight_spans_refine spans q : highlight_spans spans q = spec_locate spans q.
Proof.
  unfold highlight_spans, spec_locate, indexOf.
  set (text := concat (map textContent spans)).
  rewrite indexOf_from_spec.
  destruct (spec_leftmost (normalize text) (normalize q)) as [idx|] eqn:E; [|done].
  rewrite Z.add_0_l. destruct (Z.eqb_spec (Z.of_nat idx) (-1)) as [|_]; [lia|].
  rewrite map_back_refine; [|lia| |lia].
  - destruct (spec_span _ _ text) as [a b]. f_equal.
    rewrite <- (mark_refine 0). by rewrite Z.add_0_l.
  - intros Hlen. destruct (normalize q); [|done].
    rewrite spec_leftmost_empty in E. by injection E as <-.
Qed.

(** C4. One attempt of the highlighter is the locator of the
    specification: it takes the leftmost occurrence of the normalized
    query in the normalized concatenation of the text-layer spans, maps
    its first and last index back to offsets in the original text by
    counting non-whitespace characters, and marks exactly the spans whose
    extent overlaps the mapped range. With the spans [Hel], [lo wor], [ld]
    every query that normalizes to [helloworld] marks all three. *)
Theorem fuzzy_locator :
  (forall spans q, highlight_spans spans q = spec_locate spans q) /\
  (forall hay needle,
     indexOf hay needle =
     match spec_leftmost hay needle with Some i => Z.of_nat i | None => (-1)%Z end) /\
  (forall dom q fuel,
     text_layer dom <> [] -> (1 <= fuel)%nat ->
     highlightText fuel (λ _, dom) q = Some ([], spec_locate (text_layer dom) q)) /\
  (forall q,
     normalize q = lit "helloworld" ->
     let dom := [ {| textContent := lit "Hel"; parent_absolute := true |};
                  {| textContent := lit "lo wor"; parent_absolute := true |};
                  {| textContent := lit "ld"; parent_absolute := true |} ] in
     text_layer dom = dom /\
     highlight_spans dom q = Highlighted [true; true; true] /\
     highlightText 21 (λ _, dom) q = Some ([], Highlighted [true; true; true])).
Proof.
  split; [apply highlight_spans_refine|]. split.
  { intros hay needle. unfold indexOf. rewrite indexOf_from_spec.
    by destruct (spec_leftmost hay needle). }
  split.
  { intros dom q [|fuel] Hne Hfuel; [lia|]. unfold highlightText. cbn [tryHighlight].
    rewrite <- highlight_spans_refine. by destruct (text_layer dom). }
  intros q Hq dom.
  assert (Hlayer : text_layer dom = dom) by reflexivity.
  assert (Hone : highlight_spans dom q = Highlighted [true; true; true]).
  { unfold highlight_spans. rewrite Hq.
    assert (normalize (concat (map textContent dom)) = lit "helloworld") as ->.
    { unfold normalize. rewrite toLowerCase_ascii; reflexivity. }
    reflexivity. }
  split; [done|]. split; [done|].
  unfold highlightText. cbn [tryHighlight]. rewrite Hlayer.
  change (Some (@nil N, highlight_spans dom q) = Some (@nil N, Highlighted [true; true; true])).
  by rewrite Hone.
Qed.

End WithEngine.

(** The query in capitals and with stray spaces, on an engine that can be run. *)
Lemma fuzzy_locator_witness :
  normalize (engine := ascii_engine) (lit "HELLO   World ") = lit "helloworld" /\
  highlightText (engine := ascii_engine) 21
    (λ _, [ {| textContent := lit "Hel"; parent_absolute := true |};
            {| textContent := lit "lo wor"; parent_absolute := true |};
            {| textContent := lit "ld"; parent_absolute := true |} ])
    (lit "HELLO   World ") = Some ([], Highlighted [true; true; true]).
Proof.
  split; [reflexivity|].
  exact (proj2 (proj2 (proj2 (proj2 (proj2 (@fuzzy_locator ascii_engine)))
                               (lit "HELLO   World ") eq_refl))).
Defined.

End Highlighter.

(** ** The view as a state machine *)

Module Machine.

Lemma find_task_Some seq w t :
  find_task seq w = Some t -> t ∈ tasks w /\ t_seq t = seq.
Proof.
  unfold find_task. intros H. apply find_some in H as [Hin Heq].
  split; [by apply list_elem_of_In|]. by apply Nat.eqb_eq.
Qed.

Lemma update_task_seqs seq f w :
  (forall t, t_seq (f t) = t_seq t) ->
  map t_seq (tasks (update_task seq f w)) = map t_seq (tasks w).
Proof.
  intros Hf. cbn. rewrite map_map. apply map_ext. intros t.
  by destruct (Nat.eqb (t_seq t) seq).
Qed.

Lemma consistent_intro w w' :
  consistent w ->
  renderSeq w' = renderSeq w ->
  map t_seq (tasks w') = map t_seq (tasks w) ->
  (messageHandler w' = messageHandler w /\ listeners w' = listeners w \/
   messageHandler w' = None /\ listeners w' = []) ->
  (initWait w' = initWait w /\ timers w' = timers w \/
   initWait w' = None /\ timers w' = []) ->
  (forall m, PostLoad m ∈ trace w' ->
             PostLoad m ∈ trace w \/ (lm_frame m <= renderSeq w)%nat) ->
  consistent w'.
Proof.
  intros [H1 H2 H3 H4 H5 H6 H7] Hseq Htasks Hh Hw Hl. split.
  - rewrite Hseq.
    assert (Hall : Forall (λ s, (s <= renderSeq w)%nat) (map t_seq (tasks w))).
    { clear -H1. induction H1; constructor; auto. }
    rewrite <- Htasks in Hall. clear -Hall.
    induction (tasks w') as [|t l IH]; [constructor|].
    cbn in Hall. apply Forall_cons in Hall as [??]. constructor; auto.
  - by rewrite Htasks.
  - rewrite Hseq. destruct Hh as [[-> _]|[-> _]]; auto.
  - destruct Hh as [[-> ->]|[-> ->]]; auto.
  - rewrite Hseq. destruct Hw as [[-> _]|[-> _]]; auto.
  - destruct Hw as [[-> ->]|[-> ->]]; auto.
  - rewrite Hseq. apply Forall_forall. intros e He m ->.
    destruct (Hl m He) as [Hin|Hle]; [|done].
    eapply Forall_forall in H7; [|exact Hin]. by apply H7.
Qed.

Lemma without_self h : without h [h] = [].
Proof. unfold without. cbn. rewrite decide_False; [done|]. by rewrite Nat.eqb_refl. Qed.

Lemma filter_self h : filter (λ s : nat, (s =? h)%nat = false) [h] = [].
Proof. apply without_self. Qed.

Lemma cleanup_fields w :
  listeners w = match messageHandler w with Some h => [h] | None => [] end ->
  timers w = match initWait w with Some s => [s] | None => [] end ->
  let w' := cleanup w in
  messageHandler w' = None /\ listeners w' = [] /\ initWait w' = None /\ timers w' = [] /\
  iframeEl w' = None /\ content w' = Blank /\
  renderSeq w' = renderSeq w /\ tasks w' = tasks w /\ trace w' = trace w /\
  pendingPage w' = pendingPage w /\ pendingHighlight w' = pendingHighlight w /\
  filePages w' = filePages w /\ clicks w' = clicks w /\ file w' = file w /\
  activeMenu w' = activeMenu w /\ container_class w' = container_class w.
Proof.
  intros H4 H6. unfold cleanup, cleanup_run.
  destruct (messageHandler w) as [h|] eqn:Hh, (initWait w) as [s|] eqn:Hs; cbn;
    rewrite ?Hs, ?Hh; cbn; rewrite ?Hs, ?Hh, ?H4, ?H6, ?filter_self, ?without_self; done.
Qed.

Lemma seqs_update seq f (l : list task) :
  (forall t, t_seq (f t) = t_seq t) ->
  map t_seq (map (λ t, if Nat.eqb (t_seq t) seq then f t else t) l) = map t_seq l.
Proof.
  intros Hf. rewrite map_map. apply map_ext. intros t.
  by destruct (Nat.eqb (t_seq t) seq).
Qed.

Lemma elem_of_snoc {A : Type} (l : list A) (x y : A) : x ∈ l ++ [y] -> x ∈ l \/ x = y.
Proof.
  intros [?|Hin]%elem_of_app; [by left|]. right.
  by apply list_elem_of_singleton in Hin.
Qed.

(** Goals left by [consistent_intro] when a step only touches stages,
    buffers, the trace and fields outside the invariant. *)
Ltac keep_consistent H :=
  eapply consistent_intro;
  [exact H
  |cbn; try reflexivity
  |cbn; try reflexivity; try (apply seqs_update; by intros [])
  |cbn; try (by left)
  |cbn; try (by left)
  |let Hin := fresh "Hin" in
   cbn; intros ? Hin;
   repeat (apply elem_of_snoc in Hin as [Hin|Hin]; [|try discriminate]);
   try (by left)].

Section Steps.
Context {engine : JsEngine}.

Lemma wait_cleared w h :
  consistent w -> is_seq (initWait w) h = true ->
  initWait w = Some h /\ timers w = [h] /\ h = renderSeq w /\ without h (timers w) = [].
Proof.
  intros [_ _ _ _ H5 H6 _]. unfold is_seq.
  destruct (initWait w) as [s|] eqn:Hs; [|done].
  intros ->%Nat.eqb_eq. destruct H5 as [|[= <-]]; [done|].
  rewrite H6. by rewrite without_self.
Qed.

Lemma render_catch_consistent seq message w :
  consistent w -> consistent (render_catch seq message w).
Proof. intros H. unfold render_catch, finish, showError, emit, update_task. keep_consistent H. Qed.

Lemma after_buffer_consistent t w :
  consistent w -> consistent (after_buffer t w).
Proof.
  intros H. unfold after_buffer, finish, update_task.
  destruct (negb _); keep_consistent H.
Qed.

Lemma after_ready_consistent t w :
  consistent w -> consistent (after_ready t w).
Proof.
  intros H. unfold after_ready. destruct (t_stage t); try done. destruct (t_buffer t).
  - unfold update_task. keep_consistent H.
  - by apply after_buffer_consistent.
  - by apply render_catch_consistent.
Qed.

Lemma after_reject_consistent t message w :
  consistent w -> consistent (after_reject t message w).
Proof.
  intros H. unfold after_reject. destruct (t_stage t); try done.
  by apply render_catch_consistent.
Qed.

Lemma after_settle_unfold t buffer w :
  after_settle t buffer w =
  let w1 := set_pendingHighlight None (set_pendingPage None w) in
  if attached (t_seq t) w then
    finish (t_seq t)
      (set_content (ViewerRoot (t_seq t) [])
         (emit (PostLoad {| lm_frame := t_seq t; lm_buffer := buffer;
                            lm_name := name (t_file t);
                            lm_page := nullish (pendingPage w) (t_page t);
                            lm_highlight :=
                              nullish (nullish (pendingHighlight w) (t_highlight t)) None |})
               w1))
  else finish (t_seq t) w1.
Proof.
  unfold after_settle, attached. cbn.
  destruct (content w) as [|k st|] eqn:Hc; cbn; rewrite ?Hc; try done.
  destruct (Nat.eqb k (t_seq t)) eqn:He; cbn; rewrite ?Hc, ?He; cbn; rewrite ?He; done.
Qed.

Lemma after_settle_consistent t buffer w :
  consistent w -> (t_seq t <= renderSeq w)%nat -> consistent (after_settle t buffer w).
Proof.
  intros H Ht. rewrite after_settle_unfold. cbv zeta.
  unfold finish, update_task, emit.
  destruct (attached (t_seq t) w); keep_consistent H.
  right. by injection Hin as ->.
Qed.

Lemma cleanup_consistent w : consistent w -> consistent (cleanup w).
Proof.
  intros H. destruct (cleanup_fields w (c_listeners w H) (c_timers w H))
    as (H1 & H2 & H3 & H4 & _ & _ & H5 & H6 & H7 & _).
  eapply consistent_intro; [exact H|by rewrite ?H5, ?H6..|by right|by right|].
  intros m. rewrite H7. by left.
Qed.

(** What [render] leaves behind when it accepts the file. *)
Lemma render_fields f page highlight w :
  consistent w -> is_djvu f = true ->
  let w' := render (Some f) page highlight w in
  renderSeq w' = S (renderSeq w) /\
  messageHandler w' = Some (S (renderSeq w)) /\ listeners w' = [S (renderSeq w)] /\
  initWait w' = Some (S (renderSeq w)) /\ timers w' = [S (renderSeq w)] /\
  iframeEl w' = Some (S (renderSeq w)) /\
  content w' = ViewerRoot (S (renderSeq w)) (lit "Loading DjVu" ++ [8230]) /\
  tasks w' = tasks w ++ [{| t_seq := S (renderSeq w); t_file := f; t_page := page;
                            t_highlight := highlight; t_stage := AwaitReady;
                            t_buffer := Reading |}] /\
  trace w' = trace w /\ pendingPage w' = pendingPage w /\
  pendingHighlight w' = pendingHighlight w /\ filePages w' = filePages w /\
  clicks w' = clicks w /\ file w' = file w /\ activeMenu w' = activeMenu w /\
  container_class w' = container_class w.
Proof.
  intros H Hf. cbn zeta. unfold render. cbn [nullish]. rewrite Hf. cbn [negb].
  destruct (cleanup_fields (set_renderSeq (S (renderSeq w)) w))
    as (H1 & H2 & H3 & H4 & _ & _ & H5 & H6 & H7 & H8 & H9 & H10 & H11 & H12 & H13 & H14).
  { cbn. apply (c_listeners w H). }
  { cbn. apply (c_timers w H). }
  cbn. rewrite H2, H4, H6, H7, H8, H9, H10, H11, H12, H13, H14. done.
Qed.

Lemma render_consistent file_arg page highlight w :
  consistent w -> consistent (render file_arg page highlight w).
Proof.
  intros H.
  destruct (nullish file_arg (file w)) as [f|] eqn:Hfile.
  2:{ unfold render. rewrite Hfile. unfold showError. keep_consistent H. }
  assert (render file_arg page highlight w = render (Some f) page highlight w) as ->.
  { unfold render. by rewrite Hfile. }
  destruct (is_djvu f) eqn:Hf.
  2:{ unfold render. cbn [nullish]. rewrite Hf. unfold showError. keep_consistent H. }
  destruct (render_fields f page highlight w H Hf)
    as (H1 & H2 & H3 & H4 & H5 & _ & _ & H6 & H7 & _).
  destruct H as [G1 G2 G3 G4 G5 G6 G7]. split.
  - rewrite H1, H6. apply Forall_app. split.
    + eapply Forall_impl; [exact G1|]. cbn. lia.
    + by repeat constructor.
  - rewrite H6, map_app. cbn [map]. apply NoDup_app.
    split; [exact G2|]. split; [|apply NoDup_singleton].
    intros s Hs ->%list_elem_of_singleton.
    apply list_elem_of_fmap in Hs as (t & Hs & Ht).
    eapply Forall_forall in G1; [|exact Ht]. cbn in G1, Hs. lia.
  - right. by rewrite H2, H1.
  - by rewrite H3, H2.
  - right. by rewrite H4, H1.
  - by rewrite H5, H4.
  - rewrite H7, H1. eapply Forall_impl; [exact G7|]. intros e He m Hm.
    specialize (He m Hm). lia.
Qed.

Lemma setEphemeralState_consistent subpath w w' :
  consistent w -> setEphemeralState subpath w = Ok w' -> consistent w'.
Proof.
  intros H. unfold setEphemeralState. cbv zeta.
  generalize (default [] subpath). intros s.
  destruct (subpath_q s) as [tok|]; [destruct (decodeURIComponent tok) as [h|]|];
    destruct (subpath_page s); try discriminate; intros [= <-]; keep_consistent H.
Qed.

Lemma messageHandler_of_consistent h source data w :
  consistent w -> consistent (messageHandler_of h source data w).
Proof.
  intros H. unfold messageHandler_of.
  destruct (negb _); [done|].
  destruct (find_task h w) as [t|] eqn:Ht; [|done].
  destruct data as [| |m|text page|page| |]; try done.
  - destruct (is_seq (initWait w) h) eqn:Hw; [|done].
    apply after_ready_consistent.
    destruct (wait_cleared w h H Hw) as (_ & _ & _ & Hnil).
    keep_consistent H. right. by rewrite Hnil.
  - destruct (is_seq (initWait w) h) eqn:Hw; [|done].
    apply after_reject_consistent.
    destruct (wait_cleared w h H Hw) as (_ & _ & _ & Hnil).
    keep_consistent H. right. by rewrite Hnil.
  - unfold showSelectionContextMenu.
    destruct (file w) as [f|]; [|done]. destruct (iframeEl w); [|done].
    destruct (trim _); [done|].
    destruct (build_menu _ _ _); [|unfold emit; keep_consistent H].
    destruct (activeMenu w); unfold emit; keep_consistent H.
  - destruct page as [p|]; [|done]. unfold emit. keep_consistent H.
  - destruct (activeMenu w); [|done]. unfold emit. keep_consistent H.
Qed.

(** Every step keeps the invariant. *)
Lemma step_consistent e w : consistent w -> consistent (step e w).
Proof.
  intros H. destruct e as [subpath| |f| | |source data|seq|seq buffer|seq m|seq|s]; cbn [step].
  - destruct (setEphemeralState subpath w) as [w'|err] eqn:E.
    + by eapply setEphemeralState_consistent.
    + unfold emit. keep_consistent H.
  - unfold onOpen. keep_consistent H.
  - unfold onLoadFile. apply render_consistent. keep_consistent H.
  - by apply cleanup_consistent.
  - unfold onClose. pose proof (cleanup_consistent w H) as Hc. keep_consistent Hc.
  - rewrite (c_listeners w H). destruct (messageHandler w) as [h|]; [|done].
    cbn [fold_left]. by apply messageHandler_of_consistent.
  - destruct (existsb _ _) eqn:Hex; [|done].
    destruct (is_seq (initWait (set_timers (without seq (timers w)) w)) seq) eqn:Hw.
    + change (is_seq (initWait w) seq = true) in Hw.
      destruct (wait_cleared w seq H Hw) as (_ & _ & _ & Hnil).
      assert (consistent (set_initWait None (set_timers (without seq (timers w)) w))) as Hc.
      { keep_consistent H. right. by rewrite Hnil. }
      destruct (find_task seq _); [|done]. by apply after_reject_consistent.
    + change (is_seq (initWait w) seq = false) in Hw.
      destruct (c_wait w H) as [Hnone|Hsome].
      * pose proof (c_timers w H) as Ht. rewrite Hnone in Ht. by rewrite Ht in Hex.
      * pose proof (c_timers w H) as Ht. rewrite Hsome in Ht. rewrite Ht in Hex.
        cbn in Hex. rewrite Hsome in Hw. cbn in Hw.
        destruct (Nat.eqb_spec seq (renderSeq w)) as [->|]; [|done].
        by rewrite Nat.eqb_refl in Hw.
  - destruct (find_task seq w) as [t|] eqn:Ht; [|done].
    destruct (t_buffer t); try done.
    assert (consistent (update_task seq (set_buffer (ReadOk buffer)) w)) as Hc.
    { unfold update_task. keep_consistent H. }
    destruct (t_stage t); try done. by apply after_buffer_consistent.
  - destruct (find_task seq w) as [t|] eqn:Ht; [|done].
    destruct (t_buffer t); try done.
    assert (consistent (update_task seq (set_buffer (ReadFailed m)) w)) as Hc.
    { unfold update_task. keep_consistent H. }
    destruct (t_stage t); try done. by apply render_catch_consistent.
  - destruct (find_task seq w) as [t|] eqn:Ht; [|done].
    destruct (t_stage t); try done. destruct (t_buffer t); try done.
    apply after_settle_consistent; [done|].
    apply find_task_Some in Ht as [Hin _].
    by eapply Forall_forall in Hin; [|apply (c_tasks w H)].
  - done.
Qed.

Lemma initial_consistent pages : consistent (initial pages).
Proof. split; cbn; try constructor; auto. Qed.

Lemma run_app es1 es2 w : run (es1 ++ es2) w = run es2 (run es1 w).
Proof. unfold run. by rewrite fold_left_app. Qed.

Lemma run_consistent es w : consistent w -> consistent (run es w).
Proof.
  revert w. induction es as [|e es IH]; intros w H; [done|].
  cbn. apply IH. by apply step_consistent.
Qed.

(** *** Where a link's page and quote are held *)

Lemma count_app {A : Type} (f : A -> bool) (l1 l2 : list A) :
  count f (l1 ++ l2) = (count f l1 + count f l2)%nat.
Proof. induction l1 as [|a l1 IH]; [done|]. cbn. rewrite IH. lia. Qed.

Lemma count_map_le {A : Type} (f : A -> bool) (g : A -> A) (l : list A) :
  (forall a, a ∈ l -> f (g a) = true -> f a = true) ->
  (count f (map g l) <= count f l)%nat.
Proof.
  induction l as [|a l IH]; intros H; [done|]. cbn.
  assert (count f (map g l) <= count f l)%nat by (apply IH; intros; apply H; [by right|done]).
  destruct (f (g a)) eqn:E; [rewrite (H a); [lia|by left|done]|].
  destruct (f a); lia.
Qed.

Lemma count_elem {A : Type} (f : A -> bool) (l : list A) (a : A) :
  a ∈ l -> f a = true -> (1 <= count f l)%nat.
Proof.
  induction l as [|b l IH]; [by intros ?%elem_of_nil|].
  intros [->|Hin]%elem_of_cons Hf; cbn.
  - rewrite Hf. lia.
  - specialize (IH Hin Hf). destruct (f b); lia.
Qed.

(** Finishing the task found under [seq] takes its share out of the count. *)
Lemma count_finish k seq (l : list task) t :
  NoDup (map t_seq l) -> t ∈ l -> t_seq t = seq ->
  (count (task_carries k) (map (λ t, if Nat.eqb (t_seq t) seq then set_stage Finished t else t) l)
   + (if task_carries k t then 1 else 0) = count (task_carries k) l)%nat.
Proof.
  intros Hnd Hin Hseq. induction l as [|a l IH]; [by apply elem_of_nil in Hin|].
  cbn [map] in Hnd. apply NoDup_cons in Hnd as [Ha Hnd].
  apply elem_of_cons in Hin as [->|Hin].
  - cbn [map count]. rewrite Hseq, Nat.eqb_refl.
    assert (map (λ t, if Nat.eqb (t_seq t) seq then set_stage Finished t else t) l = l) as ->.
    { rewrite <- (map_id l) at 2. apply map_ext_in. intros b Hb%list_elem_of_In.
      destruct (Nat.eqb_spec (t_seq b) seq) as [E|]; [|done].
      exfalso. apply Ha. rewrite Hseq, <- E. apply list_elem_of_fmap. eauto. }
    unfold task_carries at 1. cbn. destruct (task_carries k a); lia.
  - cbn [map count]. specialize (IH Hnd Hin).
    destruct (Nat.eqb_spec (t_seq a) seq) as [E|]; [|lia].
    exfalso. apply Ha. rewrite E, <- Hseq. apply list_elem_of_fmap. eauto.
Qed.

Lemma count_update_keep k seq f (l : list task) :
  (forall t, t ∈ l -> t_seq t = seq -> task_carries k (f t) = task_carries k t) ->
  count (task_carries k) (map (λ t, if Nat.eqb (t_seq t) seq then f t else t) l)
  = count (task_carries k) l.
Proof.
  induction l as [|a l IH]; intros H; [done|]. cbn [map count].
  rewrite IH by (intros; apply H; [by right|done]).
  destruct (Nat.eqb_spec (t_seq a) seq) as [E|]; [|done].
  rewrite (H a); [done|by left|done].
Qed.

Lemma tasks_unique seq w t t' :
  consistent w -> find_task seq w = Some t -> t' ∈ tasks w -> t_seq t' = seq -> t' = t.
Proof.
  intros H [Hin Hseq]%find_task_Some Hin' Hseq'.
  pose proof (c_nodup w H) as Hnd. clear H. revert Hin Hin' Hnd.
  induction (tasks w) as [|a l IH]; [by intros ?%elem_of_nil|].
  cbn [map]. intros [->|Hin]%elem_of_cons [->|Hin']%elem_of_cons [Ha Hnd]%NoDup_cons.
  - done.
  - exfalso. apply Ha. rewrite Hseq, <- Hseq'. apply list_elem_of_fmap. eauto.
  - exfalso. apply Ha. rewrite Hseq', <- Hseq. apply list_elem_of_fmap. eauto.
  - by apply IH.
Qed.

Lemma has_tag_store {A : Type} k (p : option (tagged A)) (saved : option A) :
  has_tag k (nullish p (Tag None <$> saved)) = has_tag k p.
Proof. destruct p as [[]|]; [done|]. by destruct saved. Qed.

Lemma has_tag_nullish {A : Type} k (p q : option (tagged A)) :
  has_tag k (nullish p q) = true -> has_tag k p = true \/ has_tag k q = true.
Proof. destruct p; cbn; auto. Qed.

Lemma holders_le_intro k w w' :
  (carries k (pendingPage w') (pendingHighlight w') = true ->
   carries k (pendingPage w) (pendingHighlight w) = true) ->
  (count (task_carries k) (tasks w') <= count (task_carries k) (tasks w))%nat ->
  count (load_carries k) (trace w') = count (load_carries k) (trace w) ->
  (holders k w' <= holders k w)%nat.
Proof.
  unfold holders. intros Hp Ht ->.
  destruct (carries k (pendingPage w') (pendingHighlight w')); [rewrite Hp by done|];
    destruct (carries k (pendingPage w) (pendingHighlight w)); lia.
Qed.

Lemma count_update_le k seq f (l : list task) :
  (forall a, a ∈ l -> t_seq a = seq -> task_carries k (f a) = true -> task_carries k a = true) ->
  (count (task_carries k) (map (λ t, if Nat.eqb (t_seq t) seq then f t else t) l)
   <= count (task_carries k) l)%nat.
Proof.
  intros H. apply count_map_le. intros a Ha.
  destruct (Nat.eqb_spec (t_seq a) seq); [by apply H|done].
Qed.

Lemma count_finish_le k seq (l : list task) :
  (count (task_carries k) (map (λ t, if Nat.eqb (t_seq t) seq then set_stage Finished t else t) l)
   <= count (task_carries k) l)%nat.
Proof. apply count_update_le. intros a _ _. by destruct a. Qed.

Lemma count_buffer k seq b (l : list task) :
  count (task_carries k) (map (λ t, if Nat.eqb (t_seq t) seq then set_buffer b t else t) l)
  = count (task_carries k) l.
Proof. apply count_update_keep. intros a _ _. by destruct a. Qed.

Lemma count_stage_le k seq st (l : list task) :
  (forall a, a ∈ l -> t_seq a = seq -> task_live a = true) ->
  (count (task_carries k) (map (λ t, if Nat.eqb (t_seq t) seq then set_stage st t else t) l)
   <= count (task_carries k) l)%nat.
Proof.
  intros H. apply count_update_le. intros a Ha Hs.
  specialize (H a Ha Hs). unfold task_carries in *. rewrite H. cbn.
  by intros [_ ?]%andb_true_iff.
Qed.

Lemma render_catch_holders k seq message w :
  (holders k (render_catch seq message w) <= holders k w)%nat.
Proof.
  apply holders_le_intro; cbn; [done|apply count_finish_le|].
  rewrite count_app. cbn. lia.
Qed.

Lemma after_buffer_holders k t w :
  (forall a, a ∈ tasks w -> t_seq a = t_seq t -> task_live a = true) ->
  (holders k (after_buffer t w) <= holders k w)%nat.
Proof.
  intros Hlive. unfold after_buffer.
  destruct (negb _); apply holders_le_intro; cbn; try done.
  - apply count_finish_le.
  - by apply count_stage_le.
Qed.

Lemma found_live seq w t :
  consistent w -> find_task seq w = Some t -> task_live t = true ->
  forall a, a ∈ tasks w -> t_seq a = seq -> task_live a = true.
Proof.
  intros H Ht Hl a Ha Hs. by rewrite (tasks_unique seq w t a H Ht Ha Hs).
Qed.

Lemma after_ready_holders k t w :
  consistent w -> find_task (t_seq t) w = Some t ->
  (holders k (after_ready t w) <= holders k w)%nat.
Proof.
  intros H Ht. unfold after_ready. destruct (t_stage t) eqn:Hst; try done.
  assert (Hlive : forall a, a ∈ tasks w -> t_seq a = t_seq t -> task_live a = true).
  { eapply found_live; [done..|]. unfold task_live. by rewrite Hst. }
  destruct (t_buffer t).
  - apply holders_le_intro; cbn; try done. by apply count_stage_le.
  - by apply after_buffer_holders.
  - apply render_catch_holders.
Qed.

Lemma after_reject_holders k t message w :
  (holders k (after_reject t message w) <= holders k w)%nat.
Proof.
  unfold after_reject. destruct (t_stage t); try done. apply render_catch_holders.
Qed.

Lemma carries_final k pp ph tp th :
  carries k (nullish pp tp) (nullish (nullish ph th) None) = true ->
  carries k pp ph = true \/ carries k tp th = true.
Proof.
  unfold carries. intros [Hp|Hh]%orb_true_iff.
  - apply has_tag_nullish in Hp as [-> | ->]; [by left|by right].
  - apply has_tag_nullish in Hh as [Hh|Hh]; [|done].
    apply has_tag_nullish in Hh as [-> | ->]; [left|right]; by rewrite orb_true_r.
Qed.

Lemma after_settle_holders k t buffer w :
  consistent w -> t ∈ tasks w -> task_live t = true ->
  (holders k (after_settle t buffer w) <= holders k w)%nat.
Proof.
  intros H Hin Hlive. rewrite after_settle_unfold. cbv zeta.
  pose proof (count_finish k (t_seq t) (tasks w) t (c_nodup w H) Hin eq_refl) as Hc.
  unfold holders, finish, update_task, emit.
  destruct (attached (t_seq t) w); cbn.
  - rewrite count_app. cbn.
    destruct (carries k (nullish (pendingPage w) (t_page t))
                (nullish (nullish (pendingHighlight w) (t_highlight t)) None)) eqn:E.
    + apply carries_final in E as [E|E].
      * rewrite E. destruct (task_carries k t); lia.
      * assert (task_carries k t = true) as Ht by (unfold task_carries; by rewrite Hlive, E).
        rewrite Ht in Hc. destruct (carries k (pendingPage w) (pendingHighlight w)); lia.
    + destruct (task_carries k t), (carries k (pendingPage w) (pendingHighlight w)); lia.
  - destruct (task_carries k t), (carries k (pendingPage w) (pendingHighlight w)); lia.
Qed.

Lemma onLoadFile_holders k f w :
  consistent w -> (holders k (onLoadFile f w) <= holders k w)%nat.
Proof.
  intros H. unfold onLoadFile.
  set (page := nullish (pendingPage w) (Tag None <$> getFilePage (path f) (filePages w))).
  set (w1 := set_pendingHighlight None (set_pendingPage None w)).
  assert (H1 : consistent w1) by (unfold w1; keep_consistent H).
  destruct (is_djvu f) eqn:Hf.
  - destruct (render_fields f page (pendingHighlight w) w1 H1 Hf)
      as (_ & _ & _ & _ & _ & _ & _ & Ht & Htr & Hpp & Hph & _).
    unfold holders. rewrite Ht, Htr, Hpp, Hph, count_app. cbn.
    unfold task_carries. cbn. unfold carries at 2, page. rewrite has_tag_store.
    fold (carries k (pendingPage w) (pendingHighlight w)).
    destruct (carries k (pendingPage w) (pendingHighlight w)); lia.
  - unfold render. cbn [nullish]. rewrite Hf. cbn [negb].
    apply holders_le_intro; cbn; done.
Qed.

Lemma messageHandler_of_holders k h source data w :
  consistent w -> (holders k (messageHandler_of h source data w) <= holders k w)%nat.
Proof.
  intros H. unfold messageHandler_of.
  destruct (negb _); [done|].
  destruct (find_task h w) as [t|] eqn:Ht; [|done].
  pose proof (find_task_Some h w t Ht) as [Hin Hseq].
  destruct data as [| |m|text page|page| |]; try done.
  - destruct (is_seq (initWait w) h) eqn:Hw; [|done].
    destruct (wait_cleared w h H Hw) as (_ & _ & _ & Hnil).
    assert (consistent (set_initWait None (set_timers (without h (timers w)) w))) as Hc.
    { keep_consistent H. right. by rewrite Hnil. }
    etrans; [apply after_ready_holders; [exact Hc|by rewrite Hseq]|done].
  - destruct (is_seq (initWait w) h) eqn:Hw; [|done].
    etrans; [apply after_reject_holders|done].
  - unfold showSelectionContextMenu.
    destruct (file w) as [f|]; [|done]. destruct (iframeEl w); [|done].
    destruct (trim _); [done|].
    destruct (build_menu _ _ _).
    + destruct (activeMenu w); apply holders_le_intro; cbn; try done;
        rewrite !count_app; cbn; lia.
    + apply holders_le_intro; cbn; try done. rewrite count_app. cbn. lia.
  - destruct page as [p|]; [|done].
    apply holders_le_intro; cbn; try done. rewrite count_app. cbn. lia.
  - destruct (activeMenu w); [|done].
    apply holders_le_intro; cbn; try done. rewrite count_app. cbn. lia.
Qed.

(** No step other than [setEphemeralState] adds a place where a link
    intent sits. *)
Lemma step_holders k e w :
  consistent w -> is_link e = false -> (holders k (step e w) <= holders k w)%nat.
Proof.
  intros H He.
  destruct e as [subpath| |f| | |source data|seq|seq buffer|seq m|seq|s]; try done; cbn [step].
  - etrans; [apply onLoadFile_holders; keep_consistent H|done].
  - destruct (cleanup_fields w (c_listeners w H) (c_timers w H))
      as (_ & _ & _ & _ & _ & _ & _ & H1 & H2 & H3 & H4 & _).
    unfold onUnloadFile, holders. by rewrite H1, H2, H3, H4.
  - destruct (cleanup_fields w (c_listeners w H) (c_timers w H))
      as (_ & _ & _ & _ & _ & _ & _ & H1 & H2 & H3 & H4 & _).
    unfold onClose, holders. cbn. by rewrite H1, H2, H3, H4.
  - rewrite (c_listeners w H). destruct (messageHandler w) as [h|]; [|done].
    cbn [fold_left]. by apply messageHandler_of_holders.
  - destruct (existsb _ _); [|done].
    destruct (is_seq _ _); [|done].
    destruct (find_task seq _); [|done].
    etrans; [apply after_reject_holders|done].
  - destruct (find_task seq w) as [t|] eqn:Ht; [|done].
    pose proof (find_task_Some seq w t Ht) as [Hin Hseq].
    destruct (t_buffer t); try done.
    assert (Hb : (holders k (update_task seq (set_buffer (ReadOk buffer)) w) <= holders k w)%nat).
    { unfold holders, update_task. cbn. by rewrite count_buffer. }
    destruct (t_stage t) eqn:Hst; try done.
    etrans; [apply after_buffer_holders|exact Hb].
    intros a Ha Hs. cbn in Ha. apply list_elem_of_fmap in Ha as (a0 & -> & Ha0).
    assert (t_seq a0 = seq) as Hs0.
    { destruct (Nat.eqb_spec (t_seq a0) seq); [done|]. congruence. }
    rewrite (tasks_unique seq w t a0 H Ht Ha0 Hs0), Hseq, Nat.eqb_refl.
    unfold task_live. cbn. by rewrite Hst.
  - destruct (find_task seq w) as [t|] eqn:Ht; [|done].
    destruct (t_buffer t); try done.
    assert (Hb : (holders k (update_task seq (set_buffer (ReadFailed m)) w) <= holders k w)%nat).
    { unfold holders, update_task. cbn. by rewrite count_buffer. }
    destruct (t_stage t); try done.
    etrans; [apply render_catch_holders|exact Hb].
  - destruct (find_task seq w) as [t|] eqn:Ht; [|done].
    pose proof (find_task_Some seq w t Ht) as [Hin Hseq].
    destruct (t_stage t) eqn:Hst; try done. destruct (t_buffer t); try done.
    apply after_settle_holders; [done..|]. unfold task_live. by rewrite Hst.
Qed.

Lemma carries_fresh k w :
  once k w -> (clicks w <= k)%nat ->
  count (task_carries k) (tasks w) = 0%nat /\ count (load_carries k) (trace w) = 0%nat /\
  carries k (pendingPage w) (pendingHighlight w) = false.
Proof.
  intros [_ H0] Hk. specialize (H0 Hk). unfold holders in H0.
  destruct (carries k (pendingPage w) (pendingHighlight w)); [lia|]. lia.
Qed.

Lemma setEphemeralState_fields subpath w w' :
  setEphemeralState subpath w = Ok w' ->
  clicks w' = S (clicks w) /\ tasks w' = tasks w /\ trace w' = trace w /\
  renderSeq w' = renderSeq w /\
  (pendingPage w' = pendingPage w \/
   exists p, pendingPage w' = Some (Tag (Some (clicks w)) p)) /\
  (pendingHighlight w' = pendingHighlight w \/ pendingHighlight w' = None \/
   exists q, pendingHighlight w' = Some (Tag (Some (clicks w)) q)).
Proof.
  unfold setEphemeralState. cbv zeta.
  generalize (default [] subpath). intros s.
  destruct (subpath_q s) as [tok|]; [destruct (decodeURIComponent tok) as [h|]|];
    destruct (subpath_page s) as [p|]; try discriminate; intros [= <-]; cbn;
    repeat (split; [done|]).
  - split; [right; by eexists|]. destruct (decode_quote h); cbn; [right; right; by eexists|by right; left].
  - split; [by left|]. destruct (decode_quote h); cbn; [right; right; by eexists|by right; left].
  - split; [right; by eexists|by left].
  - split; by left.
Qed.

Lemma has_tag_other {A : Type} k c (v : A) :
  k <> c -> has_tag k (Some (Tag (Some c) v)) = false.
Proof. intros Hne. cbn. by destruct (Nat.eqb_spec c k). Qed.

Lemma setEphemeralState_once k subpath w w' :
  setEphemeralState subpath w = Ok w' -> once k w -> once k w'.
Proof.
  intros (Hc & Ht & Htr & _ & Hpp & Hph)%setEphemeralState_fields Hk.
  destruct (decide (k = clicks w)) as [->|Hne].
  - destruct (carries_fresh (clicks w) w Hk ltac:(done)) as (H1 & H2 & _).
    split; [|lia]. unfold holders. rewrite Ht, Htr, H1, H2.
    destruct (carries _ _ _); lia.
  - assert (holders k w' <= holders k w)%nat as Hle.
    { apply holders_le_intro; [|by rewrite Ht|by rewrite Htr].
      unfold carries. intros [Hp|Hh]%orb_true_iff.
      - destruct Hpp as [E|[p E]]; rewrite E in Hp; [by rewrite Hp|].
        by rewrite has_tag_other in Hp.
      - destruct Hph as [E|[E|[q E]]]; rewrite E in Hh;
          [by rewrite Hh, orb_true_r|done|by rewrite has_tag_other in Hh]. }
    destruct Hk as [Hk1 Hk2]. split; [lia|]. intros Hkc. rewrite Hc in Hkc.
    assert (holders k w = 0)%nat by (apply Hk2; lia). lia.
Qed.

Lemma cleanup_clicks w : clicks (cleanup w) = clicks w.
Proof.
  unfold cleanup, cleanup_run. destruct (messageHandler w); cbn; by destruct (initWait w).
Qed.

Lemma render_clicks file_arg page highlight w :
  clicks (render file_arg page highlight w) = clicks w.
Proof.
  unfold render. destruct (nullish _ _); [|done]. destruct (negb _); [done|].
  cbn -[cleanup]. by rewrite cleanup_clicks.
Qed.

Lemma after_buffer_clicks t w : clicks (after_buffer t w) = clicks w.
Proof. unfold after_buffer. by destruct (negb _). Qed.

Lemma after_ready_clicks t w : clicks (after_ready t w) = clicks w.
Proof.
  unfold after_ready. destruct (t_stage t); try done.
  destruct (t_buffer t); try done. apply after_buffer_clicks.
Qed.

Lemma after_reject_clicks t m w : clicks (after_reject t m w) = clicks w.
Proof. unfold after_reject. by destruct (t_stage t). Qed.

Lemma after_settle_clicks t buffer w : clicks (after_settle t buffer w) = clicks w.
Proof. rewrite after_settle_unfold. cbv zeta. by destruct (attached _ _). Qed.

Lemma messageHandler_of_clicks h source data w :
  clicks (messageHandler_of h source data w) = clicks w.
Proof.
  unfold messageHandler_of. destruct (negb _); [done|].
  destruct (find_task h w) as [t|]; [|done].
  destruct data as [| |m|text page|page| |]; try done.
  - destruct (is_seq _ _); [|done]. by rewrite after_ready_clicks.
  - destruct (is_seq _ _); [|done]. by rewrite after_reject_clicks.
  - unfold showSelectionContextMenu.
    destruct (file w); [|done]. destruct (iframeEl w); [|done]. destruct (trim _); [done|].
    destruct (build_menu _ _ _); [|done]. by destruct (activeMenu w).
  - by destruct page.
  - by destruct (activeMenu w).
Qed.

Lemma step_clicks e w : is_link e = false -> clicks (step e w) = clicks w.
Proof.
  intros He.
  destruct e as [subpath| |f| | |source data|seq|seq buffer|seq m|seq|s]; try done; cbn [step].
  - unfold onLoadFile. by rewrite render_clicks.
  - apply cleanup_clicks.
  - unfold onClose. cbn. apply cleanup_clicks.
  - generalize (listeners w). intros hs. revert w.
    induction hs as [|h hs IH]; intros w; [done|].
    cbn [fold_left]. by rewrite IH, messageHandler_of_clicks.
  - destruct (existsb _ _); [|done]. destruct (is_seq _ _); [|done].
    destruct (find_task seq _); [|done]. by rewrite after_reject_clicks.
  - destruct (find_task seq w) as [t|]; [|done]. destruct (t_buffer t); try done.
    destruct (t_stage t); try done. by rewrite after_buffer_clicks.
  - destruct (find_task seq w) as [t|]; [|done]. destruct (t_buffer t); try done.
    by destruct (t_stage t).
  - destruct (find_task seq w) as [t|]; [|done]. destruct (t_stage t); try done.
    destruct (t_buffer t); try done. by rewrite after_settle_clicks.
Qed.

Lemma step_once k e w : consistent w -> once k w -> once k (step e w).
Proof.
  intros H Hk. destruct (is_link e) eqn:He.
  - destruct e as [subpath| | | | | | | | | |]; try done. cbn [step].
    destruct (setEphemeralState subpath w) as [w'|err] eqn:E.
    + by eapply setEphemeralState_once.
    + destruct Hk as [Hk1 Hk2]. unfold once.
      assert (holders k (emit (Uncaught err) (set_clicks (S (clicks w)) w)) = holders k w) as ->.
      { unfold holders. cbn. rewrite count_app. cbn. lia. }
      split; [done|]. cbn. intros ?. apply Hk2. lia.
  - pose proof (step_holders k e w H He) as Hle.
    pose proof (step_clicks e w He) as Hc.
    destruct Hk as [Hk1 Hk2]. split; [lia|]. rewrite Hc. intros Hkc.
    specialize (Hk2 Hkc). lia.
Qed.

Lemma run_once k es w : consistent w -> once k w -> once k (run es w).
Proof.
  revert w. induction es as [|e es IH]; intros w H Hk; [done|].
  cbn. apply IH; [by apply step_consistent|by apply step_once].
Qed.

Lemma initial_once k pages : once k (initial pages).
Proof. unfold once, holders. cbn. lia. Qed.

(** *** Opens that no link reaches *)

Lemma link_free_intro n w w' :
  link_free n w ->
  pendingPage w' = pendingPage w -> pendingHighlight w' = pendingHighlight w ->
  (forall t', t' ∈ tasks w' ->
     exists t, t ∈ tasks w /\ t_seq t' = t_seq t /\ t_page t' = t_page t /\
               t_highlight t' = t_highlight t) ->
  (forall m, PostLoad m ∈ trace w' -> PostLoad m ∈ trace w) ->
  link_free n w'.
Proof.
  intros (Hp & Hh & Ht & Hl) Hp' Hh' Ht' Hl'. split; [congruence|]. split; [congruence|]. split.
  - intros t' Hin Hn. destruct (Ht' t' Hin) as (t & Hin0 & E1 & E2 & E3).
    rewrite E2, E3. apply Ht; [done|]. by rewrite <- E1.
  - intros m Hin. by apply Hl, Hl'.
Qed.

Lemma update_same seq f (l : list task) t' :
  (forall t, t_seq (f t) = t_seq t /\ t_page (f t) = t_page t /\
             t_highlight (f t) = t_highlight t) ->
  t' ∈ map (λ t, if Nat.eqb (t_seq t) seq then f t else t) l ->
  exists t, t ∈ l /\ t_seq t' = t_seq t /\ t_page t' = t_page t /\
            t_highlight t' = t_highlight t.
Proof.
  intros Hf (t & -> & Hin)%list_elem_of_fmap. exists t. split; [done|].
  destruct (Nat.eqb (t_seq t) seq); [apply Hf|done].
Qed.

Ltac keep_link_free H :=
  eapply link_free_intro;
  [exact H
  |cbn; try reflexivity
  |cbn; try reflexivity
  |cbn; first [by eauto 10|intros ? ?; eapply update_same; [|eassumption]; by intros []]
  |let Hin := fresh "Hin" in
   cbn; intros ? Hin;
   repeat (apply elem_of_snoc in Hin as [Hin|Hin]; [|try discriminate]);
   try done].

Lemma render_catch_link_free n seq message w :
  link_free n w -> link_free n (render_catch seq message w).
Proof. intros H. unfold render_catch, finish, showError, emit, update_task. keep_link_free H. Qed.

Lemma after_buffer_link_free n t w : link_free n w -> link_free n (after_buffer t w).
Proof.
  intros H. unfold after_buffer, finish, update_task. destruct (negb _); keep_link_free H.
Qed.

Lemma after_ready_link_free n t w : link_free n w -> link_free n (after_ready t w).
Proof.
  intros H. unfold after_ready. destruct (t_stage t); try done. destruct (t_buffer t).
  - unfold update_task. keep_link_free H.
  - by apply after_buffer_link_free.
  - by apply render_catch_link_free.
Qed.

Lemma after_reject_link_free n t message w :
  link_free n w -> link_free n (after_reject t message w).
Proof.
  intros H. unfold after_reject. destruct (t_stage t); try done.
  by apply render_catch_link_free.
Qed.

Lemma after_settle_link_free n t buffer w :
  link_free n w -> t ∈ tasks w -> link_free n (after_settle t buffer w).
Proof.
  intros H Hin. rewrite after_settle_unfold. cbv zeta.
  destruct H as (Hp & Hh & Ht & Hl).
  unfold finish, update_task, emit.
  destruct (attached (t_seq t) w); (split; [done|split; [done|split]]); cbn.
  - intros t' Hin' Hn. eapply update_same in Hin' as (t0 & Hin0 & E1 & E2 & E3);
      [|by intros []]. rewrite E2, E3. apply Ht; [done|]. by rewrite <- E1.
  - intros m [Hm|Hm]%elem_of_snoc Hn; [by apply Hl|].
    injection Hm as ->. cbn in *. rewrite Hp, Hh. cbn.
    destruct (Ht t Hin Hn) as [H1 H2]. split; [done|]. by rewrite H2.
  - intros t' Hin' Hn. eapply update_same in Hin' as (t0 & Hin0 & E1 & E2 & E3);
      [|by intros []]. rewrite E2, E3. apply Ht; [done|]. by rewrite <- E1.
  - done.
Qed.

Lemma cleanup_link_free n w : consistent w -> link_free n w -> link_free n (cleanup w).
Proof.
  intros H Hf. destruct (cleanup_fields w (c_listeners w H) (c_timers w H))
    as (_ & _ & _ & _ & _ & _ & _ & H1 & H2 & H3 & H4 & _).
  eapply link_free_intro; [exact Hf|done|done| |].
  - rewrite H1. by eauto 10.
  - by rewrite H2.
Qed.

Lemma onLoadFile_link_free n f w :
  consistent w -> link_free n w -> link_free n (onLoadFile f w).
Proof.
  intros H Hfree. unfold onLoadFile. destruct Hfree as (Hp & Hh & Ht & Hl).
  rewrite Hp, Hh. cbn [nullish].
  set (page := Tag None <$> getFilePage (path f) (filePages w)).
  set (w1 := set_pendingHighlight None (set_pendingPage None w)).
  assert (H1 : consistent w1) by (unfold w1; keep_consistent H).
  destruct (is_djvu f) eqn:Hf.
  - destruct (render_fields f page None w1 H1 Hf)
      as (_ & _ & _ & _ & _ & _ & _ & Hts & Htr & Hpp & Hph & _).
    split; [by rewrite Hpp|]. split; [by rewrite Hph|]. split.
    + rewrite Hts. intros t' [Hin|Hin]%elem_of_snoc Hn; [by apply Ht|].
      subst t'. cbn. split; [|done]. unfold page. by destruct (getFilePage _ _).
    + rewrite Htr. apply Hl.
  - unfold render. cbn [nullish]. rewrite Hf. cbn [negb]. by split.
Qed.

Lemma messageHandler_of_link_free n h source data w :
  consistent w -> link_free n w -> link_free n (messageHandler_of h source data w).
Proof.
  intros Hc H. unfold messageHandler_of.
  destruct (negb _); [done|].
  destruct (find_task h w) as [t|] eqn:Ht; [|done].
  destruct data as [| |m|text page|page| |]; try done.
  - destruct (is_seq (initWait w) h) eqn:Hw; [|done].
    apply after_ready_link_free. keep_link_free H.
  - destruct (is_seq (initWait w) h) eqn:Hw; [|done].
    apply after_reject_link_free. keep_link_free H.
  - unfold showSelectionContextMenu.
    destruct (file w) as [f|]; [|done]. destruct (iframeEl w); [|done].
    destruct (trim _); [done|].
    destruct (build_menu _ _ _); [|unfold emit; keep_link_free H].
    destruct (activeMenu w); unfold emit; keep_link_free H.
  - destruct page as [p|]; [|done]. unfold emit. keep_link_free H.
  - destruct (activeMenu w); [|done]. unfold emit. keep_link_free H.
Qed.

Lemma step_link_free n e w :
  consistent w -> is_link e = false -> link_free n w -> link_free n (step e w).
Proof.
  intros Hc He H.
  destruct e as [subpath| |f| | |source data|seq|seq buffer|seq m|seq|s]; try done; cbn [step].
  - apply onLoadFile_link_free; [keep_consistent Hc|keep_link_free H].
  - by apply cleanup_link_free.
  - unfold onClose. pose proof (cleanup_link_free n w Hc H) as H'. keep_link_free H'.
  - rewrite (c_listeners w Hc). destruct (messageHandler w) as [h|]; [|done].
    cbn [fold_left]. by apply messageHandler_of_link_free.
  - destruct (existsb _ _); [|done]. destruct (is_seq _ _); [|keep_link_free H].
    destruct (find_task seq _); [|keep_link_free H].
    apply after_reject_link_free. keep_link_free H.
  - destruct (find_task seq w) as [t|] eqn:Ht; [|done].
    destruct (t_buffer t); try done.
    assert (link_free n (update_task seq (set_buffer (ReadOk buffer)) w)) as H'.
    { unfold update_task. keep_link_free H. }
    destruct (t_stage t); try done. by apply after_buffer_link_free.
  - destruct (find_task seq w) as [t|] eqn:Ht; [|done].
    destruct (t_buffer t); try done.
    assert (link_free n (update_task seq (set_buffer (ReadFailed m)) w)) as H'.
    { unfold update_task. keep_link_free H. }
    destruct (t_stage t); try done. by apply render_catch_link_free.
  - destruct (find_task seq w) as [t|] eqn:Ht; [|done].
    destruct (t_stage t); try done. destruct (t_buffer t); try done.
    apply after_settle_link_free; [done|]. by apply find_task_Some in Ht as [? _].
Qed.

Lemma run_link_free n es w :
  consistent w -> forallb (λ e, negb (is_link e)) es = true ->
  link_free n w -> link_free n (run es w).
Proof.
  revert w. induction es as [|e es IH]; intros w Hc Hes H; [done|].
  cbn in Hes. apply andb_true_iff in Hes as [He Hes]. apply negb_true_iff in He.
  cbn. apply IH; [by apply step_consistent|done|by apply step_link_free].
Qed.

End Steps.

End Machine.

(** ** Opening a document *)

Module Session.
Import TextFacts Machine.

Section WithEngine.
Context {engine : JsEngine}.

Lemma find_task_update seq f w :
  (forall t, t_seq (f t) = t_seq t) ->
  find_task seq (update_task seq f w) = f <$> find_task seq w.
Proof.
  intros Hf. unfold find_task, update_task. cbn.
  induction (tasks w) as [|a l IH]; [done|]. cbn.
  destruct (Nat.eqb_spec (t_seq a) seq) as [E|E].
  - by rewrite Hf, E, Nat.eqb_refl.
  - destruct (Nat.eqb_spec (t_seq a) seq); [done|]. exact IH.
Qed.

Lemma find_task_tasks seq w w' : tasks w = tasks w' -> find_task seq w = find_task seq w'.
Proof. unfold find_task. by intros ->. Qed.

Lemma find_task_new w t :
  consistent w -> t_seq t = S (renderSeq w) ->
  find (λ a, Nat.eqb (t_seq a) (S (renderSeq w))) (tasks w ++ [t]) = Some t.
Proof.
  intros H Ht. pose proof (c_tasks w H) as Hall.
  induction Hall as [|a l Ha _ IH]; cbn.
  - by rewrite Ht, Nat.eqb_refl.
  - destruct (Nat.eqb_spec (t_seq a) (S (renderSeq w))); [lia|done].
Qed.

Lemma is_djvu_ascii f :
  extension f = lit "djvu" \/ extension f = lit "djv" \/
  extension f = lit "DJVU" \/ extension f = lit "DjVu" ->
  is_djvu f = true.
Proof.
  unfold is_djvu. intros [-> | [-> | [-> | ->]]]; rewrite toLowerCase_ascii by done; done.
Qed.

(** An open that runs its course: the file is accepted, the frame reports
    ready, the bytes arrive, a link may still come in during the 50 ms
    wait, and the load is posted. *)
Lemma open_run (w : world) (f : TFile) (buffer : list N) (late : option N) :
  consistent w -> is_djvu f = true ->
  let seq := S (renderSeq w) in
  let link := match late with
              | Some p => [SetEphemeralState (Some (lit "page=" ++ toString p))]
              | None => []
              end in
  let w' := run ([LoadFile f; Message seq DJVU_READY; ReadResolved seq buffer] ++ link
                 ++ [SettleDone seq]) w in
  exists m,
    trace w' = trace w ++ [PostLoad m] /\ lm_frame m = seq /\ lm_buffer m = buffer /\
    lm_name m = name f /\
    value <$> lm_page m =
      nullish late (nullish (value <$> pendingPage w) (getFilePage (path f) (filePages w))) /\
    value <$> lm_highlight m = value <$> pendingHighlight w /\
    pendingPage w' = None /\ pendingHighlight w' = None.
Proof.
  intros H Hf seq link.
  (* onLoadFile *)
  set (page := nullish (pendingPage w) (Tag None <$> getFilePage (path f) (filePages w))).
  set (new := {| t_seq := seq; t_file := f; t_page := page; t_highlight := pendingHighlight w;
                 t_stage := AwaitReady; t_buffer := Reading |}).
  set (w0 := set_pendingHighlight None (set_pendingPage None (set_file (Some f) w))).
  assert (H0 : consistent w0) by (unfold w0; keep_consistent H).
  remember (step (LoadFile f) w) as w1 eqn:D1.
  assert (E1 : w1 = render (Some f) page (pendingHighlight w) w0) by by rewrite D1.
  destruct (render_fields f page (pendingHighlight w) w0 H0 Hf)
    as (R1 & R2 & R3 & R4 & R5 & R6 & R7 & R8 & R9 & R10 & R11 & R12 & R13 & R14 & R15 & R16).
  rewrite <- E1 in *. clear E1.
  change (renderSeq w0) with (renderSeq w) in *. change (tasks w0) with (tasks w) in *.
  change (trace w0) with (trace w) in *. fold seq new in R1, R2, R3, R4, R5, R6, R7, R8.
  assert (H1 : consistent w1) by (rewrite D1; by apply step_consistent).
  assert (F1 : find_task seq w1 = Some new).
  { unfold find_task. rewrite R8. by apply find_task_new. }
  (* DJVU_READY *)
  remember (step (Message seq DJVU_READY) w1) as w2 eqn:D2.
  assert (E2 : w2 = update_task seq (set_stage AwaitBuffer)
                      (set_initWait None (set_timers (without seq (timers w1)) w1))).
  { rewrite D2. cbn [step]. rewrite R3. cbn [fold_left]. unfold messageHandler_of.
    unfold attached. rewrite R7, Nat.eqb_refl, F1, R4. cbn. by rewrite Nat.eqb_refl. }
  assert (H2 : consistent w2) by (rewrite D2; by apply step_consistent).
  assert (S2 : renderSeq w2 = seq) by (by rewrite E2).
  assert (F2 : find_task seq w2 = Some (set_stage AwaitBuffer new)).
  { rewrite E2, find_task_update by by intros [].
    by rewrite (find_task_tasks seq _ w1), F1. }
  (* the bytes *)
  remember (step (ReadResolved seq buffer) w2) as w3 eqn:D3.
  assert (E3 : w3 = update_task seq (set_stage Settling)
                      (update_task seq (set_buffer (ReadOk buffer)) w2)).
  { rewrite D3. cbn [step]. rewrite F2. cbn. unfold after_buffer. cbn.
    rewrite S2. unfold seq. cbn. by rewrite Nat.eqb_refl. }
  assert (H3 : consistent w3) by (rewrite D3; by apply step_consistent).
  assert (F3 : find_task seq w3
               = Some (set_stage Settling (set_buffer (ReadOk buffer) (set_stage AwaitBuffer new)))).
  { rewrite E3, !find_task_update by by intros []. by rewrite F2. }
  assert (C3 : content w3 = ViewerRoot seq (lit "Loading DjVu" ++ [8230])).
  { rewrite E3, E2. cbn. exact R7. }
  assert (T3 : trace w3 = trace w).
  { rewrite E3, E2. cbn. exact R9. }
  assert (P3 : pendingPage w3 = None /\ pendingHighlight w3 = None).
  { rewrite E3, E2. cbn. by rewrite R10, R11. }
  (* a late link *)
  set (w4 := run link w3).
  assert (L4 : find_task seq w4 = find_task seq w3 /\ content w4 = content w3 /\
               trace w4 = trace w3 /\ pendingHighlight w4 = None /\
               value <$> pendingPage w4 = late).
  { unfold w4, link. destruct late as [p|]; [|cbn [run fold_left]; by destruct P3 as [-> ->]].
    cbn [run fold_left step].
    assert (Hs : setEphemeralState (Some (lit "page=" ++ toString p)) w3
                 = Ok (set_pendingPage (Some (Tag (Some (clicks w3)) p))
                         (set_clicks (S (clicks w3)) w3))).
    { unfold setEphemeralState.
      change (default [] (Some (lit "page=" ++ toString p))) with (lit "page=" ++ toString p).
      cbv zeta. destruct (toString_spec p) as (Hne & Hd & Hp).
      destruct (Codec.subpath_page_only (toString p) Hne Hd) as [-> ->].
      by rewrite Hp. }
    rewrite Hs. cbn. by destruct P3 as [_ ->]. }
  destruct L4 as (F4 & C4 & T4 & Ph4 & Pp4).
  (* the load *)
  assert (Erun : run ([LoadFile f; Message seq DJVU_READY; ReadResolved seq buffer] ++ link
                      ++ [SettleDone seq]) w = step (SettleDone seq) w4).
  { rewrite !run_app. unfold w4. by rewrite D3, D2, D1. }
  cbv zeta. rewrite Erun. cbn [step]. rewrite F4, F3. cbn [t_stage t_buffer set_stage set_buffer].
  rewrite after_settle_unfold. cbv zeta. unfold attached. rewrite C4, C3.
  cbn [t_seq set_stage set_buffer new]. rewrite Nat.eqb_refl.
  eexists. split; [cbn; by rewrite T4, T3|]. cbn.
  split; [done|]. split; [done|]. split; [done|]. split.
  - rewrite <- Pp4. destruct (pendingPage w4) as [[o v]|]; [done|]. cbn. unfold page.
    destruct (pendingPage w) as [[]|]; [done|]. cbn. by destruct (getFilePage _ _).
  - split; [|done]. rewrite Ph4. cbn. by destruct (pendingHighlight w).
Qed.



(** *** Link intent *)

Lemma cleanup_pending w :
  pendingPage (cleanup w) = pendingPage w /\ pendingHighlight (cleanup w) = pendingHighlight w.
Proof.
  unfold cleanup, cleanup_run. destruct (messageHandler w); cbn; by destruct (initWait w).
Qed.

Lemma render_pending file_arg page highlight w :
  pendingPage (render file_arg page highlight w) = pendingPage w /\
  pendingHighlight (render file_arg page highlight w) = pendingHighlight w.
Proof.
  unfold render. destruct (nullish _ _); [|done]. destruct (negb _); [done|].
  cbn -[cleanup]. apply (cleanup_pending (set_renderSeq _ w)).
Qed.

Lemma onLoadFile_pending f w :
  pendingPage (onLoadFile f w) = None /\ pendingHighlight (onLoadFile f w) = None.
Proof. unfold onLoadFile. cbv zeta. apply render_pending. Qed.

Lemma after_settle_pending t buffer w :
  pendingPage (after_settle t buffer w) = None /\
  pendingHighlight (after_settle t buffer w) = None.
Proof. rewrite after_settle_unfold. cbv zeta. by destruct (attached _ _). Qed.

Lemma load_count_holders k w : (count (load_carries k) (trace w) <= holders k w)%nat.
Proof. unfold holders. lia. Qed.

(** With nothing pending, whatever starts later starts without a link. *)
Lemma link_free_now w :
  consistent w -> pendingPage w = None -> pendingHighlight w = None ->
  link_free (renderSeq w) w.
Proof.
  intros H Hp Hh. split; [done|]. split; [done|]. split.
  - intros t Ht Hlt. pose proof (c_tasks w H) as Hall.
    rewrite Forall_forall in Hall. specialize (Hall t Ht). cbn in Hall. lia.
  - intros m Hm Hlt. pose proof (c_loads w H) as Hall.
    rewrite Forall_forall in Hall. specialize (Hall _ Hm m eq_refl). lia.
Qed.

(** C10. Link intent is consumed at most once. [onLoadFile] resets the
    pending page and the pending highlight to null, and so does [render]
    once it has computed the final target after the 50 ms wait. In every
    run of the view, what one call of [setEphemeralState] set is carried
    by at most one load command; and from a state with nothing pending, a
    run without further links posts, for the opens it starts, only loads
    whose page was read from the position store and whose quote is null. *)
Theorem link_intent_consumed_once :
  (forall f w, pendingPage (onLoadFile f w) = None /\ pendingHighlight (onLoadFile f w) = None) /\
  (forall t buffer w, pendingPage (after_settle t buffer w) = None /\
                      pendingHighlight (after_settle t buffer w) = None) /\
  (forall es pages k, (count (load_carries k) (trace (run es (initial pages))) <= 1)%nat) /\
  (forall es1 es2 pages m,
     let w := run es1 (initial pages) in
     pendingPage w = None -> pendingHighlight w = None ->
     forallb (λ e, negb (is_link e)) es2 = true ->
     PostLoad m ∈ trace (run es2 w) -> (renderSeq w < lm_frame m)%nat ->
     from_store (lm_page m) /\ lm_highlight m = None).
Proof.
  split; [exact onLoadFile_pending|]. split; [exact after_settle_pending|]. split.
  - intros es pages k.
    destruct (run_once k es (initial pages) (initial_consistent pages) (initial_once k pages))
      as [Hle _].
    pose proof (load_count_holders k (run es (initial pages))). lia.
  - intros es1 es2 pages m w Hp Hh Hes Hm Hlt.
    assert (H : consistent w) by apply run_consistent, initial_consistent.
    destruct (run_link_free (renderSeq w) es2 w H Hes (link_free_now w H Hp Hh))
      as (_ & _ & _ & Hloads).
    by apply Hloads.
Qed.

(** *** Responses of a render that is no longer the current one *)

(** A message from an earlier frame reaches no handler. *)
Lemma stale_message_dropped source data w :
  consistent w -> source <> renderSeq w -> step (Message source data) w = w.
Proof.
  intros H Hs. cbn [step]. rewrite (c_listeners w H).
  destruct (c_handler w H) as [-> | ->]; [done|]. cbn [fold_left].
  unfold messageHandler_of. by destruct (Nat.eqb_spec source (renderSeq w)).
Qed.

(** The 15 s timer of an earlier render was cleared when the next one began. *)
Lemma stale_timer_dropped seq w :
  consistent w -> seq <> renderSeq w -> step (TimerFired seq) w = w.
Proof.
  intros H Hs. cbn [step]. rewrite (c_timers w H).
  destruct (c_wait w H) as [-> | ->]; [done|]. cbn.
  by destruct (Nat.eqb_spec seq (renderSeq w)).
Qed.

(** The bytes of an earlier render arrive: its sequence check ends it. *)
Lemma stale_read_dropped seq buffer w :
  consistent w -> seq <> renderSeq w ->
  let w' := step (ReadResolved seq buffer) w in
  same_view w (set_tasks (tasks w) w') /\ trace w' = trace w /\ filePages w' = filePages w.
Proof.
  intros H Hs. cbn [step]. destruct (find_task seq w) as [t|] eqn:Ht; [|done].
  apply find_task_Some in Ht as [Ht1 Ht2].
  destruct (t_buffer t); try done. destruct (t_stage t); try done.
  unfold after_buffer. cbn. rewrite Ht2.
  by destruct (Nat.eqb_spec seq (renderSeq w)).
Qed.

End WithEngine.


(** The three cases of the specification, run: stored page 7 and a link to
    page 3, stored page 7 alone, and neither. *)
Example open_stored_7_link_3 :
  let f := {| path := lit "a.djvu"; name := lit "a.djvu"; extension := lit "djvu" |} in
  trace (run (engine := ascii_engine)
           [SetEphemeralState (Some (lit "page=3")); LoadFile f; Message 1 DJVU_READY;
            ReadResolved 1 [65; 84]; SettleDone 1]
           (initial {[ lit "a.djvu" := 7 ]}))
  = [PostLoad {| lm_frame := 1; lm_buffer := [65; 84]; lm_name := lit "a.djvu";
                 lm_page := Some (Tag (Some 0%nat) 3); lm_highlight := None |}].
Proof. reflexivity. Qed.

Example open_stored_7 :
  let f := {| path := lit "a.djvu"; name := lit "a.djvu"; extension := lit "djvu" |} in
  trace (run (engine := ascii_engine)
           [LoadFile f; Message 1 DJVU_READY; ReadResolved 1 [65; 84]; SettleDone 1]
           (initial {[ lit "a.djvu" := 7 ]}))
  = [PostLoad {| lm_frame := 1; lm_buffer := [65; 84]; lm_name := lit "a.djvu";
                 lm_page := Some (Tag None 7); lm_highlight := None |}].
Proof. reflexivity. Qed.

Example open_unknown :
  let f := {| path := lit "a.djvu"; name := lit "a.djvu"; extension := lit "djvu" |} in
  let w := run (engine := ascii_engine)
             [LoadFile f; Message 1 DJVU_READY; ReadResolved 1 [65; 84]; SettleDone 1]
             (initial ∅) in
  getFilePage (lit "a.djvu") ∅ = None /\
  trace w = [PostLoad {| lm_frame := 1; lm_buffer := [65; 84]; lm_name := lit "a.djvu";
                         lm_page := None; lm_highlight := None |}] /\
  viewer_page (load_config None) = 1.
Proof. repeat split; reflexivity. Qed.

(** A link with page 3 and quote abc; the file is opened twice. The second
    open starts with nothing pending and loads without page or quote. *)
Lemma link_intent_consumed_once_witness :
  let f := {| path := lit "a.djvu"; name := lit "a.djvu"; extension := lit "djvu" |} in
  let es1 := [SetEphemeralState (Some (lit "page=3&q=YWJj")); LoadFile f; Message 1 DJVU_READY;
              ReadResolved 1 [65; 84]; SettleDone 1] in
  let es2 := [LoadFile f; Message 2 DJVU_READY; ReadResolved 2 [65; 84]; SettleDone 2] in
  let m := {| lm_frame := 2; lm_buffer := [65; 84]; lm_name := lit "a.djvu";
              lm_page := None; lm_highlight := None |} in
  PostLoad m ∈ trace (run (engine := ascii_engine) es2
                        (run (engine := ascii_engine) es1 (initial ∅))) /\
  from_store (lm_page m) /\ lm_highlight m = None.
Proof.
  intros f es1 es2 m.
  assert (Hin : PostLoad m ∈ trace (run (engine := ascii_engine) es2
                                      (run (engine := ascii_engine) es1 (initial ∅)))).
  { vm_compute. right. left. }
  split; [exact Hin|].
  exact (proj2 (proj2 (proj2 (@link_intent_consumed_once ascii_engine))) es1 es2 ∅ m
           eq_refl eq_refl eq_refl Hin (le_n 2)).
Defined.

(** C1. Stale-session drop. Document A is opened and its frame reports
    ready; while A waits for its bytes document B is opened, which makes
    render number 2 the current one. Then the read of A fails. The
    [catch] of [render] has no sequence check: the late failure of A
    replaces the viewer of B by the error panel and shows a notice, and B,
    whose frame is gone from the document, never gets its load. *)
Theorem stale_read_failure_replaces_view :
  let fA := {| path := lit "a.djvu"; name := lit "a.djvu"; extension := lit "djvu" |} in
  let fB := {| path := lit "b.djvu"; name := lit "b.djvu"; extension := lit "djvu" |} in
  let before := run (engine := ascii_engine)
                  [LoadFile fA; Message 1 DJVU_READY; LoadFile fB] (initial ∅) in
  let after := step (engine := ascii_engine) (ReadRejected 1 (lit "gone")) before in
  let later := run (engine := ascii_engine)
                 [Message 2 DJVU_READY; ReadResolved 2 [65; 84]; SettleDone 2] after in
  renderSeq before = 2%nat /\
  (t_stage <$> find_task 1 before) = Some AwaitBuffer /\
  content before = ViewerRoot 2 (lit "Loading DjVu" ++ [8230]) /\
  trace before = [] /\
  content after = ErrorPanel (lit "Failed to open DjVu: gone") /\
  trace after = [ShowNotice (lit "DjVu reader: gone")] /\
  content later = ErrorPanel (lit "Failed to open DjVu: gone") /\
  trace later = [ShowNotice (lit "DjVu reader: gone")].
Proof. cbv zeta. repeat split; reflexivity. Qed.

End Session.

(** ** The steps of the view, one by one *)

Module Moves.
Import Machine.

Lemma cleanup_cleared w :
  listeners w = match messageHandler w with Some h => [h] | None => [] end ->
  timers w = match initWait w with Some s => [s] | None => [] end ->
  cleanup w = cleared w.
Proof.
  destruct w as [f fr mh rs iw pp ph am fp c cc ls ts tk tr ck]. cbn.
  intros -> ->. unfold cleanup, cleanup_run, cleared.
  destruct mh as [h|], iw as [s|]; cbn -[without]; rewrite ?without_self; reflexivity.
Qed.

(** The moves in the shape in which the fields can be read off. *)
Ltac read_move Hm :=
  destruct Hm;
  unfold maybe, hide_menu, started, cleared, unwait, render_catch, showError, finish,
    update_task, emit in *.

Section Steps.
Context {engine : JsEngine}.

Lemma render_started f page highlight w :
  consistent w -> is_djvu f = true ->
  render (Some f) page highlight w = started f page highlight w.
Proof.
  intros H Hf. unfold render, started. cbn [nullish]. rewrite Hf. cbn [negb]. cbv zeta.
  rewrite (cleanup_cleared (set_renderSeq (S (renderSeq w)) w));
    [reflexivity|apply (c_listeners w H)|apply (c_timers w H)].
Qed.

Lemma unwait_eq w h :
  consistent w -> is_seq (initWait w) h = true ->
  h = renderSeq w /\ initWait w = Some (renderSeq w) /\
  set_initWait None (set_timers (without h (timers w)) w) = unwait w.
Proof.
  intros H Hw. destruct (wait_cleared w h H Hw) as (Hi & _ & Hh & Hnil).
  rewrite Hnil. by subst h.
Qed.

Lemma handler_moves h source data w :
  consistent w -> messageHandler w = Some h ->
  move w (messageHandler_of h source data w).
Proof.
  intros H Hh.
  assert (h = renderSeq w) as -> by (destruct (c_handler w H); congruence).
  unfold messageHandler_of.
  destruct (Nat.eqb source (renderSeq w) && attached (renderSeq w) w) eqn:Hguard;
    cbn [negb]; [|constructor].
  apply andb_true_iff in Hguard as [_ Hatt].
  destruct (find_task (renderSeq w) w) as [t|] eqn:Ht; [|constructor].
  destruct data as [| |m|text page|page| |]; try constructor.
  - destruct (is_seq (initWait w) (renderSeq w)) eqn:Hw; [|constructor].
    destruct (unwait_eq w _ H Hw) as (_ & Hi & ->).
    unfold after_ready. destruct (t_stage t) eqn:Hst.
    + destruct (t_buffer t) eqn:Hb.
      * apply find_task_Some in Ht as Hseq. destruct Hseq as [_ ->].
        by eapply mv_ready_wait.
      * unfold after_buffer. apply find_task_Some in Ht as Hseq. destruct Hseq as [_ Hseq].
        rewrite Hseq. cbn [renderSeq unwait set_initWait set_timers].
        rewrite Nat.eqb_refl. cbn [negb]. by eapply mv_ready_go.
      * apply find_task_Some in Ht as Hseq. destruct Hseq as [_ ->].
        by eapply mv_handshake_failed.
    + apply mv_unwait; [done|]. intros t' Ht'. congruence.
    + apply mv_unwait; [done|]. intros t' Ht'. congruence.
    + apply mv_unwait; [done|]. intros t' Ht'. congruence.
  - destruct (is_seq (initWait w) (renderSeq w)) eqn:Hw; [|constructor].
    destruct (unwait_eq w _ H Hw) as (_ & Hi & ->).
    unfold after_reject. destruct (t_stage t) eqn:Hst.
    + apply find_task_Some in Ht as Hseq. destruct Hseq as [_ ->].
      by eapply mv_handshake_failed.
    + apply mv_unwait; [done|]. intros t' Ht'. congruence.
    + apply mv_unwait; [done|]. intros t' Ht'. congruence.
    + apply mv_unwait; [done|]. intros t' Ht'. congruence.
  - unfold showSelectionContextMenu.
    destruct (file w) as [f|] eqn:Hfile; [|constructor].
    destruct (iframeEl w) as [frame|] eqn:Hframe; [|constructor].
    destruct (trim _) as [|c s]; [constructor|].
    destruct (build_menu f (c :: s) (default 1 page)) as [m|e]; [|apply mv_uncaught].
    by eapply (mv_menu w f frame m).
  - destruct page as [p|]; [|constructor]. by apply (mv_save w t p).
  - destruct (activeMenu w) as [m|] eqn:Hm; [|constructor]. by eapply mv_click.
Qed.

(** One turn of the event loop is one of the moves. *)
Lemma step_moves e w : consistent w -> move w (step e w).
Proof.
  intros H. destruct e as [subpath| |f| | |source data|seq|seq buffer|seq m|seq|s]; cbn [step].
  - unfold setEphemeralState. cbv zeta. generalize (default [] subpath). intros s.
    destruct (subpath_q s) as [tok|]; [destruct (decodeURIComponent tok) as [h|]|];
      destruct (subpath_page s) as [p|]; try apply mv_throw.
    + apply (mv_link w (Some (Some (Tag (Some (clicks w)) p)))
                       (Some (Tag (Some (clicks w)) <$> decode_quote h))).
    + apply (mv_link w None (Some (Tag (Some (clicks w)) <$> decode_quote h))).
    + apply (mv_link w (Some (Some (Tag (Some (clicks w)) p))) None).
    + apply (mv_link w None None).
  - apply mv_open.
  - unfold onLoadFile. cbv zeta.
    destruct (is_djvu f) eqn:Hf.
    + rewrite render_started; [|keep_consistent H|done]. exact (mv_render w f Hf).
    + unfold render. cbn [nullish]. rewrite Hf. cbn [negb]. exact (mv_refuse w f Hf).
  - unfold onUnloadFile. rewrite cleanup_cleared; [|apply (c_listeners w H)|apply (c_timers w H)].
    apply mv_unload.
  - unfold onClose. rewrite cleanup_cleared; [|apply (c_listeners w H)|apply (c_timers w H)].
    apply mv_close.
  - rewrite (c_listeners w H). destruct (messageHandler w) as [h|] eqn:Hh; [|constructor].
    cbn [fold_left]. by apply handler_moves.
  - destruct (existsb _ _) eqn:Hex; [|constructor].
    change (is_seq (initWait (set_timers (without seq (timers w)) w)) seq)
      with (is_seq (initWait w) seq).
    destruct (is_seq (initWait w) seq) eqn:Hw.
    + destruct (unwait_eq w _ H Hw) as (-> & Hi & E).
      change (find_task (renderSeq w) (set_timers (without (renderSeq w) (timers w)) w))
        with (find_task (renderSeq w) w).
      rewrite E.
      destruct (find_task (renderSeq w) w) as [t|] eqn:Ht.
      * apply find_task_Some in Ht as Hseq. destruct Hseq as [_ Hseq].
        unfold after_reject. rewrite Hseq. destruct (t_stage t) eqn:Hst;
          [by eapply mv_handshake_failed|..]; (apply mv_unwait; [done|congruence]).
      * apply mv_unwait; [done|congruence].
    + exfalso. destruct (c_wait w H) as [Hnone|Hsome].
      * pose proof (c_timers w H) as Ht. rewrite Hnone in Ht. by rewrite Ht in Hex.
      * pose proof (c_timers w H) as Ht. rewrite Hsome in Ht. rewrite Ht in Hex.
        cbn in Hex. rewrite Hsome in Hw. cbn in Hw.
        destruct (Nat.eqb_spec seq (renderSeq w)) as [->|]; [|done].
        by rewrite Nat.eqb_refl in Hw.
  - destruct (find_task seq w) as [t|] eqn:Ht; [|constructor].
    destruct (t_buffer t) eqn:Hb; try constructor.
    destruct (t_stage t) eqn:Hst; try (eapply mv_buffer; [done..|congruence]).
    unfold after_buffer. apply find_task_Some in Ht as Hseq. destruct Hseq as [_ Hseq].
    rewrite Hseq. cbn [renderSeq update_task set_tasks].
    destruct (Nat.eqb_spec seq (renderSeq w)) as [E|E]; cbn [negb].
    + by eapply mv_read.
    + by eapply mv_read_stale.
  - destruct (find_task seq w) as [t|] eqn:Ht; [|constructor].
    destruct (t_buffer t) eqn:Hb; try constructor.
    destruct (t_stage t) eqn:Hst; try (eapply mv_buffer; [done..|congruence]).
    by eapply mv_read_failed.
  - destruct (find_task seq w) as [t|] eqn:Ht; [|constructor].
    destruct (t_stage t) eqn:Hst; try constructor.
    destruct (t_buffer t) eqn:Hb; try constructor.
    rewrite after_settle_unfold. cbv zeta.
    apply find_task_Some in Ht as Hseq. destruct Hseq as [_ Hseq]. rewrite Hseq.
    destruct (attached seq w) eqn:Hatt.
    + by eapply mv_load.
    + by eapply mv_settle_stale.
  - constructor.
Qed.


(** *** What the moves keep *)

Lemma elem_of_update seq (f : task -> task) (l : list task) t' :
  t' ∈ map (λ t, if Nat.eqb (t_seq t) seq then f t else t) l ->
  t' ∈ l /\ t_seq t' <> seq \/ exists t, t ∈ l /\ t_seq t = seq /\ t' = f t.
Proof.
  intros (t & -> & Hin)%list_elem_of_fmap.
  destruct (Nat.eqb_spec (t_seq t) seq); [right; eauto|by left].
Qed.

Lemma find_update k seq (f : task -> task) (l : list task) :
  (forall t, t_seq (f t) = t_seq t) ->
  find (λ t, Nat.eqb (t_seq t) k) (map (λ t, if Nat.eqb (t_seq t) seq then f t else t) l)
  = (λ t, if Nat.eqb (t_seq t) seq then f t else t) <$> find (λ t, Nat.eqb (t_seq t) k) l.
Proof.
  intros Hf. induction l as [|a l IH]; [done|]. cbn.
  destruct (Nat.eqb (t_seq a) seq) eqn:E1; rewrite ?Hf;
    destruct (Nat.eqb (t_seq a) k) eqn:E2; cbn; rewrite ?E1; done.
Qed.

Lemma find_new seq (l : list task) t :
  Forall (λ a, (t_seq a < seq)%nat) l -> t_seq t = seq ->
  find (λ a, Nat.eqb (t_seq a) seq) (l ++ [t]) = Some t.
Proof.
  intros Hall Ht. induction Hall as [|a l Ha _ IH]; cbn.
  - by rewrite Ht, Nat.eqb_refl.
  - destruct (Nat.eqb_spec (t_seq a) seq); [lia|done].
Qed.

Lemma load_frames_app tr1 tr2 : load_frames (tr1 ++ tr2) = load_frames tr1 ++ load_frames tr2.
Proof. apply omap_app. Qed.

Lemma load_frames_elem n tr : n ∈ load_frames tr <-> exists m, PostLoad m ∈ tr /\ lm_frame m = n.
Proof.
  unfold load_frames. rewrite list_elem_of_omap. split.
  - intros ([] & Hin & Heq); try done. injection Heq as <-. eauto.
  - intros (m & Hin & <-). by exists (PostLoad m).
Qed.

Lemma move_renderSeq w w' : move w w' -> (renderSeq w <= renderSeq w')%nat.
Proof.
  intros Hm. read_move Hm; try (cbn; lia).
  - destruct pp, ph; cbn; lia.
  - destruct (activeMenu w); cbn; lia.
Qed.

Lemma move_viewer w w' :
  consistent w -> move w w' -> viewer_current w -> viewer_current w'.
Proof.
  intros H Hm Hv.
  read_move Hm; try destruct pp, ph;
    try match goal with
        | |- context [match activeMenu w with _ => _ end] => destruct (activeMenu w)
        end;
    intros k st; cbn -[lit]; try done;
    try (intros Hc; destruct (Hv k st Hc) as (-> & Hh & Hi & t' & Ht' & Hfile);
         split; [done|]; split; [done|]; split; [done|];
         unfold find_task in *; cbn; rewrite ?find_update by (by intros []);
         rewrite Ht'; cbn; eexists; split; [done|]; rewrite Hfile;
         by repeat destruct (Nat.eqb _ _)).
  - intros [= <- <-]. split; [done|]. split; [done|]. split; [done|].
    eexists. unfold find_task. cbn.
    split; [apply find_new; [|done]; eapply Forall_impl; [apply (c_tasks w H)|]; cbn; lia|].
    reflexivity.
  - intros [= <- <-]. unfold attached in *.
    destruct (content w) as [|k st|] eqn:Hc; try done.
    match goal with Ha : Nat.eqb k seq = true |- _ => apply Nat.eqb_eq in Ha; subst k end.
    destruct (Hv seq st Hc) as (-> & Hh & Hi & t' & Ht' & Hfile).
    split; [done|]. split; [done|]. split; [done|]. unfold find_task in *. cbn.
    rewrite find_update by (by intros []). rewrite Ht'. cbn.
    eexists. split; [done|]. rewrite Hfile. by destruct (Nat.eqb _ _).
Qed.

End Steps.

End Moves.

(** ** Renders and their loads *)

Module Lifecycle.
Import Machine Moves.

Lemma finished_update seq (f : task -> task) (l : list task) n :
  (forall t, t ∈ l -> t_seq t = n -> t_stage t = Finished) ->
  (forall t, t_seq (f t) = t_seq t) ->
  (forall t, t ∈ l -> t_seq t = n -> n = seq -> t_stage (f t) = Finished) ->
  forall t', t' ∈ map (λ t, if Nat.eqb (t_seq t) seq then f t else t) l ->
             t_seq t' = n -> t_stage t' = Finished.
Proof.
  intros Hl Hf Hn t' [[Hin _]|(t & Hin & Hs & ->)]%elem_of_update Hs'; [by apply Hl|].
  rewrite Hf in Hs'. apply Hn; [done|done|congruence].
Qed.

Lemma find_task_update_any k seq (f : task -> task) w :
  (forall t, t_seq (f t) = t_seq t) ->
  find_task k (update_task seq f w)
  = (λ t, if Nat.eqb (t_seq t) seq then f t else t) <$> find_task k w.
Proof. intros Hf. unfold find_task, update_task. cbn. by apply find_update. Qed.

Section Steps.
Context {engine : JsEngine}.

(** A move adds a load only by the render that is waiting out its 50 ms,
    to a frame that is in the document, and that render is over with it. *)
Lemma move_loads w w' :
  move w w' ->
  load_frames (trace w') = load_frames (trace w) \/
  exists seq t,
    find_task seq w = Some t /\ t_stage t = Settling /\ attached seq w = true /\
    load_frames (trace w') = load_frames (trace w) ++ [seq] /\
    renderSeq w' = renderSeq w /\
    (forall t', t' ∈ tasks w' -> t_seq t' = seq -> t_stage t' = Finished).
Proof.
  intros Hm.
  read_move Hm; try destruct pp, ph;
    try match goal with
        | |- context [match activeMenu w with _ => _ end] => destruct (activeMenu w)
        end;
    cbn; rewrite ?load_frames_app; cbn; rewrite ?app_nil_r; try (by left).
  right. exists seq, t. repeat (split; [done|]).
  by intros t' [[Hin Hne]|(t0 & Hin & Hs & ->)]%elem_of_update Hs'.
Qed.

(** A render that is over stays over. *)
Lemma move_finished w w' n :
  consistent w -> move w w' -> (n <= renderSeq w)%nat ->
  (forall t, t ∈ tasks w -> t_seq t = n -> t_stage t = Finished) ->
  forall t', t' ∈ tasks w' -> t_seq t' = n -> t_stage t' = Finished.
Proof.
  intros H Hm Hn Hfin.
  assert (Hfound : forall seq t, find_task seq w = Some t -> n = seq ->
                                 t_stage t = Finished).
  { intros seq t [Hin Hs]%find_task_Some ->. by apply Hfin. }
  read_move Hm; try destruct pp, ph;
    try match goal with
        | |- context [match activeMenu w with _ => _ end] => destruct (activeMenu w)
        end;
    cbn; try done;
    try (repeat (apply finished_update;
                 [|by intros []|
                  intros a Ha Hs Hseq; cbn;
                  try done; try (by apply Hfin);
                  match goal with
                  | Hf : find_task _ w = Some ?t |- _ =>
                      pose proof (Hfound _ t Hf Hseq); congruence
                  end]); done).
  intros t' [Hin|Hin]%elem_of_snoc Hs; [by apply Hfin|]. subst t'. cbn in Hs. lia.
Qed.

Lemma move_closed w w' n :
  consistent w -> move w w' -> closed_without_load n w -> closed_without_load n w'.
Proof.
  intros H Hm (Hn & Hfin & Hload). split; [|split].
  - pose proof (move_renderSeq w w' Hm). lia.
  - by eapply move_finished.
  - destruct (move_loads w w' Hm) as [-> |(seq & t & Ht & Hst & _ & -> & _ & _)]; [done|].
    rewrite elem_of_app, list_elem_of_singleton. intros [?| ->]; [done|].
    apply find_task_Some in Ht as [Hin Hs]. rewrite (Hfin t Hin Hs) in Hst. done.
Qed.

Lemma run_closed es w n :
  consistent w -> closed_without_load n w -> closed_without_load n (run es w).
Proof.
  revert w. induction es as [|e es IH]; intros w H Hc; [done|]. cbn.
  apply IH; [by apply step_consistent|].
  eapply move_closed; [done|by apply step_moves|done].
Qed.

Lemma run_viewer es w :
  consistent w -> viewer_current w -> viewer_current (run es w).
Proof.
  revert w. induction es as [|e es IH]; intros w H Hv; [done|]. cbn.
  apply IH; [by apply step_consistent|].
  eapply move_viewer; [done|by apply step_moves|done].
Qed.

Lemma initial_viewer pages : viewer_current (initial pages).
Proof. intros k st. done. Qed.

Lemma reachable es pages :
  consistent (run es (initial pages)) /\ viewer_current (run es (initial pages)).
Proof.
  split; [apply run_consistent, initial_consistent|].
  apply run_viewer; [apply initial_consistent|apply initial_viewer].
Qed.


(** *** The order of the loads *)

(** The loads posted so far went to frames in increasing order, and the
    renders they belong to are over. *)
Lemma move_ordered w w' :
  consistent w -> viewer_current w -> move w w' ->
  (forall i j a b, (i < j)%nat -> load_frames (trace w) !! i = Some a ->
                   load_frames (trace w) !! j = Some b -> (a < b)%nat) ->
  (forall n t, n ∈ load_frames (trace w) -> t ∈ tasks w -> t_seq t = n ->
               t_stage t = Finished) ->
  (forall i j a b, (i < j)%nat -> load_frames (trace w') !! i = Some a ->
                   load_frames (trace w') !! j = Some b -> (a < b)%nat) /\
  (forall n t, n ∈ load_frames (trace w') -> t ∈ tasks w' -> t_seq t = n ->
               t_stage t = Finished).
Proof.
  intros H Hv Hm Hord Hfin.
  assert (Hle : forall n, n ∈ load_frames (trace w) -> (n <= renderSeq w)%nat).
  { intros n (m & Hin & <-)%load_frames_elem.
    pose proof (c_loads w H) as Hall. rewrite Forall_forall in Hall. by apply (Hall _ Hin). }
  destruct (move_loads w w' Hm) as [E|(seq & t & Ht & Hst & Hatt & E & _ & Hnew)]; rewrite E.
  - split; [done|]. intros n t Hn Hin Hs.
    eapply (move_finished w w' n); eauto.
  - assert (Hseq : seq = renderSeq w).
    { unfold attached in Hatt. destruct (content w) as [|k st|] eqn:Hc; try done.
      apply Nat.eqb_eq in Hatt as ->. by destruct (Hv seq st Hc) as [-> _]. }
    assert (Hlt : forall n, n ∈ load_frames (trace w) -> (n < seq)%nat).
    { intros n Hn. pose proof (Hle n Hn).
      destruct (decide (n = seq)) as [->|]; [|lia].
      apply find_task_Some in Ht as [Hin Hs]. rewrite (Hfin seq t Hn Hin Hs) in Hst. done. }
    split.
    + intros i j a b Hij Ha Hb.
      apply lookup_app_Some in Hb as [Hb|[Hlen Hb]].
      * apply (Hord i j); [done| |done].
        rewrite lookup_app_l in Ha; [done|]. apply lookup_lt_Some in Hb. lia.
      * apply list_lookup_singleton_Some in Hb as [Hj <-].
        apply Hlt. rewrite lookup_app_l in Ha by lia. by eapply list_elem_of_lookup_2.
    + intros n t' [Hn| ->%list_elem_of_singleton]%elem_of_app Hin Hs.
      * eapply (move_finished w w' n); eauto.
      * by apply Hnew.
Qed.

Lemma reachable_loads es pages :
  let w := run es (initial pages) in
  consistent w /\ viewer_current w /\
  (forall i j a b, (i < j)%nat -> load_frames (trace w) !! i = Some a ->
                   load_frames (trace w) !! j = Some b -> (a < b)%nat) /\
  (forall n t, n ∈ load_frames (trace w) -> t ∈ tasks w -> t_seq t = n ->
               t_stage t = Finished).
Proof.
  cbv zeta. induction es as [|e es IH] using rev_ind.
  - split; [apply initial_consistent|]. split; [apply initial_viewer|]. cbn.
    split; [intros i j a b _ Ha; by rewrite lookup_nil in Ha|by intros n t ?%elem_of_nil].
  - rewrite run_app. cbn [run fold_left].
    destruct IH as (H & Hv & Hord & Hfin).
    split; [by apply step_consistent|].
    split; [eapply move_viewer; [done|by apply step_moves|done]|].
    eapply move_ordered; [done|done|by apply step_moves|done|done].
Qed.

(** X1. In every run of the view the [LOAD_DJVU] messages go to frames
    in strictly increasing order of render number: a render posts at most
    one load, no load goes to the frame of an earlier render once a later
    one has started, and a step that posts a load posts it to the frame
    of the render that is current at that step. *)
Theorem loads_follow_renders (es : list event) (pages : gmap jsstring N) :
  let w := run es (initial pages) in
  (forall i j a b, (i < j)%nat -> load_frames (trace w) !! i = Some a ->
                   load_frames (trace w) !! j = Some b -> (a < b)%nat) /\
  Forall (λ n, (n <= renderSeq w)%nat) (load_frames (trace w)) /\
  (forall e, load_frames (trace (step e w)) = load_frames (trace w) \/
             load_frames (trace (step e w)) = load_frames (trace w) ++ [renderSeq w] /\
             renderSeq (step e w) = renderSeq w).
Proof.
  cbv zeta. destruct (reachable_loads es pages) as (H & Hv & Hord & Hfin).
  split; [exact Hord|]. split.
  - apply Forall_forall. intros n (m & Hin & <-)%load_frames_elem.
    pose proof (c_loads _ H) as Hall. rewrite Forall_forall in Hall. by apply (Hall _ Hin).
  - intros e.
    destruct (move_loads _ _ (step_moves e _ H))
      as [E|(seq & t & Ht & Hst & Hatt & E & Hr & _)]; [by left|right].
    assert (seq = renderSeq (run es (initial pages))) as ->; [|done].
    unfold attached in Hatt.
    destruct (content (run es (initial pages))) as [|k st|] eqn:Hc; try done.
    apply Nat.eqb_eq in Hatt as ->. by destruct (Hv seq st Hc) as [-> _].
Qed.

(** *** Opens that fail *)

Lemma opened f w :
  consistent w -> is_djvu f = true ->
  let page := nullish (pendingPage w) (Tag None <$> getFilePage (path f) (filePages w)) in
  let w1 := started f page (pendingHighlight w)
              (set_pendingHighlight None (set_pendingPage None (set_file (Some f) w))) in
  step (LoadFile f) w = w1 /\ consistent w1 /\
  find_task (S (renderSeq w)) w1
  = Some {| t_seq := S (renderSeq w); t_file := f; t_page := page;
            t_highlight := pendingHighlight w; t_stage := AwaitReady; t_buffer := Reading |} /\
  S (renderSeq w) ∉ load_frames (trace w1).
Proof.
  intros H Hf page w1.
  assert (E : step (LoadFile f) w = w1).
  { cbn [step]. unfold onLoadFile. cbv zeta. rewrite render_started; [done| |done].
    keep_consistent H. }
  split; [done|]. split; [rewrite <- E; by apply step_consistent|]. split.
  - unfold find_task, w1, started. cbn. apply find_new; [|done].
    eapply Forall_impl; [apply (c_tasks w H)|]. cbn. lia.
  - unfold w1, started. cbn. intros (m & Hin & Hm)%load_frames_elem.
    pose proof (c_loads w H) as Hall. rewrite Forall_forall in Hall.
    specialize (Hall _ Hin m eq_refl). lia.
Qed.

Lemma render_catch_closed seq message w :
  consistent w -> (seq <= renderSeq w)%nat -> seq ∉ load_frames (trace w) ->
  content (render_catch seq message w) = ErrorPanel (lit "Failed to open DjVu: " ++ message) /\
  trace (render_catch seq message w) = trace w ++ [ShowNotice (lit "DjVu reader: " ++ message)] /\
  closed_without_load seq (render_catch seq message w).
Proof.
  intros H Hle Hno. split; [done|]. split; [done|]. split; [done|]. split.
  - by intros t' [[Hin Hne]|(t0 & Hin & Hs & ->)]%elem_of_update Hs'.
  - cbn. rewrite load_frames_app. cbn. by rewrite app_nil_r.
Qed.


Lemma fails_intro w f events message w1 wx :
  consistent w -> step (LoadFile f) w = w1 -> consistent w1 ->
  run events w1 = render_catch (S (renderSeq w)) message wx ->
  consistent wx -> renderSeq wx = S (renderSeq w) -> trace wx = trace w ->
  open_fails w f events message.
Proof.
  intros H E H1 Erun Hx Hseq Htr. unfold open_fails. cbv zeta.
  change (run (LoadFile f :: events) w) with (run events (step (LoadFile f) w)).
  rewrite E, Erun.
  assert (Hno : S (renderSeq w) ∉ load_frames (trace wx)).
  { rewrite Htr. intros (m & Hin & Hm)%load_frames_elem.
    pose proof (c_loads w H) as Hall. rewrite Forall_forall in Hall.
    specialize (Hall _ Hin m eq_refl). lia. }
  destruct (render_catch_closed (S (renderSeq w)) message wx Hx ltac:(lia) Hno)
    as (Hc & Ht & Hclosed).
  split; [done|]. split; [by rewrite Ht, Htr|].
  intros later. eapply run_closed; [|done].
  rewrite <- Erun. by apply run_consistent.
Qed.

(** X2. An open that cannot complete. A DjVu file is opened in any
    state the view can reach. If the 15 s timer fires before the frame
    reports, if the frame reports [DJVU_ERROR], or if the read of the
    file is rejected (before or after [DJVU_READY]), the view shows the
    error panel [Failed to open DjVu: <message>] and one notice
    [DjVu reader: <message>], and the frame of that render never gets a
    load, whatever happens later. The message is the fixed text for the
    timer, the frame's message or [DjVu viewer error] when it sends none
    or an empty one, and the message of the rejection. *)
Theorem open_failures (es : list event) (pages : gmap jsstring N) (f : TFile) :
  let w := run es (initial pages) in
  let seq := S (renderSeq w) in
  is_djvu f = true ->
  open_fails w f [TimerFired seq] (lit "Timed out initializing DjVu viewer.") /\
  (forall m, open_fails w f [Message seq (DJVU_ERROR m)]
               match m with
               | Some (c :: s) => c :: s
               | _ => lit "DjVu viewer error"
               end) /\
  (forall message,
     open_fails w f [Message seq DJVU_READY; ReadRejected seq message] message) /\
  (forall message,
     open_fails w f [ReadRejected seq message; Message seq DJVU_READY] message).
Proof.
  intros w seq Hf.
  assert (H : consistent w) by apply run_consistent, initial_consistent.
  destruct (opened f w H Hf) as (E & H1 & F1 & _).
  set (page := nullish (pendingPage w)
                 (Tag None <$> getFilePage (path f) (filePages w))) in *.
  set (w0 := set_pendingHighlight None (set_pendingPage None (set_file (Some f) w))) in *.
  set (w1 := started f page (pendingHighlight w) w0) in *.
  set (new := {| t_seq := S (renderSeq w); t_file := f; t_page := page;
                 t_highlight := pendingHighlight w; t_stage := AwaitReady;
                 t_buffer := Reading |}) in *.
  fold seq in F1.
  assert (Hunwait : consistent (unwait w1)).
  { unfold unwait. keep_consistent H1. by right. }
  assert (L1 : forall w2, listeners w2 = listeners w1 -> listeners w2 = [seq]) by by intros w2 ->.
  assert (T1 : forall w2, timers w2 = timers w1 -> without seq (timers w2) = [])
    by (intros w2 ->; apply without_self).
  assert (I1 : forall w2, initWait w2 = initWait w1 -> is_seq (initWait w2) seq = true)
    by (intros w2 ->; apply Nat.eqb_refl).
  assert (A1 : forall w2, content w2 = content w1 -> attached seq w2 = true)
    by (intros w2 Hc; unfold attached; rewrite Hc; apply Nat.eqb_refl).
  assert (Hhandle : forall w2 t data,
            listeners w2 = listeners w1 -> content w2 = content w1 ->
            find_task seq w2 = Some t ->
            step (Message seq data) w2 =
            match data with
            | DJVU_READY =>
                if is_seq (initWait w2) seq
                then after_ready t (set_initWait None (set_timers (without seq (timers w2)) w2))
                else w2
            | DJVU_ERROR m =>
                if is_seq (initWait w2) seq
                then after_reject t match m with
                                    | Some (c :: s) => c :: s
                                    | _ => lit "DjVu viewer error"
                                    end
                       (set_initWait None (set_timers (without seq (timers w2)) w2))
                else w2
            | _ => messageHandler_of seq seq data w2
            end).
  { intros w2 t data Hl Hc Ht. cbn [step]. rewrite (L1 w2 Hl). cbn [fold_left].
    unfold messageHandler_of. rewrite (A1 w2 Hc), Nat.eqb_refl, Ht. cbn [andb negb].
    by destruct data. }
  split; [|split; [|split]].
  - apply (fails_intro w f _ _ w1 (unwait w1) H E H1); [|exact Hunwait|reflexivity|reflexivity].
    cbn [run fold_left step].
    assert (Ex : existsb (Nat.eqb seq) (timers w1) = true) by (cbn; by rewrite Nat.eqb_refl).
    rewrite Ex, (T1 w1 eq_refl), (I1 (set_timers [] w1) eq_refl).
    rewrite (Session.find_task_tasks seq (set_timers [] w1) w1 eq_refl), F1.
    reflexivity.
  - intros m.
    apply (fails_intro w f _ _ w1 (unwait w1) H E H1); [|exact Hunwait|reflexivity|reflexivity].
    cbn [run fold_left]. rewrite (Hhandle w1 new _ eq_refl eq_refl F1).
    rewrite (I1 w1 eq_refl), (T1 w1 eq_refl). reflexivity.
  - intros message.
    assert (F2 : find_task seq (update_task seq (set_stage AwaitBuffer) (unwait w1))
                 = Some (set_stage AwaitBuffer new)).
    { rewrite find_task_update_any by by intros [].
      rewrite (Session.find_task_tasks seq (unwait w1) w1 eq_refl), F1. cbn. by rewrite Nat.eqb_refl. }
    apply (fails_intro w f _ _ w1
             (update_task seq (set_buffer (ReadFailed message))
                (update_task seq (set_stage AwaitBuffer) (unwait w1))) H E H1);
      [| |reflexivity|reflexivity].
    + cbn [run fold_left]. rewrite (Hhandle w1 new _ eq_refl eq_refl F1).
      rewrite (I1 w1 eq_refl), (T1 w1 eq_refl).
      unfold after_ready. cbn [t_stage t_buffer t_seq new]. fold seq.
      cbn [step]. fold (unwait w1). rewrite F2. reflexivity.
    + assert (Hc1 : consistent (update_task seq (set_stage AwaitBuffer) (unwait w1)))
        by (unfold update_task; keep_consistent Hunwait).
      unfold update_task at 1. keep_consistent Hc1.
  - intros message.
    set (w2 := update_task seq (set_buffer (ReadFailed message)) w1).
    assert (F2 : find_task seq w2 = Some (set_buffer (ReadFailed message) new)).
    { unfold w2. rewrite find_task_update_any by by intros [].
      rewrite F1. cbn. by rewrite Nat.eqb_refl. }
    apply (fails_intro w f _ _ w1 (unwait w2) H E H1); [| |reflexivity|reflexivity].
    + assert (E2 : step (ReadRejected seq message) w1 = w2)
        by (cbn [step]; by rewrite F1).
      cbn [run fold_left]. rewrite E2, (Hhandle w2 _ _ eq_refl eq_refl F2).
      rewrite (I1 w2 eq_refl), (T1 w2 eq_refl). reflexivity.
    + unfold unwait, w2, update_task. keep_consistent H1. by right.
Qed.


(** *** What the frame reports once the handshake is over *)

Lemma wait_ext w w' :
  initWait w' = initWait w -> tasks w' = tasks w -> wait_pending w -> wait_pending w'.
Proof. unfold wait_pending, find_task. intros -> ->. done. Qed.

Lemma wait_none w : initWait w = None -> wait_pending w.
Proof. intros E s. by rewrite E. Qed.

Lemma wait_update w seq (f : task -> task) :
  (forall a, t_seq (f a) = t_seq a) ->
  (forall t, find_task seq w = Some t -> t_stage t = AwaitReady -> t_stage (f t) = AwaitReady) ->
  wait_pending w -> wait_pending (update_task seq f w).
Proof.
  intros Hf Hkeep Hw s Hs. destruct (Hw s Hs) as (t & Ht & Hready).
  rewrite find_task_update_any by done. rewrite Ht. cbn. eexists. split; [done|].
  destruct (Nat.eqb_spec (t_seq t) seq) as [E|]; [|done].
  apply Hkeep; [|done]. apply find_task_Some in Ht as Hx. destruct Hx as [_ Hx]. congruence.
Qed.

Lemma move_wait w w' :
  consistent w -> move w w' -> wait_pending w -> wait_pending w'.
Proof.
  intros H Hm Hw.
  destruct Hm as [ |pp ph|e| |f Hf|f Hf| | |t Ht Hi Hatt Hst Hb|t b Ht Hi Hatt Hst Hb
                 |t m Ht Hi Hst|Hi Hst|f fr m Hfile Hfr Hatt|e|t p Ht Hatt|m Hm
                 |seq t b Ht Hb Hst|seq t b Ht Hb Hst Hseq|seq t b Ht Hb Hst Hseq
                 |seq t m Ht Hb Hst|seq t b Ht Hst Hb Hatt|seq t Ht Hst Hatt].
  - done.
  - destruct pp, ph; by apply (wait_ext w).
  - by apply (wait_ext w).
  - by apply (wait_ext w).
  - by apply (wait_ext w).
  - intros s [= <-]. eexists. unfold find_task, started. cbn.
    split; [apply find_new; [|done]; eapply Forall_impl; [apply (c_tasks w H)|]; cbn; lia|].
    reflexivity.
  - by apply wait_none.
  - by apply wait_none.
  - by apply wait_none.
  - by apply wait_none.
  - by apply wait_none.
  - by apply wait_none.
  - unfold hide_menu. destruct (activeMenu w); by apply (wait_ext w).
  - by apply (wait_ext w).
  - by apply (wait_ext w).
  - by apply (wait_ext w).
  - apply wait_update; [by intros []|by intros []|done].
  - apply wait_update; [by intros []| |].
    + intros t'. rewrite find_task_update_any by (by intros []). rewrite Ht. cbn.
      apply find_task_Some in Ht as [_ ->]. rewrite Nat.eqb_refl. intros [= <-]. cbn. congruence.
    + apply wait_update; [by intros []|by intros []|done].
  - apply wait_update; [by intros []| |].
    + intros t'. rewrite find_task_update_any by (by intros []). rewrite Ht. cbn.
      apply find_task_Some in Ht as [_ ->]. rewrite Nat.eqb_refl. intros [= <-]. cbn. congruence.
    + apply wait_update; [by intros []|by intros []|done].
  - apply wait_update; [by intros []| |].
    + intros t'. unfold find_task. cbn.
      rewrite find_update by (by intros []). unfold find_task in Ht. rewrite Ht. cbn.
      apply find_some in Ht as [_ ->%Nat.eqb_eq]. rewrite Nat.eqb_refl.
      intros [= <-]. cbn. congruence.
    + apply (wait_ext (update_task seq (set_buffer (ReadFailed m)) w)); [done..|].
      apply wait_update; [by intros []|by intros []|done].
  - apply wait_update; [by intros []| |].
    + intros t'. unfold find_task in *. cbn. rewrite Ht. intros [= <-]. congruence.
    + by apply (wait_ext w).
  - apply wait_update; [by intros []| |].
    + intros t'. unfold find_task in *. cbn. rewrite Ht. intros [= <-]. congruence.
    + by apply (wait_ext w).
Qed.

Lemma reachable_wait es pages : wait_pending (run es (initial pages)).
Proof.
  induction es as [|e es IH] using rev_ind; [by apply wait_none|].
  rewrite run_app. cbn [run fold_left].
  eapply move_wait; [|apply step_moves|done]; apply run_consistent, initial_consistent.
Qed.


Lemma fold_same {A : Type} (g : world -> A -> world) (l : list A) w :
  (forall a, g w a = w) -> fold_left g l w = w.
Proof. intros Hg. induction l as [|a l IH]; [done|]. cbn. by rewrite Hg. Qed.

Lemma no_wait_reports w source m :
  initWait w = None ->
  step (Message source (DJVU_ERROR m)) w = w /\ step (Message source DJVU_READY) w = w.
Proof.
  intros Hi. split; cbn [step]; apply fold_same; intros h; unfold messageHandler_of;
    destruct (negb _); try done; destruct (find_task h w); try done; by rewrite Hi.
Qed.

(** X3. What the frame reports about loading is ignored once the load
    has been posted. In every state the view can reach in which the frame
    of the current render has got its [LOAD_DJVU], the messages
    [DJVU_LOADED] and [DJVU_ERROR], a repeated [DJVU_READY] and the 15 s
    timer leave the view exactly as it is. So does whatever the frame's
    [LOAD_DJVU] listener posts when [loadDocument] settles, resolved or
    rejected: a document that the viewer fails to load produces no error
    panel and no notice. *)
Theorem load_reports_ignored (es : list event) (pages : gmap jsstring N)
    (source : nat) (m : option jsstring) :
  let w := run es (initial pages) in
  renderSeq w ∈ load_frames (trace w) ->
  step (Message source DJVU_LOADED) w = w /\
  step (Message source (DJVU_ERROR m)) w = w /\
  step (Message source DJVU_READY) w = w /\
  step (TimerFired (renderSeq w)) w = w /\
  forall highlight outcome,
    run (map (Message source) (fst (on_load_settled highlight outcome))) w = w.
Proof.
  intros w Hloaded.
  destruct (reachable_loads es pages) as (H & Hv & _ & Hfin). fold w in H, Hv, Hfin.
  assert (Hi : initWait w = None).
  { destruct (c_wait w H) as [Hi|Hi]; [done|].
    destruct (reachable_wait es pages _ Hi) as (t & Ht & Hst).
    apply find_task_Some in Ht as [Hin Hs]. fold w in Hin.
    rewrite (Hfin _ t Hloaded Hin Hs) in Hst. done. }
  assert (Hloaded' : step (Message source DJVU_LOADED) w = w).
  { cbn [step]. apply fold_same. intros h. unfold messageHandler_of.
    destruct (negb _); [done|]. by destruct (find_task h w). }
  split; [done|]. split; [by apply no_wait_reports|]. split; [by apply no_wait_reports|].
  split.
  - cbn [step]. rewrite (c_timers w H), Hi. done.
  - intros highlight [|message text]; cbn [on_load_settled fst map run fold_left]; [done|].
    by apply no_wait_reports.
Qed.

(** *** Closing *)

Lemma cleared_released b w : released (set_container_class b (cleared w)).
Proof. by repeat split. Qed.

Lemma cleared_deaf b w source data :
  step (Message source data) (set_container_class b (cleared w))
  = set_container_class b (cleared w).
Proof.
  cbn [step].
  assert (E : listeners (set_container_class b (cleared w)) = []) by reflexivity.
  by rewrite E.
Qed.

Lemma cleared_untimed b w seq :
  step (TimerFired seq) (set_container_class b (cleared w))
  = set_container_class b (cleared w).
Proof.
  cbn [step].
  assert (E : timers (set_container_class b (cleared w)) = []) by reflexivity.
  by rewrite E.
Qed.

Lemma unload_cleared w :
  consistent w -> step UnloadFile w = set_container_class (container_class w) (cleared w).
Proof.
  intros H. cbn [step]. unfold onUnloadFile.
  rewrite cleanup_cleared; [|apply (c_listeners w H)|apply (c_timers w H)].
  unfold cleared. by destruct w.
Qed.

Lemma close_cleared w :
  consistent w -> step Close w = set_container_class false (cleared w).
Proof.
  intros H. cbn [step]. unfold onClose.
  by rewrite cleanup_cleared; [|apply (c_listeners w H)|apply (c_timers w H)].
Qed.


(** *** Menus *)

Lemma move_menus w w' : move w w' -> menus_balanced w -> menus_balanced w'.
Proof.
  unfold menus_balanced. intros Hm Hb.
  read_move Hm; try destruct pp, ph; cbn; rewrite ?count_app; cbn; try lia.
  - destruct (activeMenu w); cbn; rewrite ?count_app; cbn; lia.
  - match goal with Hmenu : activeMenu w = Some _ |- _ => rewrite Hmenu in Hb end. lia.
Qed.

Lemma reachable_menus es pages : menus_balanced (run es (initial pages)).
Proof.
  induction es as [|e es IH] using rev_ind; [done|].
  rewrite run_app. cbn [run fold_left].
  eapply move_menus; [apply step_moves; apply run_consistent, initial_consistent|done].
Qed.

(** X5. The view keeps at most one of its menus up. In every run as
    many menus have been shown as hidden, plus one exactly when
    [activeMenu] is set: a menu that is still up is hidden before the
    next one is shown. A click in the frame on show takes the highlight
    off every element there and posts [DJVU_CLICK], on which the view
    hides the menu and clears [activeMenu], so that every menu shown has
    been hidden. *)
Theorem one_menu_at_a_time (es : list event) (pages : gmap jsstring N) :
  let w := run es (initial pages) in
  menus_balanced w /\
  forall k st classes, content w = ViewerRoot k st ->
    let w' := run (map (Message k) (fst (on_click classes))) w in
    activeMenu w' = None /\ count is_shown (trace w') = count is_hidden (trace w') /\
    snd (on_click classes) = map (λ _, false) classes.
Proof.
  intros w. split; [apply reachable_menus|]. intros k st classes Hc.
  cbn [on_click fst snd map run fold_left].
  destruct (reachable es pages) as [H Hv]. fold w in H, Hv.
  destruct (Hv k st Hc) as (-> & Hh & _ & t & Ht & _).
  assert (Hnone : activeMenu (step (Message (renderSeq w) DJVU_CLICK) w) = None).
  { cbn [step]. rewrite (c_listeners w H), Hh. cbn [fold_left].
    unfold messageHandler_of, attached. rewrite Hc, Nat.eqb_refl, Ht. cbn.
    by destruct (activeMenu w) eqn:E. }
  split; [done|]. split; [|done].
  pose proof (reachable_menus (es ++ [Message (renderSeq w) DJVU_CLICK]) pages) as Hb.
  rewrite run_app in Hb. cbn [run fold_left] in Hb. fold w in Hb.
  unfold menus_balanced in Hb. rewrite Hnone in Hb. lia.
Qed.

(** *** Positions *)

(** X6. The position is remembered. While the viewer of a file is on
    show, a [DJVU_PAGE_CHANGED] report from its frame writes that page
    into the position map under the file's path, changes no other entry
    and hands the map to [saveData]; if no link is pending, the next open
    of a file with that path loads it at that page. *)
Theorem position_remembered (es : list event) (pages : gmap jsstring N)
    (k : nat) (st : jsstring) (f : TFile) (p : N) :
  let w := run es (initial pages) in
  content w = ViewerRoot k st -> file w = Some f ->
  let w' := step (Message k (DJVU_PAGE_CHANGED (Some p))) w in
  filePages w' = <[path f := p]> (filePages w) /\
  getFilePage (path f) (filePages w') = Some p /\
  (forall other, other <> path f ->
     getFilePage other (filePages w') = getFilePage other (filePages w)) /\
  trace w' = trace w ++ [SaveData (filePages w')] /\
  forall g buffer,
    path g = path f -> is_djvu g = true -> pendingPage w = None ->
    let seq := S (renderSeq w) in
    exists m,
      trace (run [LoadFile g; Message seq DJVU_READY; ReadResolved seq buffer; SettleDone seq]
               w') = trace w' ++ [PostLoad m] /\
      value <$> lm_page m = Some p.
Proof.
  intros w Hc Hfile w'.
  destruct (reachable es pages) as [H Hv]. fold w in H, Hv.
  destruct (Hv k st Hc) as (-> & Hh & _ & t & Ht & Hf).
  assert (t_file t = f) as Hft by congruence.
  assert (E : w' = emit (SaveData (<[path f := p]> (filePages w)))
                     (set_filePages (<[path f := p]> (filePages w)) w)).
  { unfold w'. cbn [step]. rewrite (c_listeners w H), Hh. cbn [fold_left].
    unfold messageHandler_of, attached. rewrite Hc, Nat.eqb_refl, Ht. cbn. by rewrite Hft. }
  assert (H' : consistent w') by (unfold w'; by apply step_consistent).
  rewrite E. cbn [filePages emit set_trace set_filePages trace].
  split; [done|]. split; [unfold getFilePage; by rewrite lookup_insert_eq|].
  split; [intros other Hne; unfold getFilePage; by rewrite lookup_insert_ne|].
  split; [done|]. intros g buffer Hpath Hg Hpend.
  rewrite <- E.
  destruct (Session.open_run w' g buffer None H' Hg) as (m & Htr & _ & _ & _ & Hpage & _).
  exists m. split.
  - replace (renderSeq w') with (renderSeq w) in Htr by (by rewrite E).
    etrans; [exact Htr|]. by rewrite E.
  - rewrite Hpage, E. cbn. rewrite Hpend. cbn.
    unfold getFilePage. by rewrite Hpath, lookup_insert_eq.
Qed.

End Steps.

(** The timer fires on the first open of a fresh view. *)
Lemma open_failures_witness :
  open_fails (engine := ascii_engine) (initial ∅)
    {| path := lit "a.djvu"; name := lit "a.djvu"; extension := lit "djvu" |}
    [TimerFired 1] (lit "Timed out initializing DjVu viewer.").
Proof.
  exact (proj1 (@open_failures ascii_engine [] ∅
                  {| path := lit "a.djvu"; name := lit "a.djvu"; extension := lit "djvu" |}
                  eq_refl)).
Defined.

(** The viewer reports that it could not load the document it was sent. *)
Lemma load_reports_ignored_witness :
  let w := run (engine := ascii_engine)
             [LoadFile {| path := lit "a.djvu"; name := lit "a.djvu"; extension := lit "djvu" |};
              Message 1 DJVU_READY; ReadResolved 1 [65; 84]; SettleDone 1] (initial ∅) in
  step (engine := ascii_engine) (Message 1 (DJVU_ERROR (Some (lit "bad file")))) w = w.
Proof.
  intros w.
  refine (proj1 (proj2 (@load_reports_ignored ascii_engine
            [LoadFile {| path := lit "a.djvu"; name := lit "a.djvu"; extension := lit "djvu" |};
             Message 1 DJVU_READY; ReadResolved 1 [65; 84]; SettleDone 1]
            ∅ 1%nat (Some (lit "bad file")) _))).
  vm_compute. left.
Defined.

(** A menu is up over the loaded document when the user clicks. *)
Lemma one_menu_at_a_time_witness :
  let w := run (engine := ascii_engine)
             [LoadFile {| path := lit "a.djvu"; name := lit "a.djvu"; extension := lit "djvu" |};
              Message 1 DJVU_READY; ReadResolved 1 [65; 84]; SettleDone 1;
              Message 1 (DJVU_CONTEXT_MENU (Some (lit "abc")) (Some 2))] (initial ∅) in
  activeMenu w <> None /\
  activeMenu (run (engine := ascii_engine) (map (Message 1) (fst (on_click [true; false]))) w)
  = None.
Proof.
  intros w. split; [discriminate|].
  exact (proj1 (proj2 (@one_menu_at_a_time ascii_engine
            [LoadFile {| path := lit "a.djvu"; name := lit "a.djvu"; extension := lit "djvu" |};
             Message 1 DJVU_READY; ReadResolved 1 [65; 84]; SettleDone 1;
             Message 1 (DJVU_CONTEXT_MENU (Some (lit "abc")) (Some 2))] ∅)
           1%nat [] [true; false] eq_refl)).
Defined.

(** The reader turns to page 9 of a loaded document. *)
Lemma position_remembered_witness :
  let f := {| path := lit "a.djvu"; name := lit "a.djvu"; extension := lit "djvu" |} in
  let w := run (engine := ascii_engine)
             [LoadFile f; Message 1 DJVU_READY; ReadResolved 1 [65; 84]; SettleDone 1]
             (initial ∅) in
  getFilePage (lit "a.djvu")
    (filePages (step (engine := ascii_engine) (Message 1 (DJVU_PAGE_CHANGED (Some 9))) w))
  = Some 9.
Proof.
  intros f w.
  exact (proj1 (proj2 (@position_remembered ascii_engine
            [LoadFile f; Message 1 DJVU_READY; ReadResolved 1 [65; 84]; SettleDone 1]
            ∅ 1%nat [] f 9 eq_refl eq_refl))).
Defined.

End Lifecycle.

(** ** The listeners of the frame *)

Module FrameScript.
Import JSFacts B64Facts TextFacts RegexFacts Machine Moves Lifecycle.

(** *** The page tracker *)

Lemma track_pages_cons lastPage p r :
  track_pages lastPage (p :: r) =
  (fst (track_pages (fst (track_page lastPage p)) r),
   snd (track_page lastPage p) ++ snd (track_pages (fst (track_page lastPage p)) r)).
Proof.
  cbn [track_pages]. destruct (track_page lastPage p) as [l1 m1]. cbn [fst snd].
  by destruct (track_pages l1 r).
Qed.

Lemma track_page_cases lastPage p :
  (exists n, p = Some n /\ n <> 0 /\ lastPage <> Some n /\
             track_page lastPage p = (Some n, [DJVU_PAGE_CHANGED (Some n)])) \/
  (track_page lastPage p = (lastPage, []) /\
   (names_page p = None \/ names_page p = lastPage)).
Proof.
  unfold track_page, names_page. destruct p as [n|]; [|right; auto].
  destruct (N.eqb_spec n 0); cbn; [right; auto|].
  destruct (decide (lastPage = Some n)) as [E|E].
  - rewrite bool_decide_eq_true_2 by done. cbn. right. auto.
  - rewrite bool_decide_eq_false_2 by done. cbn. left. eauto.
Qed.

Lemma track_pages_idle lastPage readings :
  omap names_page readings = [] -> track_pages lastPage readings = (lastPage, []).
Proof.
  induction readings as [|p r IH]; [done|]. cbn [omap list_omap].
  destruct (names_page p) as [n|] eqn:Hp; [done|]. intros Hr.
  rewrite track_pages_cons.
  destruct (track_page_cases lastPage p) as [(n & -> & Hn & _ & _)|[E _]].
  - unfold names_page in Hp. by destruct (N.eqb_spec n 0).
  - rewrite E. cbn. by rewrite IH.
Qed.

Lemma track_pages_spec (lastPage : option N) (readings : list (option N)) :
  let final := fst (track_pages lastPage readings) in
  let posted := snd (track_pages lastPage readings) in
  let pages := omap page_of posted in
  posted = map (λ p, DJVU_PAGE_CHANGED (Some p)) pages /\
  Forall (λ p, p <> 0 /\ Some p ∈ readings) pages /\
  (forall p, head pages = Some p -> lastPage <> Some p) /\
  (forall i p, pages !! i = Some p -> pages !! S i <> Some p) /\
  final = from_option Some lastPage (last pages) /\
  (forall p, last (omap names_page readings) = Some p -> final = Some p) /\
  (length posted <= length readings)%nat.
Proof.
  cbv zeta. revert lastPage. induction readings as [|r rs IH]; intros lastPage.
  { cbn. repeat split; done. }
  rewrite track_pages_cons. cbn [fst snd].
  destruct (track_page_cases lastPage r) as [(n & -> & Hn & Hne & E)|[E Hidle]]; rewrite E;
    cbn [fst snd app omap list_omap page_of map].
  - destruct (IH (Some n)) as (H1 & H2 & H3 & H4 & H5 & H6 & H7).
    set (rest := snd (track_pages (Some n) rs)) in *.
    split; [by rewrite H1 at 1|]. split.
    { constructor; [split; [done|by left]|].
      eapply Forall_impl; [exact H2|]. intros p [? ?]. split; [done|by right]. }
    split; [by intros p [= <-]|]. split.
    { intros [|i] p; cbn.
      - intros [= <-] Hhead. apply (H3 n); [|done].
        by destruct (omap page_of rest).
      - apply H4. }
    split.
    { rewrite H5, last_cons. by destruct (last (omap page_of rest)). }
    split; [|cbn [length]; lia].
    intros p. cbn [omap list_omap names_page]. destruct (N.eqb_spec n 0); [done|].
    destruct (omap names_page rs) as [|q l] eqn:El.
    + intros [= <-]. by rewrite (track_pages_idle (Some n) rs El).
    + rewrite last_cons_cons. apply H6.
  - destruct (IH lastPage) as (H1 & H2 & H3 & H4 & H5 & H6 & H7).
    split; [done|]. split.
    { eapply Forall_impl; [exact H2|]. intros p [? ?]. split; [done|by right]. }
    split; [done|]. split; [done|]. split; [done|]. split; [|cbn [length]; lia].
    intros p. destruct Hidle as [Hnone|Hsame].
    + cbn [omap list_omap]. rewrite Hnone. apply H6.
    + cbn [omap list_omap]. destruct (names_page r) as [n|] eqn:Hr; [|apply H6].
      destruct (omap names_page rs) as [|q l] eqn:El.
      * intros [= <-]. by rewrite (track_pages_idle lastPage rs El).
      * rewrite last_cons_cons. apply H6.
Qed.

(** X7. The page tracker of the frame. Over any readings of
    [getPageNumber()], starting from any [lastPage]: only
    [DJVU_PAGE_CHANGED] messages are posted, each with a page other than
    0 that was read; the first differs from the initial [lastPage] and no
    two in a row carry the same page; [lastPage] ends as the page of the
    last message, if there is one, and in any case as the last reading
    that names a page; and no more messages are posted than readings
    taken. *)
Theorem page_tracker (lastPage : option N) (readings : list (option N)) :
  let final := fst (track_pages lastPage readings) in
  let posted := snd (track_pages lastPage readings) in
  let pages := omap page_of posted in
  posted = map (λ p, DJVU_PAGE_CHANGED (Some p)) pages /\
  Forall (λ p, p <> 0 /\ Some p ∈ readings) pages /\
  (forall p, head pages = Some p -> lastPage <> Some p) /\
  (forall i p, pages !! i = Some p -> pages !! S i <> Some p) /\
  final = from_option Some lastPage (last pages) /\
  (forall p, last (omap names_page readings) = Some p -> final = Some p) /\
  (length posted <= length readings)%nat.
Proof. apply track_pages_spec. Qed.

(** *** From the tracker to the position store *)

Section WithEngine.
Context {engine : JsEngine}.

Lemma page_changed_step w k st f p :
  consistent w -> viewer_current w -> content w = ViewerRoot k st -> file w = Some f ->
  step (Message k (DJVU_PAGE_CHANGED (Some p))) w
  = emit (SaveData (<[path f := p]> (filePages w)))
      (set_filePages (<[path f := p]> (filePages w)) w).
Proof.
  intros H Hv Hc Hfile. destruct (Hv k st Hc) as (-> & Hh & _ & t & Ht & Hf).
  assert (t_file t = f) as Hft by congruence.
  cbn [step]. rewrite (c_listeners w H), Hh. cbn [fold_left].
  unfold messageHandler_of, attached. rewrite Hc, Nat.eqb_refl, Ht. cbn. by rewrite Hft.
Qed.

Lemma pages_stored w k st f (ps : list N) :
  consistent w -> viewer_current w -> content w = ViewerRoot k st -> file w = Some f ->
  let w' := run (map (λ p, Message k (DJVU_PAGE_CHANGED (Some p))) ps) w in
  filePages w' !! path f = from_option Some (filePages w !! path f) (last ps) /\
  (forall other, other <> path f -> filePages w' !! other = filePages w !! other) /\
  content w' = content w /\ load_frames (trace w') = load_frames (trace w).
Proof.
  cbv zeta. revert w. induction ps as [|p ps IH]; intros w H Hv Hc Hfile; [done|].
  cbn [map run fold_left].
  pose proof (page_changed_step w k st f p H Hv Hc Hfile) as E.
  set (w1 := step (Message k (DJVU_PAGE_CHANGED (Some p))) w) in *.
  assert (H1 : consistent w1) by (by apply step_consistent).
  assert (Hv1 : viewer_current w1).
  { eapply move_viewer; [exact H|by apply step_moves|done]. }
  assert (Hc1 : content w1 = ViewerRoot k st) by (by rewrite E).
  assert (Hf1 : file w1 = Some f) by (by rewrite E).
  destruct (IH w1 H1 Hv1 Hc1 Hf1) as (I1 & I2 & I3 & I4).
  change (fold_left (λ w e, step e w) (map (λ p, Message k (DJVU_PAGE_CHANGED (Some p))) ps) w1)
    with (run (map (λ p, Message k (DJVU_PAGE_CHANGED (Some p))) ps) w1).
  rewrite I1, I3, I4. rewrite last_cons.
  assert (Ep : filePages w1 = <[path f := p]> (filePages w)) by (by rewrite E).
  split; [|split; [|split]].
  - rewrite Ep, lookup_insert_eq. by destruct (last ps).
  - intros other Hne. rewrite (I2 other Hne), Ep. by rewrite lookup_insert_ne.
  - by rewrite Hc1, Hc.
  - rewrite E. cbn. rewrite load_frames_app. cbn. by rewrite app_nil_r.
Qed.

(** X8. From the tracker to the store. While the viewer of a file is
    on show, what the frame's page tracker posts over any readings
    (starting, as the script does, with [lastPage] null), delivered to
    the view, leaves in the position map under the file's path the last
    reading that names a page (the entry is untouched when no reading
    does), changes no other entry, keeps the viewer on show and posts no
    load. *)
Theorem tracked_position (es : list event) (pages : gmap jsstring N)
    (k : nat) (st : jsstring) (f : TFile) (readings : list (option N)) :
  let w := run es (initial pages) in
  content w = ViewerRoot k st -> file w = Some f ->
  let w' := run (map (Message k) (snd (track_pages None readings))) w in
  getFilePage (path f) (filePages w')
  = nullish (last (omap names_page readings)) (getFilePage (path f) (filePages w)) /\
  (forall other, other <> path f ->
     getFilePage other (filePages w') = getFilePage other (filePages w)) /\
  content w' = content w /\ load_frames (trace w') = load_frames (trace w).
Proof.
  intros w Hc Hfile.
  destruct (reachable es pages) as [H Hv]. fold w in H, Hv.
  destruct (track_pages_spec None readings) as (E & _ & _ & _ & Hfinal & Hlast & _).
  set (ps := omap page_of (snd (track_pages None readings))) in *.
  cbv zeta. rewrite E, map_map.
  destruct (pages_stored w k st f ps H Hv Hc Hfile) as (I1 & I2 & I3 & I4).
  split; [|split; [|split]]; try done.
  - unfold getFilePage. rewrite I1.
    destruct (last (omap names_page readings)) as [p|] eqn:El.
    + rewrite (Hlast p eq_refl) in Hfinal.
      destruct (last ps); cbn in *; congruence.
    + destruct (last ps) as [q|] eqn:Eq; [|done].
      exfalso. cbn in Hfinal.
      assert (Hidle : omap names_page readings = []).
      { destruct (omap names_page readings) as [|a l]; [done|].
        rewrite last_cons in El. by destruct (last l). }
      unfold ps in Eq. rewrite (track_pages_idle None readings Hidle) in Eq. done.
  - intros other Hne. unfold getFilePage. by rewrite I2.
Qed.

End WithEngine.

(** The reader goes from page 4 to page 7 and stays there. *)
Lemma tracked_position_witness :
  let f := {| path := lit "a.djvu"; name := lit "a.djvu"; extension := lit "djvu" |} in
  let w := run (engine := ascii_engine)
             [LoadFile f; Message 1 DJVU_READY; ReadResolved 1 [65; 84]; SettleDone 1]
             (initial ∅) in
  getFilePage (lit "a.djvu")
    (filePages (run (engine := ascii_engine)
                  (map (Message 1) (snd (track_pages None [None; Some 4; Some 4; Some 7; Some 7])))
                  w)) = Some 7.
Proof.
  intros f w.
  exact (proj1 (@tracked_position ascii_engine
            [LoadFile f; Message 1 DJVU_READY; ReadResolved 1 [65; 84]; SettleDone 1]
            ∅ 1%nat [] f [None; Some 4; Some 4; Some 7; Some 7] eq_refl eq_refl)).
Defined.

(** *** From a selection to the menu *)

Lemma drop_ws_idem s : drop_ws (drop_ws s) = drop_ws s.
Proof.
  induction s as [|c r IH]; [done|]. cbn. destruct (is_ws c) eqn:Hc; [done|].
  cbn. by rewrite Hc.
Qed.

Lemma trim_idem s : trim (trim s) = trim s.
Proof.
  unfold trim. set (u := drop_ws s).
  assert (Hhead : drop_ws (trimEnd u) = trimEnd u).
  { unfold trimEnd. destruct u as [|a r] eqn:Eu; [done|].
    assert (Ha : is_ws a = false) by (by eapply (Citation.drop_ws_head s)).
    cbn [rev]. rewrite Citation.drop_ws_app.
    destruct (forallb is_ws (rev r)); cbn [drop_ws]; rewrite ?Ha.
    - cbn. by rewrite Ha.
    - rewrite rev_app_distr. cbn. by rewrite Ha. }
  rewrite Hhead. unfold trimEnd. by rewrite rev_involutive, drop_ws_idem.
Qed.

Lemma low_not_unreserved c : is_low c = true -> uriUnreserved c = false.
Proof.
  intros Hc. destruct (uriUnreserved c) eqn:Hu; [|done].
  apply uriUnreserved_ascii in Hu. revert Hc. unfold is_low, between.
  intros [?%N.leb_le ?%N.leb_le]%andb_true_iff. lia.
Qed.

(** [encodeURIComponent] throws exactly on the strings with an unpaired
    surrogate. *)
Lemma encodeURIComponent_throws s :
  Forall (λ c, c < 65536) s -> well_formed s = false -> encodeURIComponent s = None.
Proof.
  induction s as [|c r IH1 IH2] using list_ind_pairs; [done|].
  intros [Hc Hr]%Forall_cons. cbn [well_formed encodeURIComponent].
  destruct (is_high c) eqn:Hh.
  - rewrite (surrogate_not_unreserved c Hh), (high_not_low c Hh).
    destruct r as [|d r']; [done|]. apply Forall_cons in Hr as [Hd Hr'].
    destruct (is_low d); [|done]. cbn. intros Hwf. by rewrite (IH2 d r' eq_refl Hr' Hwf).
  - destruct (is_low c) eqn:Hl.
    + by rewrite (low_not_unreserved c Hl).
    + cbn. destruct (N.ltb_spec c 65536); [|lia]. cbn. intros Hwf.
      rewrite (IH1 Hr Hwf). by destruct (uriUnreserved c).
Qed.

Lemma build_menu_cases f text page :
  Forall (λ c, c < 65536) text ->
  if well_formed text
  then exists token,
         encode_quote text = Ok token /\
         build_menu f text page
         = Ok {| copy_text := text;
                 copy_quote := join [10] (quoteLines text) ++ [10; 10]
                               ++ linkWithHighlight f page token;
                 copy_link := linkWithHighlight f page token |}
  else build_menu f text page = Throw URIError.
Proof.
  intros Hunits. destruct (well_formed text) eqn:Hwf.
  - eexists. split; [by apply Codec.encode_quote_utf8|].
    unfold build_menu. by rewrite Codec.encode_quote_utf8.
  - unfold build_menu, encode_quote. by rewrite encodeURIComponent_throws.
Qed.

Section Menu.
Context {engine : JsEngine}.

(** X9. From a right-click to the menu. With the viewer of a file on
    show, the [contextmenu] listener of the frame posts nothing when the
    selection is empty or all white space; otherwise it posts the trimmed
    selection and the page ([getPageNumber()], or 1 when that names no
    page), and the view, which trims again and finds the text unchanged,
    builds its menu from exactly that text and page: it hides the menu
    that is up, if any, and shows the new one. If the selection holds an
    unpaired surrogate, [encodeURIComponent] throws and the handler ends
    with an uncaught [URIError] and no menu. *)
Theorem selection_menu (es : list event) (pages : gmap jsstring N) (k : nat) (st : jsstring)
    (f : TFile) (selection : option jsstring) (pageNumber : option N) :
  let w := run es (initial pages) in
  let sel := trim (default [] selection) in
  let page := default 1 (load_config pageNumber) in
  content w = ViewerRoot k st -> file w = Some f -> Forall (λ c, c < 65536) sel ->
  match on_contextmenu selection pageNumber with
  | None => sel = []
  | Some msg =>
      sel <> [] /\ msg = DJVU_CONTEXT_MENU (Some sel) (Some page) /\
      if well_formed sel
      then exists m,
             build_menu f sel page = Ok m /\ copy_text m = sel /\
             step (Message k msg) w
             = emit (MenuShown m) (set_activeMenu (Some m) (hide_menu w))
      else step (Message k msg) w = emit (Uncaught URIError) w
  end.
Proof.
  intros w sel page Hc Hfile Hunits.
  destruct (reachable es pages) as [H Hv]. fold w in H, Hv.
  destruct (Hv k st Hc) as (-> & Hh & Hframe & t & Ht & _).
  unfold on_contextmenu. fold sel. destruct sel as [|c s] eqn:Hsel; [done|].
  split; [done|]. split; [done|].
  assert (Estep : step (Message (renderSeq w) (DJVU_CONTEXT_MENU (Some (c :: s)) (Some page))) w
                  = match build_menu f (c :: s) page with
                    | Ok m => emit (MenuShown m) (set_activeMenu (Some m) (hide_menu w))
                    | Throw e => emit (Uncaught e) w
                    end).
  { cbn [step]. rewrite (c_listeners w H), Hh. cbn [fold_left].
    unfold messageHandler_of, attached. rewrite Hc, Nat.eqb_refl, Ht. cbn [andb negb].
    change (default [] (Some (c :: s))) with (c :: s).
    assert (trim (c :: s) = c :: s) as -> by (rewrite <- Hsel; apply trim_idem).
    change (default 1 (Some page)) with page.
    unfold showSelectionContextMenu. rewrite Hfile, Hframe.
    by destruct (build_menu f (c :: s) page). }
  fold page. rewrite Estep.
  pose proof (build_menu_cases f (c :: s) page Hunits) as Hb.
  destruct (well_formed (c :: s)).
  - destruct Hb as (token & _ & ->). eexists. done.
  - by rewrite Hb.
Qed.

End Menu.

(** A selection with white space around it, on page 12. *)
Lemma selection_menu_witness :
  let f := {| path := lit "a.djvu"; name := lit "a.djvu"; extension := lit "djvu" |} in
  let w := run (engine := ascii_engine)
             [LoadFile f; Message 1 DJVU_READY; ReadResolved 1 [65; 84]; SettleDone 1]
             (initial ∅) in
  on_contextmenu (Some (lit "  two words ")) (Some 12)
  = Some (DJVU_CONTEXT_MENU (Some (lit "two words")) (Some 12)) /\
  exists m,
    build_menu f (lit "two words") 12 = Ok m /\ copy_text m = lit "two words" /\
    step (engine := ascii_engine)
      (Message 1 (DJVU_CONTEXT_MENU (Some (lit "two words")) (Some 12))) w
    = emit (MenuShown m) (set_activeMenu (Some m) (hide_menu w)).
Proof.
  intros f w. split; [reflexivity|].
  assert (Hunits : Forall (λ c, c < 65536) (trim (default [] (Some (lit "  two words "))))).
  { change (trim (default [] (Some (lit "  two words ")))) with (lit "two words").
    repeat (constructor; [reflexivity|]). constructor. }
  exact (proj2 (proj2 (@selection_menu ascii_engine
            [LoadFile f; Message 1 DJVU_READY; ReadResolved 1 [65; 84]; SettleDone 1]
            ∅ 1%nat [] f (Some (lit "  two words ")) (Some 12) eq_refl eq_refl Hunits))).
Defined.

End FrameScript.

(** ** The shape of a highlight *)

Module Marks.
Import Highlighter.

Lemma spec_marks_length start spans a b :
  length (spec_marks start spans a b) = length spans.
Proof. revert start. induction spans as [|s r IH]; intros start; [done|]. cbn. by rewrite IH. Qed.

(** A mark further on puts the start of the fragments before the end of
    the match. *)
Lemma spec_marks_later start spans a b k :
  spec_marks start spans a b !! k = Some true -> (start < b)%Z.
Proof.
  revert start k. induction spans as [|s r IH]; intros start k; [done|].
  destruct k as [|k]; cbn.
  - intros [= [H1%Z.ltb_lt _]%andb_true_iff]. done.
  - intros Hk%IH. lia.
Qed.

Lemma spec_marks_fill start spans a b j k :
  (a < start)%Z -> (j <= k)%nat ->
  spec_marks start spans a b !! k = Some true -> spec_marks start spans a b !! j = Some true.
Proof.
  revert start j k. induction spans as [|s r IH]; intros start j k Ha Hjk; [done|].
  destruct j as [|j].
  - intros Hk%spec_marks_later. cbn. f_equal. apply andb_true_iff.
    split; [by apply Z.ltb_lt|]. apply Z.ltb_lt. lia.
  - destruct k as [|k]; [lia|]. cbn. apply IH; lia.
Qed.

Lemma spec_marks_contiguous start spans a b i j k :
  (i <= j <= k)%nat ->
  spec_marks start spans a b !! i = Some true -> spec_marks start spans a b !! k = Some true ->
  spec_marks start spans a b !! j = Some true.
Proof.
  revert start i j k. induction spans as [|s r IH]; intros start i j k Hijk; [done|].
  destruct i as [|i].
  - destruct j as [|j]; [done|]. destruct k as [|k]; [lia|]. cbn.
    intros [= [_ H2%Z.ltb_lt]%andb_true_iff]. apply spec_marks_fill; lia.
  - destruct j as [|j]; [lia|]. destruct k as [|k]; [lia|]. cbn. apply IH. lia.
Qed.

Lemma all_ws_trim t : forallb is_ws t = true -> trim t = [].
Proof.
  intros Hws. unfold trim.
  assert (drop_ws t = []) as ->; [|done].
  induction t as [|c r IH]; [done|]. cbn in *.
  apply andb_true_iff in Hws as [-> Hr]. by apply IH.
Qed.

Lemma spec_offset_first t rest i :
  forallb is_ws t = false ->
  exists j, spec_offset 0 (t ++ rest) i = Some j /\ (i <= j < i + Z.of_nat (length t))%Z.
Proof.
  revert i. induction t as [|c r IH]; intros i; [done|]. cbn [forallb app spec_offset length].
  destruct (is_ws c); cbn.
  - intros Hr. destruct (IH (i + 1)%Z Hr) as (j & -> & Hj). exists j. split; [done|]. lia.
  - intros _. exists i. split; [done|]. lia.
Qed.

Lemma spec_marks_all start spans a :
  Forall (λ s, textContent s <> []) spans ->
  match spans with
  | [] => True
  | s :: _ => (a < start + Z.of_nat (length (textContent s)))%Z
  end ->
  spec_marks start spans a (start + Z.of_nat (length (concat (map textContent spans))))%Z
  = map (λ _, true) spans.
Proof.
  intros Hne. revert start. induction Hne as [|s r Hs Hr IH]; intros start Ha; [done|].
  cbn [spec_marks map concat]. rewrite length_app, Nat2Z.inj_add.
  assert (0 < length (textContent s))%nat by (destruct (textContent s); [done|cbn; lia]).
  f_equal.
  - apply andb_true_iff. split; apply Z.ltb_lt; lia.
  - rewrite <- (IH (start + Z.of_nat (length (textContent s)))%Z).
    + f_equal. lia.
    + destruct r as [|s' r']; [done|]. apply Forall_cons in Hr as [Hs' _].
      assert (0 < length (textContent s'))%nat by (destruct (textContent s'); [done|cbn; lia]).
      lia.
Qed.

Section WithEngine.
Context {engine : JsEngine}.

(** X10. The spans that [tryHighlight] marks stand next to each other:
    whatever the text layer and the quote, there is one mark per span of
    the text layer, and every span between two marked spans is marked. *)
Theorem marks_contiguous (spans : list span) (q : jsstring) (classes : list bool) :
  highlight_spans spans q = Highlighted classes ->
  length classes = length spans /\
  forall i j k, (i <= j <= k)%nat ->
    classes !! i = Some true -> classes !! k = Some true -> classes !! j = Some true.
Proof.
  rewrite highlight_spans_refine. unfold spec_locate.
  destruct (spec_leftmost _ _) as [idx|]; [|done].
  destruct (spec_span _ _ _) as [a b]. intros [= <-].
  split; [apply spec_marks_length|]. intros i j k. apply spec_marks_contiguous.
Qed.

(** X11. A quote of white space only. When the text layer has spans, a
    quote that is empty once its white space is stripped matches at once,
    and [tryHighlight] marks every span of the text layer: the match runs
    from the first character of the layer that is not white space to the
    end of the text. *)
Theorem blank_quote_marks_all (dom : list span) (q : jsstring) (fuel : nat) :
  text_layer dom <> [] -> strip_ws q = [] -> (1 <= fuel)%nat ->
  highlight_spans (text_layer dom) q = Highlighted (map (λ _, true) (text_layer dom)) /\
  highlightText fuel (λ _, dom) q
  = Some ([], Highlighted (map (λ _, true) (text_layer dom))).
Proof.
  intros Hlayer Hq Hfuel.
  assert (Hall : Forall (λ s, forallb is_ws (textContent s) = false) (text_layer dom)).
  { apply Forall_forall. intros s [[Hs _] _]%list_elem_of_filter.
    destruct (forallb is_ws (textContent s)) eqn:E; [|done]. by apply all_ws_trim in E. }
  assert (E : highlight_spans (text_layer dom) q
              = Highlighted (map (λ _, true) (text_layer dom))).
  { rewrite highlight_spans_refine. unfold spec_locate, normalize.
    rewrite Hq, (toLowerCase_ascii []) by done. rewrite spec_leftmost_empty.
    unfold spec_span. cbn [length Z.of_nat Z.add Z.sub].
    rewrite (spec_offset_negative (-1)) by lia. cbn [fmap option_fmap option_map default].
    destruct (text_layer dom) as [|s r] eqn:El; [done|].
    apply Forall_cons in Hall as Hs. destruct Hs as [Hs Hr].
    cbn [map concat]. change (Z.of_nat 0) with 0%Z.
    destruct (spec_offset_first (textContent s) (concat (map textContent r)) 0 Hs)
      as (j & -> & Hj).
    cbn [default]. f_equal.
    assert (Hne : Forall (λ s', textContent s' <> []) (s :: r)).
    { eapply Forall_impl; [exact Hall|]. cbn. intros s' Hs' Hnil. by rewrite Hnil in Hs'. }
    pose proof (spec_marks_all 0 (s :: r) j Hne ltac:(lia)) as Hm.
    rewrite Z.add_0_l in Hm. exact Hm. }
  split; [exact E|].
  unfold highlightText. destruct fuel as [|fuel]; [lia|]. cbn [tryHighlight].
  destruct (text_layer dom) as [|s r]; [done|]. by rewrite E.
Qed.

End WithEngine.

(** A quote that is one space, over the three fragments of the text. *)
Lemma blank_quote_marks_all_witness :
  highlightText (engine := ascii_engine) 1
    (λ _, [ {| textContent := lit "Hel"; parent_absolute := true |};
            {| textContent := lit "lo wor"; parent_absolute := true |};
            {| textContent := lit "ld"; parent_absolute := true |} ])
    (lit " ") = Some ([], Highlighted [true; true; true]).
Proof.
  refine (proj2 (@blank_quote_marks_all ascii_engine
            [ {| textContent := lit "Hel"; parent_absolute := true |};
              {| textContent := lit "lo wor"; parent_absolute := true |};
              {| textContent := lit "ld"; parent_absolute := true |} ]
            (lit " ") 1%nat _ eq_refl (le_n 1))).
  vm_compute. discriminate.
Defined.

(** A match that begins in the first fragment and ends in the second. *)
Lemma marks_contiguous_witness :
  let spans := [ {| textContent := lit "Hel"; parent_absolute := true |};
                 {| textContent := lit "lo wor"; parent_absolute := true |};
                 {| textContent := lit "ld"; parent_absolute := true |} ] in
  highlight_spans (engine := ascii_engine) spans (lit "EL lo") = Highlighted [true; true; false] /\
  length [true; true; false] = length spans.
Proof.
  intros spans. split; [reflexivity|].
  exact (proj1 (@marks_contiguous ascii_engine spans (lit "EL lo") [true; true; false] eq_refl)).
Defined.

End Marks.

(** ** Links, from the clipboard back to the viewer *)

Module Links.
Import JSFacts B64Facts TextFacts RegexFacts Machine Moves Lifecycle.

(** What [setEphemeralState] reads from the fragment of a link that the
    builder wrote, with anything before it that has no [p] and no [q]. *)
Lemma fragment_read (P : N) (Q pre : jsstring) :
  Q <> [] -> well_formed Q = true -> 112 ∉ pre -> 113 ∉ pre ->
  exists token h,
    encode_quote Q = Ok token /\
    subpath_page (pre ++ fragment P token) = Some P /\
    subpath_q (pre ++ fragment P token) = Some token /\
    decodeURIComponent token = Some h /\ decode_quote h = Some Q.
Proof.
  intros Hne Hwf Hp Hq.
  set (bytes := utf8_string Q).
  set (token := concat (map enc_octet (b64_encode bytes))).
  assert (Hoct : Forall (λ b, b < 256) bytes) by by apply utf8_string_octets.
  assert (Hb64 : Forall (λ c, c < 128) (b64_encode bytes)) by by apply b64_encode_ascii.
  assert (Hb256 : Forall (λ c, c < 256) (b64_encode bytes)).
  { eapply Forall_impl; [exact Hb64|]. cbn. lia. }
  assert (Htok : Forall (λ c, c <> 38 /\ c <> 61) token) by by apply enc_chars.
  assert (Htne : token <> []).
  { apply enc_nonempty; [done|]. intros E%b64_encode_nil. by apply utf8_string_nonempty in E. }
  destruct (toString_spec P) as (Hdne & Hdig & Hparse).
  exists token, (b64_encode bytes). split; [by apply Codec.encode_quote_utf8|].
  split; [unfold fragment; rewrite Codec.subpath_page_fragment, Hparse; done|].
  split.
  { unfold fragment. rewrite <- (app_nil_r token) at 1.
    by rewrite Codec.subpath_q_fragment. }
  split; [by apply decodeURIComponent_enc_ascii|by apply Codec.decode_quote_b64].
Qed.

Section WithEngine.
Context {engine : JsEngine}.

(** X12. What a link fragment overrides. [setEphemeralState] touches
    nothing of the view but the two pending fields. A fragment sets the
    pending page when it has a [page=<digits>] and leaves it as it was
    when it has none; it sets the pending highlight when it has a
    [q=<token>] (to the decoded quote, or to null when the token is not
    base64 of UTF-8) and leaves it as it was when it has none. When the
    token is not valid percent-encoding the call throws before either
    field is written. A state without a string [subpath] counts as the
    empty fragment. *)
Theorem link_fields_merge (w : world) (subpath : option jsstring) :
  let s := default [] subpath in
  let w' := step (SetEphemeralState subpath) w in
  (content w' = content w /\ renderSeq w' = renderSeq w /\ tasks w' = tasks w /\
   filePages w' = filePages w /\ listeners w' = listeners w /\ timers w' = timers w /\
   load_frames (trace w') = load_frames (trace w)) /\
  match decode s with
  | Throw e =>
      trace w' = trace w ++ [Uncaught e] /\
      pendingPage w' = pendingPage w /\ pendingHighlight w' = pendingHighlight w
  | Ok loc =>
      trace w' = trace w /\
      value <$> pendingPage w' = nullish (loc_page loc) (value <$> pendingPage w) /\
      value <$> pendingHighlight w'
      = match subpath_q s with
        | Some _ => loc_quote loc
        | None => value <$> pendingHighlight w
        end
  end.
Proof.
  cbv zeta. rewrite Codec.decode_unfold. cbn [step]. unfold setEphemeralState, locate.
  cbv zeta. generalize (default [] subpath). intros s.
  destruct (subpath_q s) as [tok|]; [destruct (decodeURIComponent tok) as [h|]|];
    destruct (subpath_page s) as [p|]; cbn; rewrite ?load_frames_app; cbn;
    rewrite ?app_nil_r; try done.
  - by destruct (decode_quote h).
  - by destruct (decode_quote h).
Qed.


End WithEngine.

(** [page=3] while a quote is pending: only the page is overridden. *)
Lemma link_fields_merge_witness :
  let w := run (engine := ascii_engine) [SetEphemeralState (Some (lit "page=1&q=YWJj"))]
             (initial ∅) in
  let w' := step (engine := ascii_engine) (SetEphemeralState (Some (lit "page=3"))) w in
  value <$> pendingPage w' = Some 3 /\ value <$> pendingHighlight w' = Some (lit "abc").
Proof.
  intros w w'.
  destruct (proj2 (@link_fields_merge ascii_engine w (Some (lit "page=3")))) as (_ & Hp & Hh).
  split; [exact Hp|exact Hh].
Defined.


End Links.

(** ** Opens that complete, opens that are refused, and answers that come late *)

Module Opens.
Import Machine Moves Lifecycle.

Section WithEngine.
Context {engine : JsEngine}.

(** The extension check, on an extension of ASCII characters. *)
Lemma is_djvu_lower f :
  is_ascii (extension f) = true ->
  is_djvu f = bool_decide (map lower_unit (extension f) = lit "djvu")
              || bool_decide (map lower_unit (extension f) = lit "djv").
Proof. intros Ha. unfold is_djvu. cbv zeta. by rewrite toLowerCase_ascii. Qed.

(** X14. An open that runs its course. In any state the view can
    reach, a file whose extension is [djvu] or [djv] in any mix of upper
    and lower case is opened, the frame reports ready, the bytes arrive
    and the 50 ms wait ends. Exactly one load is posted: to the frame of
    the new render, with the bytes that were read and the name of the
    file, with the pending page if there is one and else the stored one,
    and with the pending quote if there is one; and nothing is pending
    afterwards. *)
Theorem open_delivers (es : list event) (pages : gmap jsstring N) (f : TFile)
    (buffer : list N) :
  let w := run es (initial pages) in
  let seq := S (renderSeq w) in
  let w' := run [LoadFile f; Message seq DJVU_READY; ReadResolved seq buffer; SettleDone seq] w in
  is_ascii (extension f) = true ->
  map lower_unit (extension f) = lit "djvu" \/ map lower_unit (extension f) = lit "djv" ->
  exists m,
    trace w' = trace w ++ [PostLoad m] /\
    lm_frame m = seq /\ lm_buffer m = buffer /\ lm_name m = name f /\
    value <$> lm_page m
    = nullish (value <$> pendingPage w) (getFilePage (path f) (filePages w)) /\
    value <$> lm_highlight m = value <$> pendingHighlight w /\
    pendingPage w' = None /\ pendingHighlight w' = None.
Proof.
  intros w seq w' Hascii Hext.
  assert (Hf : is_djvu f = true).
  { rewrite is_djvu_lower by done. destruct Hext as [-> | ->]; done. }
  assert (H : consistent w) by apply run_consistent, initial_consistent.
  destruct (Session.open_run w f buffer None H Hf) as (m & H1 & H2 & H3 & H4 & H5 & H6 & H7 & H8).
  exists m. done.
Qed.

(** X15. A file that is not DjVu. When the lower-cased extension is
    neither [djvu] nor [djv], [onLoadFile] ends in [render]'s check: the
    view shows [Not a DjVu file.] and no notice, no render is started (no
    new sequence number, frame, listener, timer or read), the listener
    and the timer of an earlier render stay registered, and the pending
    page and highlight have been consumed all the same. *)
Theorem non_djvu_refused (w : world) (f : TFile) :
  is_ascii (extension f) = true ->
  map lower_unit (extension f) <> lit "djvu" -> map lower_unit (extension f) <> lit "djv" ->
  let w' := step (LoadFile f) w in
  content w' = ErrorPanel (lit "Not a DjVu file.") /\ trace w' = trace w /\
  renderSeq w' = renderSeq w /\ tasks w' = tasks w /\
  listeners w' = listeners w /\ timers w' = timers w /\
  messageHandler w' = messageHandler w /\ initWait w' = initWait w /\
  pendingPage w' = None /\ pendingHighlight w' = None /\ file w' = Some f.
Proof.
  intros Hascii H1 H2.
  assert (Hf : is_djvu f = false).
  { rewrite is_djvu_lower by done. by rewrite !bool_decide_eq_false_2. }
  cbv zeta. cbn [step]. unfold onLoadFile, render. cbv zeta. cbn [nullish]. rewrite Hf.
  cbn [negb]. done.
Qed.


End WithEngine.

(** A file [B.DjVu] is opened while the store holds page 7 for it. *)
Lemma open_delivers_witness :
  let f := {| path := lit "B.DjVu"; name := lit "B.DjVu"; extension := lit "DjVu" |} in
  exists m,
    trace (run (engine := ascii_engine)
             [LoadFile f; Message 1 DJVU_READY; ReadResolved 1 [65; 84]; SettleDone 1]
             (initial {[ lit "B.DjVu" := 7 ]})) = [PostLoad m] /\
    lm_buffer m = [65; 84] /\ lm_name m = lit "B.DjVu" /\ value <$> lm_page m = Some 7.
Proof.
  intros f.
  destruct (@open_delivers ascii_engine [] {[ lit "B.DjVu" := 7 ]} f [65; 84]
              eq_refl (or_introl eq_refl))
    as (m & Htr & _ & Hb & Hn & Hp & _).
  exists m. split; [exact Htr|]. split; [exact Hb|]. split; [exact Hn|exact Hp].
Defined.

(** A PDF is dropped onto the view. *)
Lemma non_djvu_refused_witness :
  content (step (engine := ascii_engine)
             (LoadFile {| path := lit "a.pdf"; name := lit "a.pdf"; extension := lit "pdf" |})
             (initial ∅))
  = ErrorPanel (lit "Not a DjVu file.").
Proof.
  exact (proj1 (@non_djvu_refused ascii_engine (initial ∅)
                  {| path := lit "a.pdf"; name := lit "a.pdf"; extension := lit "pdf" |}
                  eq_refl ltac:(discriminate) ltac:(discriminate))).
Defined.


(** The 50 ms wait of a render that has been superseded still ends in
    the reset of the pending fields: here it takes with it the page of a
    link that came in for the document opened after it, which then loads
    at its stored page. *)
Example superseded_settle_resets_pending :
  let fA := {| path := lit "a.djvu"; name := lit "a.djvu"; extension := lit "djvu" |} in
  let fB := {| path := lit "b.djvu"; name := lit "b.djvu"; extension := lit "djvu" |} in
  trace (run (engine := ascii_engine)
           [LoadFile fA; Message 1 DJVU_READY; ReadResolved 1 [65];
            LoadFile fB; SetEphemeralState (Some (lit "page=3")); SettleDone 1;
            Message 2 DJVU_READY; ReadResolved 2 [66]; SettleDone 2]
           (initial {[ lit "b.djvu" := 7 ]}))
  = [PostLoad {| lm_frame := 2; lm_buffer := [66]; lm_name := lit "b.djvu";
                 lm_page := Some (Tag None 7); lm_highlight := None |}].
Proof. reflexivity. Qed.

End Opens.
